(** * The exec plugin of WeeChat: registry of executed commands, output
      display and end of command (src/plugins/exec/exec.c)

    The C code keeps the executed commands in a doubly linked list of
    heap-allocated [struct t_exec_cmd], reached from the two globals
    [exec_cmds] (first) and [last_exec_cmd] (last).  The embedding keeps the
    pointers: a heap maps addresses to structures, [NULL] is [None], and a
    function that dereferences a pointer that is not allocated has no
    result ([None]).  Loops over the list run on a fuel taken from the size
    of the heap; running out of it gives no result either.  Calls to the
    host (WeeChat core) that have an effect are recorded as events. *)

From Stdlib Require Import ZArith String Ascii List Lia DecimalString.
From Stdlib Require DecimalPos.
From stdpp Require Import base option list gmap strings fin_maps.

Local Open Scope string_scope.
Local Open Scope list_scope.
Local Open Scope Z_scope.

(** ** C integers *)

(** [int] is 32 bits wide; arithmetic wraps around. *)
Definition wrap_int (z : Z) : Z :=
  (z + 2147483648) mod 4294967296 - 2147483648.

(** Sum and product of two [int]. *)
Definition int_add (x y : Z) : Z := wrap_int (x + y).
Definition int_mul (x y : Z) : Z := wrap_int (x * y).

(** Bounds of [long], 64 bits wide. *)
Definition LONG_MAX : Z := 9223372036854775807.
Definition LONG_MIN : Z := -9223372036854775808.

(** ** Data *)

(** Address of an allocated [struct t_exec_cmd]; a pointer is an
    [option addr]. *)
Definition addr : Type := positive.

(** Handles of the host: a buffer ([struct t_gui_buffer *]) and a hook
    ([struct t_hook *]). *)
Definition t_gui_buffer : Type := positive.
Definition t_hook : Type := positive.

(** Modelled from the spec: the constants of [enum t_exec_color], declared
    in exec.h, which is not among the sources.  The spec has the three
    policies ansi, decode and strip; [exec_color_string] of exec.c lists
    them in the order of the enumeration, that [exec_search_color]
    indexes. *)
Definition EXEC_COLOR_ANSI : Z := 0.

(** Modelled from the spec: second constant of [enum t_exec_color]. *)
Definition EXEC_COLOR_DECODE : Z := 1.

(** Modelled from the spec: third constant of [enum t_exec_color]. *)
Definition EXEC_COLOR_STRIP : Z := 2.

(** [struct t_exec_cmd], declared in exec.h: the fields that [exec_add]
    sets and [exec_print_log] prints, with the types of their formats, and
    [color], that [exec_decode_color] reads and [exec_add] leaves as
    [malloc] gave it.  The [int] fields that the code only tests for zero
    are booleans here. *)
Record t_exec_cmd : Type := mk_exec_cmd {
  number : Z;
  name : option string;
  hook : option t_hook;
  command : option string;
  pid : Z;
  detached : bool;
  start_time : Z;
  end_time : Z;
  output_to_buffer : bool;
  buffer_full_name : option string;
  line_numbers : bool;
  display_rc : bool;
  color : Z;
  out_size : Z;
  out : option string;
  err_size : Z;
  err : option string;
  return_code : Z;
  pipe_command : option string;
  hsignal : option string;
  prev_cmd : option addr;
  next_cmd : option addr
}.

(** The assignments [c->prev_cmd = p] and [c->next_cmd = p]. *)
Definition set_prev_cmd (p : option addr) (c : t_exec_cmd) : t_exec_cmd :=
  mk_exec_cmd (number c) (name c) (hook c) (command c) (pid c) (detached c)
    (start_time c) (end_time c) (output_to_buffer c) (buffer_full_name c)
    (line_numbers c) (display_rc c) (color c) (out_size c) (out c)
    (err_size c) (err c) (return_code c) (pipe_command c) (hsignal c)
    p (next_cmd c).

Definition set_next_cmd (p : option addr) (c : t_exec_cmd) : t_exec_cmd :=
  mk_exec_cmd (number c) (name c) (hook c) (command c) (pid c) (detached c)
    (start_time c) (end_time c) (output_to_buffer c) (buffer_full_name c)
    (line_numbers c) (display_rc c) (color c) (out_size c) (out c)
    (err_size c) (err c) (return_code c) (pipe_command c) (hsignal c)
    (prev_cmd c) p.

(** The globals of exec.c and the allocated structures. *)
Record t_exec : Type := mk_exec {
  heap : gmap addr t_exec_cmd;
  exec_cmds : option addr;
  last_exec_cmd : option addr;
  exec_cmds_count : Z
}.

(** State when the plugin is loaded. *)
Definition exec_init : t_exec := mk_exec ∅ None None 0.

(** ** Walking the list *)

(** [for (ptr = start; ptr; ptr = ptr->next_cmd) if (test ptr) break;]
    gives the node the loop stops on, [Some None] when it reaches the end
    of the list.  [test] may itself read other nodes. *)
Fixpoint first_cmd (fuel : nat) (h : gmap addr t_exec_cmd)
    (test : addr → t_exec_cmd → option bool) (ptr : option addr)
    : option (option addr) :=
  match ptr with
  | None => Some None
  | Some a =>
      match fuel with
      | O => None
      | S fuel' =>
          c ← h !! a;
          b ← test a c;
          if b : bool then Some (Some a)
          else first_cmd fuel' h test (next_cmd c)
      end
  end.

(** The nodes met by following [link] from [ptr] until [NULL]. *)
Fixpoint traverse (fuel : nat) (h : gmap addr t_exec_cmd)
    (link : t_exec_cmd → option addr) (ptr : option addr)
    : option (list addr) :=
  match ptr with
  | None => Some []
  | Some a =>
      match fuel with
      | O => None
      | S fuel' =>
          c ← h !! a;
          l ← traverse fuel' h link (link c);
          Some (a :: l)
      end
  end.

(** The list walked from [exec_cmds] along [next_cmd]. *)
Definition forward (s : t_exec) : option (list addr) :=
  traverse (size (heap s)) (heap s) next_cmd (exec_cmds s).

(** The list walked from [last_exec_cmd] along [prev_cmd]. *)
Definition backward (s : t_exec) : option (list addr) :=
  traverse (size (heap s)) (heap s) prev_cmd (last_exec_cmd s).

(** ** exec_add *)

(** The test of the loop of [exec_add]:
    [ptr->prev_cmd && ptr->number > ptr->prev_cmd->number + 1]. *)
Definition exec_add_gap (h : gmap addr t_exec_cmd) (a : addr)
    (c : t_exec_cmd) : option bool :=
  match prev_cmd c with
  | None => Some false
  | Some p =>
      cp ← h !! p;
      Some (bool_decide (number c > int_add (number cp) 1))
  end.

(** "find first available number" *)
Definition exec_add_number (s : t_exec) : option Z :=
  last ← match last_exec_cmd s with
          | None => Some 0
          | Some l => cl ← heap s !! l; Some (int_add (number cl) 1)
          end;
  found ← first_cmd (size (heap s)) (heap s) (exec_add_gap (heap s))
            (exec_cmds s);
  match found with
  | None => Some last
  | Some a =>
      c ← heap s !! a;
      p ← prev_cmd c;
      cp ← heap s !! p;
      Some (int_add (number cp) 1)
  end.

(** [exec_add ()].  [new_exec_cmd] is what [malloc] returns: [None] when it
    fails, else the address of the block and its content, which is
    indeterminate.  [now] is [time (NULL)].  The result is the returned
    pointer and the new state. *)
Definition exec_add (now : Z) (new_exec_cmd : option (addr * t_exec_cmd))
    (s : t_exec) : option (option addr * t_exec) :=
  number ← exec_add_number s;
  match new_exec_cmd with
  | None => Some (None, s)
  | Some (a, garbage) =>
      let c :=
        {| number := number; name := None; hook := None; command := None;
           pid := 0; detached := false; start_time := now; end_time := 0;
           output_to_buffer := false; buffer_full_name := None;
           line_numbers := false; display_rc := false;
           color := color garbage;
           out_size := 0; out := None; err_size := 0; err := None;
           return_code := -1; pipe_command := None; hsignal := None;
           prev_cmd := last_exec_cmd s; next_cmd := None |} in
      h ← match exec_cmds s, last_exec_cmd s with
           | None, _ => Some (heap s)
           | Some _, Some l =>
               cl ← heap s !! l;
               Some (<[l := set_next_cmd (Some a) cl]> (heap s))
           | Some _, None => None
           end;
      Some (Some a,
            {| heap := <[a := c]> h;
               exec_cmds := match exec_cmds s with
                            | None => Some a
                            | Some f => Some f
                            end;
               last_exec_cmd := Some a;
               exec_cmds_count := int_add (exec_cmds_count s) 1 |})
  end.

(** ** Calls to the host *)

(** An argument of a [printf]-like call. *)
Inductive t_arg : Type :=
  | arg_str (s : option string)
  | arg_int (z : Z).

(** The calls of exec.c to the host that have an effect, with their
    arguments.  The callback of [weechat_hook_timer] is always
    [&exec_timer_delete_cb]; [data] is its argument. *)
Inductive event : Type :=
  | weechat_printf (buffer : option t_gui_buffer) (format : string)
      (args : list t_arg)
  | weechat_printf_tags (buffer : option t_gui_buffer) (tags : string)
      (format : string) (args : list t_arg)
  | weechat_command (buffer : option t_gui_buffer) (cmd : string)
  | weechat_hook_hsignal_send (signal : string)
      (hashtable : gmap string (option string))
  | weechat_hook_timer (interval align_second max_calls : Z)
      (data : option addr)
  | weechat_unhook (h : t_hook).

(** Return code of a callback. *)
Inductive t_rc : Type := WEECHAT_RC_OK | WEECHAT_RC_ERROR.

(** ** exec_free *)

(** [exec_free (exec_cmd)].  Every [exec_cmd->field] is read from the heap
    as it is at that point of the function. *)
Definition exec_free (exec_cmd : option addr) (s : t_exec)
    : option (list event * t_exec) :=
  match exec_cmd with
  | None => Some ([], s)
  | Some a =>
      c ← heap s !! a;
      h1 ← match prev_cmd c with
            | None => Some (heap s)
            | Some p =>
                cp ← heap s !! p;
                Some (<[p := set_next_cmd (next_cmd c) cp]> (heap s))
            end;
      c1 ← h1 !! a;
      h2 ← match next_cmd c1 with
            | None => Some h1
            | Some n =>
                cn ← h1 !! n;
                Some (<[n := set_prev_cmd (prev_cmd c1) cn]> h1)
            end;
      c2 ← h2 !! a;
      let first :=
        if decide (exec_cmds s = Some a) then next_cmd c2 else exec_cmds s in
      let last :=
        if decide (last_exec_cmd s = Some a) then prev_cmd c2
        else last_exec_cmd s in
      Some (match hook c2 with
            | Some k => [weechat_unhook k]
            | None => []
            end,
            {| heap := delete a h2;
               exec_cmds := first;
               last_exec_cmd := last;
               exec_cmds_count := int_add (exec_cmds_count s) (-1) |})
  end.

(** [exec_timer_delete_cb (data, remaining_calls)]: frees the command when
    it is still in the list. *)
Definition exec_timer_delete_cb (data : option addr) (s : t_exec)
    : option (t_rc * list event * t_exec) :=
  match data with
  | None => Some (WEECHAT_RC_OK, [], s)
  | Some exec_cmd =>
      found ← first_cmd (size (heap s)) (heap s)
                (λ a _, Some (bool_decide (a = exec_cmd))) (exec_cmds s);
      match found with
      | Some ptr_exec_cmd =>
          r ← exec_free (Some ptr_exec_cmd) s;
          Some (WEECHAT_RC_OK, r.1, r.2)
      | None => Some (WEECHAT_RC_OK, [], s)
      end
  end.

(** ** Sequences of creations and removals *)

(** A creation, with the clock and the answer of [malloc], or a removal. *)
Inductive t_op : Type :=
  | op_add (now : Z) (new_exec_cmd : option (addr * t_exec_cmd))
  | op_free (exec_cmd : option addr).

(** What the C program guarantees to the two functions: [malloc] returns a
    block that is not allocated yet, and [exec_free] receives [NULL] or a
    command that has not been freed. *)
Definition op_ok (s : t_exec) (o : t_op) : bool :=
  match o with
  | op_add _ None => true
  | op_add _ (Some (a, _)) => bool_decide (heap s !! a = None)
  | op_free None => true
  | op_free (Some a) => bool_decide (is_Some (heap s !! a))
  end.

(** The state after one creation or removal. *)
Definition exec_op (s : t_exec) (o : t_op) : option t_exec :=
  if op_ok s o then
    match o with
    | op_add now m => snd <$> exec_add now m s
    | op_free p => snd <$> exec_free p s
    end
  else None.

(** The state after a sequence of creations and removals. *)
Fixpoint exec_ops (s : t_exec) (ops : list t_op) : option t_exec :=
  match ops with
  | [] => Some s
  | o :: ops' => s' ← exec_op s o; exec_ops s' ops'
  end.

(** The numbers of the commands, in list order. *)
Definition numbers (s : t_exec) : option (list Z) :=
  l ← forward s;
  mapM (λ a, number <$> heap s !! a) l.

(** ** C strings *)

(** The characters line feed, tabulation and double quote. *)
Definition LF : ascii := "010"%char.
Definition TAB : ascii := "009"%char.
Definition DQUOTE : ascii := "034"%char.

(** A C string is the [string] of its bytes before the terminator. *)
Definition strlen (s : string) : Z := Z.of_nat (String.length s).

(** [strchr (s, c)]: offset of the first [c] in [s]. *)
Fixpoint strchr (s : string) (c : ascii) : option nat :=
  match s with
  | EmptyString => None
  | String x s' =>
      if bool_decide (x = c) then Some O else S <$> strchr s' c
  end.

(** [s + n] for [n <= strlen (s)]. *)
Fixpoint str_drop (n : nat) (s : string) : string :=
  match n, s with
  | O, _ => s
  | S n', String _ s' => str_drop n' s'
  | S _, EmptyString => EmptyString
  end.

(** [strstr (s, sub) != NULL] *)
Fixpoint strstr (s sub : string) : bool :=
  String.prefix sub s ||
  match s with
  | EmptyString => false
  | String _ s' => strstr s' sub
  end.

(** What [snprintf (str, size, ...)] leaves in [str] when the formatted
    text is [s]: at most [size - 1] bytes. *)
Definition snprintf (size : Z) (s : string) : string :=
  String.substring 0 (Z.to_nat (size - 1)) s.

(** Conversion ["%d"]. *)
Definition string_of_int (z : Z) : string :=
  NilZero.string_of_int (Z.to_int z).

(** [isspace] and the value of a decimal digit, in the C locale. *)
Definition isspace (c : ascii) : bool :=
  let n := Z.of_nat (nat_of_ascii c) in
  bool_decide (n = 32) || (bool_decide (9 ≤ n) && bool_decide (n ≤ 13)).

Definition digit_value (c : ascii) : option Z :=
  let n := Z.of_nat (nat_of_ascii c) in
  if bool_decide (48 ≤ n) && bool_decide (n ≤ 57) then Some (n - 48)
  else None.

(** The two scans of [strtol]: leading white space, then digits. *)
Fixpoint skip_spaces (s : string) : string :=
  match s with
  | String c s' => if isspace c then skip_spaces s' else s
  | EmptyString => s
  end.

Fixpoint read_digits (acc : Z) (s : string) : Z * string :=
  match s with
  | String c s' =>
      match digit_value c with
      | Some d => read_digits (10 * acc + d) s'
      | None => (acc, s)
      end
  | EmptyString => (acc, s)
  end.

(** [strtol (nptr, &endptr, 10)] of the C library, [long] being 64 bits
    wide: the value and the string [endptr] points to.  White space is
    skipped, a sign is optional; without a digit the value is 0 and
    [endptr] is [nptr]; a value out of range is [LONG_MAX] or [LONG_MIN]. *)
Definition strtol (nptr : string) : Z * string :=
  let s := skip_spaces nptr in
  let '(negative, s1) :=
    match s with
    | String "-" s' => (true, s')
    | String "+" s' => (false, s')
    | _ => (false, s)
    end in
  match s1 with
  | EmptyString => (0, nptr)
  | String c _ =>
      match digit_value c with
      | None => (0, nptr)
      | Some _ =>
          let '(v, endptr) := read_digits 0 s1 in
          let v := if negative : bool then - v else v in
          (Z.max LONG_MIN (Z.min LONG_MAX v), endptr)
      end
  end.

(** ** exec_search_by_id *)

(** The body of the loop of [exec_search_by_id]: the number is checked,
    then the name. *)
Definition exec_search_test (id : string) (num : Z) (c : t_exec_cmd)
    : bool :=
  if bool_decide (num >= 0) && bool_decide (number c = wrap_int num)
  then true
  else if bool_decide (name c = Some id) then true
  else false.

(** The number [exec_search_by_id] looks for: the value of [strtol], or -1
    when a character is left after it. *)
Definition exec_search_number (id : string) : Z :=
  let '(num, error) := strtol id in
  if bool_decide (error = "") then num else -1.

(** [exec_search_by_id (id)] *)
Definition exec_search_by_id (id : string) (s : t_exec)
    : option (option addr) :=
  let num := exec_search_number id in
  first_cmd (size (heap s)) (heap s)
    (λ _ c, Some (exec_search_test id num c)) (exec_cmds s).

(** ** The host *)

(** What exec.c takes from the headers that are not part of this file and
    from WeeChat core during one call.  The two constants come from
    weechat-plugin.h and exec.h; the other fields are the answers of the
    host: the debug level of the plugin, the option
    exec.command.purge_delay, the clock, the lookup of a buffer by its
    full name, the modifiers that decode colors, the replacement of a
    substring, and whether a request for memory of some size succeeds. *)
Record t_weechat : Type := mk_weechat {
  WEECHAT_HOOK_PROCESS_ERROR : Z;
  EXEC_PLUGIN_NAME : string;
  debug : Z;
  exec_config_command_purge_delay : Z;
  time_now : Z;
  weechat_buffer_search : string → option string → option t_gui_buffer;
  weechat_hook_modifier_exec : string → string → string → option string;
  weechat_string_replace : string → string → string → option string;
  weechat_hashtable_new : bool;
  can_alloc : Z → bool
}.

(** [strdup] and [weechat_strndup]: [None] when memory is refused. *)
Definition strdup (w : t_weechat) (s : string) : option string :=
  if can_alloc w (strlen s + 1) then Some s else None.

Definition weechat_strndup (w : t_weechat) (s : string) (n : nat)
    : option string :=
  if can_alloc w (Z.of_nat n + 1) then Some (String.substring 0 n s)
  else None.

(** ** exec_concat_output *)

(** [exec_concat_output (&size, &output, text)] gives the new [size] and
    [output].  [memcpy] writes [text] at offset [size] of the block; [size]
    is the length of [output] wherever exec.c calls the function. *)
Definition exec_concat_output (w : t_weechat) (size : Z)
    (output : option string) (text : string) : Z * option string :=
  let length := wrap_int (strlen text) in
  let new_size := int_add size length in
  if can_alloc w (new_size + 1) then
    (new_size,
     Some (String.substring 0 (Z.to_nat size) (default "" output) +:+ text))
  else (size, output).

(** The assignments to [out_size] and [out], and to [err_size] and [err],
    through the two pointers given to [exec_concat_output]. *)
Definition set_out (so : Z * option string) (c : t_exec_cmd) : t_exec_cmd :=
  mk_exec_cmd (number c) (name c) (hook c) (command c) (pid c) (detached c)
    (start_time c) (end_time c) (output_to_buffer c) (buffer_full_name c)
    (line_numbers c) (display_rc c) (color c) so.1 so.2
    (err_size c) (err c) (return_code c) (pipe_command c) (hsignal c)
    (prev_cmd c) (next_cmd c).

Definition set_err (so : Z * option string) (c : t_exec_cmd) : t_exec_cmd :=
  mk_exec_cmd (number c) (name c) (hook c) (command c) (pid c) (detached c)
    (start_time c) (end_time c) (output_to_buffer c) (buffer_full_name c)
    (line_numbers c) (display_rc c) (color c) (out_size c) (out c)
    so.1 so.2 (return_code c) (pipe_command c) (hsignal c)
    (prev_cmd c) (next_cmd c).

(** ** exec_decode_color *)

Definition exec_decode_color (w : t_weechat) (exec_cmd : t_exec_cmd)
    (str : option string) : option string :=
  match str with
  | None => None
  | Some str =>
      if bool_decide (color exec_cmd = EXEC_COLOR_ANSI) then strdup w str
      else
        weechat_hook_modifier_exec w
          (if output_to_buffer exec_cmd
              || bool_decide (is_Some (pipe_command exec_cmd))
           then "irc_color_decode_ansi" else "color_decode_ansi")
          (if bool_decide (color exec_cmd = EXEC_COLOR_DECODE)
           then "1" else "0")
          str
  end.

(** ** exec_display_output *)

(** The tags of a displayed line: [str_tags] after its [snprintf]. *)
Definition exec_display_tags (exec_cmd : t_exec_cmd) (is_out : bool)
    : string :=
  let str_number := snprintf 32 (string_of_int (number exec_cmd)) in
  snprintf 1024
    ("exec_" +:+ (if is_out then "stdout" else "stderr")
     +:+ ",exec_cmd_" +:+ default str_number (name exec_cmd)).

(** What the body of the loop of [exec_display_output] does with a decoded
    line: the three branches on [pipe_command] and [output_to_buffer]. *)
Definition exec_display_line (w : t_weechat) (exec_cmd : t_exec_cmd)
    (buffer : option t_gui_buffer) (is_out : bool) (line_nb : Z)
    (line : string) : list event :=
  match pipe_command exec_cmd with
  | Some pipe =>
      if strstr pipe "$line" then
        match weechat_string_replace w pipe "$line" line with
        | Some line2 => [weechat_command buffer line2]
        | None => []
        end
      else
        let length := wrap_int (strlen pipe + 1 + strlen line + 1) in
        if can_alloc w length then
          [weechat_command buffer (snprintf length (pipe +:+ " " +:+ line))]
        else []
  | None =>
      if output_to_buffer exec_cmd then
        if line_numbers exec_cmd then
          let length := wrap_int (32 + strlen line + 1) in
          if can_alloc w length then
            [weechat_command buffer
               (snprintf length (string_of_int line_nb +:+ ". " +:+ line))]
          else []
        else
          [weechat_command buffer
             (match line with EmptyString => " " | _ => line end)]
      else
        let str_tags := exec_display_tags exec_cmd is_out in
        let str_number :=
          snprintf 32 (string_of_int line_nb +:+ String TAB "") in
        [weechat_printf_tags buffer str_tags "%s%s"
           [arg_str
              (Some (if line_numbers exec_cmd then str_number
                     else String " " (String TAB "")));
            arg_str (Some line)]]
  end.

(** The loop of [exec_display_output], from [ptr_line] and [line_nb]. *)
Fixpoint exec_display_loop (fuel : nat) (w : t_weechat)
    (exec_cmd : t_exec_cmd) (buffer : option t_gui_buffer) (is_out : bool)
    (ptr_line : string) (line_nb : Z) : option (list event) :=
  match fuel with
  | O => None
  | S fuel' =>
      match ptr_line with
      | EmptyString => Some []
      | String _ _ =>
          let pos := strchr ptr_line LF in
          match
            match pos with
            | Some n => weechat_strndup w ptr_line n
            | None => strdup w ptr_line
            end
          with
          | None => Some []
          | Some line =>
              match exec_decode_color w exec_cmd (Some line) with
              | None => Some []
              | Some line =>
                  let shown :=
                    exec_display_line w exec_cmd buffer is_out line_nb line in
                  match pos with
                  | Some n =>
                      rest ← exec_display_loop fuel' w exec_cmd buffer is_out
                               (str_drop (S n) ptr_line) (int_add line_nb 1);
                      Some (shown ++ rest)
                  | None => Some shown
                  end
              end
          end
      end
  end.

(** [exec_display_output (exec_cmd, buffer, out)] *)
Definition exec_display_output (w : t_weechat) (exec_cmd : t_exec_cmd)
    (buffer : option t_gui_buffer) (is_out : bool) : option (list event) :=
  match (if is_out then out exec_cmd else err exec_cmd) with
  | None => Some []
  | Some ptr_output =>
      if output_to_buffer exec_cmd
         && negb (bool_decide (is_Some (pipe_command exec_cmd)))
         && negb (bool_decide (is_Some buffer))
      then Some []
      else
        exec_display_loop (S (String.length ptr_output)) w exec_cmd buffer
          is_out ptr_output 1
  end.

(** ** exec_end_command *)

(** The assignments "(re)set some variables after the end of command". *)
Definition set_end (now return_code : Z) (c : t_exec_cmd) : t_exec_cmd :=
  mk_exec_cmd (number c) (name c) None (command c) 0 (detached c)
    (start_time c) now (output_to_buffer c) (buffer_full_name c)
    (line_numbers c) (display_rc c) (color c) (out_size c) (out c)
    (err_size c) (err c) return_code (pipe_command c) (hsignal c)
    (prev_cmd c) (next_cmd c).

(** The hashtable sent with the hsignal. *)
Definition exec_end_hashtable (w : t_weechat) (c : t_exec_cmd)
    : gmap string (option string) :=
  let h0 : gmap string (option string) := <["command" := command c]> ∅ in
  let str_number := snprintf 32 (string_of_int (number c)) in
  let h1 := <["number" := Some str_number]> h0 in
  let h2 := <["name" := name c]> h1 in
  let h3 := <["out" := exec_decode_color w c (out c)]> h2 in
  <["err" := exec_decode_color w c (err c)]> h3.

(** The message on the return code, displayed when the command is not
    detached, not sent to a buffer and not piped. *)
Definition exec_end_rc (w : t_weechat) (c : t_exec_cmd)
    (ptr_buffer : option t_gui_buffer) (return_code : Z) : list event :=
  if display_rc c && negb (detached c) && negb (output_to_buffer c)
     && negb (bool_decide (is_Some (pipe_command c)))
  then
    if bool_decide (return_code >= 0) then
      [weechat_printf_tags ptr_buffer "exec_rc"
         ("%s: end of command %d (" +:+ String DQUOTE "%s"
          +:+ String DQUOTE "), return code: %d")
         [arg_str (Some (EXEC_PLUGIN_NAME w)); arg_int (number c);
          arg_str (command c); arg_int return_code]]
    else
      [weechat_printf_tags ptr_buffer "exec_rc"
         ("%s: unexpected end of command %d (" +:+ String DQUOTE "%s"
          +:+ String DQUOTE ")")
         [arg_str (Some (EXEC_PLUGIN_NAME w)); arg_int (number c);
          arg_str (command c)]]
  else [].

(** The timer that removes the command: [weechat_hook_timer (1 + 1000 *
    delay, 0, 1, &exec_timer_delete_cb, exec_cmd)], in [int] arithmetic. *)
Definition exec_end_timer (w : t_weechat) (a : addr) : list event :=
  if bool_decide (exec_config_command_purge_delay w >= 0) then
    [weechat_hook_timer
       (int_add 1 (int_mul 1000 (exec_config_command_purge_delay w)))
       0 1 (Some a)]
  else [].

(** [exec_end_command (exec_cmd, return_code)], where [exec_cmd] points to
    the structure [c] at address [a]: the calls to the host and the
    structure after the call. *)
Definition exec_end_command (w : t_weechat) (a : addr) (c : t_exec_cmd)
    (return_code : Z) : option (list event * t_exec_cmd) :=
  shown ←
    match hsignal c with
    | Some signal =>
        if weechat_hashtable_new w then
          Some [weechat_hook_hsignal_send signal (exec_end_hashtable w c)]
        else Some []
    | None =>
        let ptr_buffer := weechat_buffer_search w "==" (buffer_full_name c) in
        o ← exec_display_output w c ptr_buffer true;
        e ← exec_display_output w c ptr_buffer false;
        Some (o ++ e ++ exec_end_rc w c ptr_buffer return_code)
    end;
  Some (shown ++ exec_end_timer w a, set_end (time_now w) return_code c).

(** ** exec_process_cb *)

(** The message displayed when the debug level of the plugin is 2 or
    more. *)
Definition exec_process_debug (w : t_weechat) (c : t_exec_cmd)
    (return_code : Z) (chunk_out chunk_err : option string) : list event :=
  if bool_decide (debug w >= 2) then
    [weechat_printf None
       ("%s: process_cb: command=" +:+ String DQUOTE "%s"
        +:+ String DQUOTE ", rc=%d, out: %d bytes, err: %d bytes")
       [arg_str (Some (EXEC_PLUGIN_NAME w)); arg_str (command c);
        arg_int return_code;
        arg_int (from_option strlen 0 chunk_out);
        arg_int (from_option strlen 0 chunk_err)]]
  else [].

(** The two calls to [exec_concat_output] of [exec_process_cb], for the
    chunks [out] and [err] that are not [NULL]. *)
Definition exec_process_concat (w : t_weechat)
    (chunk_out chunk_err : option string) (c : t_exec_cmd) : t_exec_cmd :=
  let c1 :=
    match chunk_out with
    | Some text => set_out (exec_concat_output w (out_size c) (out c) text) c
    | None => c
    end in
  match chunk_err with
  | Some text => set_err (exec_concat_output w (err_size c1) (err c1) text) c1
  | None => c1
  end.

(** [exec_process_cb (data, command, return_code, out, err)] *)
Definition exec_process_cb (w : t_weechat) (data : option addr)
    (cmd : option string) (return_code : Z)
    (chunk_out chunk_err : option string) (s : t_exec)
    : option (t_rc * list event * t_exec) :=
  match data with
  | None => Some (WEECHAT_RC_ERROR, [], s)
  | Some a =>
      c ← heap s !! a;
      let dbg := exec_process_debug w c return_code chunk_out chunk_err in
      if bool_decide (return_code = WEECHAT_HOOK_PROCESS_ERROR w) then
        r ← exec_end_command w a c (-1);
        Some (WEECHAT_RC_OK, dbg ++ r.1,
              mk_exec (<[a := r.2]> (heap s)) (exec_cmds s)
                (last_exec_cmd s) (exec_cmds_count s))
      else
        let c2 := exec_process_concat w chunk_out chunk_err c in
        if bool_decide (return_code >= 0) then
          r ← exec_end_command w a c2 return_code;
          Some (WEECHAT_RC_OK, dbg ++ r.1,
                mk_exec (<[a := r.2]> (heap s)) (exec_cmds s)
                  (last_exec_cmd s) (exec_cmds_count s))
        else
          Some (WEECHAT_RC_OK, dbg,
                mk_exec (<[a := c2]> (heap s)) (exec_cmds s)
                  (last_exec_cmd s) (exec_cmds_count s))
  end.


(** ** The list of executed commands *)

(** The node before position [i] of [l]. *)
Definition lookup_prev (l : list addr) (i : nat) : option addr :=
  match i with
  | O => None
  | S j => l !! j
  end.

(** [registry s l]: the allocated structures of [s] are the nodes of [l],
    linked in both directions in the order of [l], from [exec_cmds] to
    [last_exec_cmd]. *)
Record registry (s : t_exec) (l : list addr) : Prop := mk_registry {
  reg_nodup : NoDup l;
  reg_first : exec_cmds s = l !! O;
  reg_last : last_exec_cmd s = lookup_prev l (length l);
  reg_dom : ∀ a, is_Some (heap s !! a) ↔ a ∈ l;
  reg_links : ∀ i a, l !! i = Some a →
    ∃ c, heap s !! a = Some c ∧ prev_cmd c = lookup_prev l i
         ∧ next_cmd c = l !! S i
}.

(** What [first_cmd] computes on a list of nodes. *)
Fixpoint first_in (h : gmap addr t_exec_cmd)
    (test : addr → t_exec_cmd → option bool) (l : list addr)
    : option (option addr) :=
  match l with
  | [] => Some None
  | a :: l' =>
      c ← h !! a;
      b ← test a c;
      if b : bool then Some (Some a) else first_in h test l'
  end.

(** Mutual consistency of the two global pointers and of the links of the
    nodes. *)
Definition links_consistent (s : t_exec) : Prop :=
  (exec_cmds s = None ↔ last_exec_cmd s = None)
  ∧ (∀ a c, heap s !! a = Some c →
       match next_cmd c with
       | Some b => ∃ cb, heap s !! b = Some cb ∧ prev_cmd cb = Some a
       | None => last_exec_cmd s = Some a
       end
       ∧ match prev_cmd c with
         | Some b => ∃ cb, heap s !! b = Some cb ∧ next_cmd cb = Some a
         | None => exec_cmds s = Some a
         end).

(** An indeterminate block, as [malloc] may return it. *)
Definition blank : t_exec_cmd :=
  mk_exec_cmd 7 None None None 0 false 0 0 false None false false 9 0 None 0
    None 0 None None (Some 5%positive) None.

(** Three creations, the removal of the second command, two creations. *)
Definition ops_reuse : list t_op :=
  [op_add 10 (Some (1%positive, blank));
   op_add 11 (Some (2%positive, blank));
   op_add 12 (Some (3%positive, blank));
   op_free (Some 2%positive);
   op_add 13 (Some (2%positive, blank));
   op_add 14 (Some (4%positive, blank))].

(** The state after [ops_reuse]. *)
Definition state_reuse : t_exec :=
  default exec_init (exec_ops exec_init ops_reuse).

(** The number of the command at [a]. *)
Definition number_at (s : t_exec) (a : addr) : Z :=
  from_option number 0 (heap s !! a).

(** What the loop of [exec_add] finds on the numbers of the commands in
    list order: after a command of number [prev], the first number that is
    greater than its predecessor's plus one gives the predecessor's plus
    one. *)
Fixpoint first_gap (prev : Z) (ns : list Z) : option Z :=
  match ns with
  | [] => None
  | n :: ns' =>
      if bool_decide (n > int_add prev 1) then Some (int_add prev 1)
      else first_gap n ns'
  end.

(** The number [exec_add] gives when the commands of the list have the
    numbers [ns]. *)
Definition next_number (ns : list Z) : Z :=
  match ns with
  | [] => 0
  | n0 :: ns' => default (int_add (List.last ns 0) 1) (first_gap n0 ns')
  end.

(** A creation, the removal of the first command, a creation. *)
Definition ops_first_freed : list t_op :=
  [op_add 10 (Some (1%positive, blank));
   op_add 11 (Some (2%positive, blank));
   op_free (Some 1%positive);
   op_add 12 (Some (3%positive, blank))].

(** ** Lookup on the list *)

(** The test of [exec_search_by_id] on the command at [a]. *)
Definition exec_search_match (id : string) (s : t_exec) (a : addr) : bool :=
  from_option (exec_search_test id (exec_search_number id)) false
    (heap s !! a).

(** The command at [a] has the number [n] or the name [id]. *)
Definition number_or_name (n : Z) (id : string) (s : t_exec) (a : addr)
    : bool :=
  from_option
    (λ c, bool_decide (number c = n) || bool_decide (name c = Some id))
    false (heap s !! a).

(** The assignment [exec_cmd->name = name] that the callers of [exec_add]
    make once the command is created. *)
Definition set_name (a : addr) (new_name : option string) (s : t_exec)
    : t_exec :=
  let set c :=
    mk_exec_cmd (number c) new_name (hook c) (command c) (pid c)
      (detached c) (start_time c) (end_time c) (output_to_buffer c)
      (buffer_full_name c) (line_numbers c) (display_rc c) (color c)
      (out_size c) (out c) (err_size c) (err c) (return_code c)
      (pipe_command c) (hsignal c) (prev_cmd c) (next_cmd c) in
  mk_exec (alter set a (heap s)) (exec_cmds s) (last_exec_cmd s)
    (exec_cmds_count s).

(** Two commands, of numbers 0 and 1; the first one is named ["1"]. *)
Definition state_named : t_exec :=
  set_name 1%positive (Some "1")
    (default exec_init
       (exec_ops exec_init
          [op_add 10 (Some (1%positive, blank));
           op_add 11 (Some (2%positive, blank))])).

(** The claim on the precedence of the number: in the state [s], looking
    for a string that [strtol] reads as the non-negative integer of a
    command gives that command. *)
Definition search_prefers_number (s : t_exec) (id : string) : Prop :=
  ∀ a c, heap s !! a = Some c →
    0 ≤ exec_search_number id → number c = exec_search_number id →
    exec_search_by_id id s = Some (Some a).

(** ** Lines of an output *)

(** The fragments of a text between its line feeds. *)
Fixpoint split_lf (s : string) : list string :=
  match s with
  | EmptyString => [EmptyString]
  | String c s' =>
      if bool_decide (c = LF) then EmptyString :: split_lf s'
      else
        match split_lf s' with
        | x :: r => String c x :: r
        | [] => [String c EmptyString]
        end
  end.

(** The lines of a text: its fragments, without the last one when it is
    empty. *)
Definition output_lines (s : string) : list string :=
  let fragments := split_lf s in
  if bool_decide (last fragments = Some EmptyString)
  then removelast fragments else fragments.

(** The host answers every request: memory is available, the modifiers and
    the replacement of a substring give a string. *)
Definition host_serves (w : t_weechat) : Prop :=
  (∀ n, can_alloc w n = true)
  ∧ (∀ modifier data str,
       is_Some (weechat_hook_modifier_exec w modifier data str))
  ∧ (∀ str search replace,
       is_Some (weechat_string_replace w str search replace)).

(** A line after [exec_decode_color]. *)
Definition decoded (w : t_weechat) (c : t_exec_cmd) (line : string)
    : string :=
  default line (exec_decode_color w c (Some line)).

(** The calls for a list of lines, numbered from [line_nb]. *)
Fixpoint exec_display_lines (w : t_weechat) (c : t_exec_cmd)
    (buffer : option t_gui_buffer) (is_out : bool) (line_nb : Z)
    (lines : list string) : list event :=
  match lines with
  | [] => []
  | line :: rest =>
      exec_display_line w c buffer is_out line_nb (decoded w c line)
      ++ exec_display_lines w c buffer is_out (int_add line_nb 1) rest
  end.

(** The text ["line1\nline2"]. *)
Definition two_lines : string := "line1" +:+ String LF "line2".

(** The text ["line1\nline2\n"]. *)
Definition two_lines_lf : string := two_lines +:+ String LF "".

(** A host that answers every request, with purge delay of one second;
    the modifiers leave the text as it is. *)
Definition host_demo : t_weechat :=
  mk_weechat (-2) "exec" 0 1 1000 (λ _ _, None) (λ _ _ str, Some str)
    (λ str _ _, Some str) true (λ _, true).

(** A command that has ended, with two lines on its standard output; line
    numbers and the return code are displayed. *)
Definition cmd_demo : t_exec_cmd :=
  mk_exec_cmd 0 None None (Some "ls") 0 false 0 0 false None true true
    EXEC_COLOR_ANSI (strlen two_lines_lf) (Some two_lines_lf) 0 None (-1)
    None None None None.

(** ** End of a command *)

(** A request for a timer. *)
Definition is_timer (e : event) : bool :=
  match e with
  | weechat_hook_timer _ _ _ _ => true
  | _ => false
  end.

(** A call that displays or exports the output of a command, or its
    return code. *)
Definition is_output (e : event) : bool :=
  match e with
  | weechat_printf_tags _ _ _ _ | weechat_command _ _
  | weechat_hook_hsignal_send _ _ => true
  | _ => false
  end.

(** A return code that ends the command: the error code of the process
    hook, or the return code of the child. *)
Definition terminal (w : t_weechat) (return_code : Z) : Prop :=
  return_code = WEECHAT_HOOK_PROCESS_ERROR w ∨ 0 ≤ return_code.

(** The return code that [exec_process_cb] passes to [exec_end_command]. *)
Definition end_code (w : t_weechat) (return_code : Z) : Z :=
  if bool_decide (return_code = WEECHAT_HOOK_PROCESS_ERROR w) then -1
  else return_code.

(** The structure that [exec_process_cb] passes to [exec_end_command]. *)
Definition end_input (w : t_weechat) (return_code : Z)
    (chunk_out chunk_err : option string) (c : t_exec_cmd) : t_exec_cmd :=
  if bool_decide (return_code = WEECHAT_HOOK_PROCESS_ERROR w) then c
  else exec_process_concat w chunk_out chunk_err c.

(** A command that is running: no output yet, the return code of
    [exec_add]. *)
Definition cmd_running : t_exec_cmd :=
  mk_exec_cmd 0 None (Some 7%positive) (Some "ls") 4242 false 990 0 false
    None true true EXEC_COLOR_ANSI 0 None 0 None (-1) None None None None.

(** The list with this command only. *)
Definition state_running : t_exec :=
  mk_exec {[1%positive := cmd_running]} (Some 1%positive) (Some 1%positive)
    1.

(** The list after one [exec_add]. *)
Definition state_added : t_exec :=
  default exec_init
    (snd <$> exec_add 10 (Some (1%positive, blank)) exec_init).


(** The claim on the return code stored after an error: negative, and not
    the return code the command had before. *)
Definition error_code_reserved (w : t_weechat) (s : t_exec) (a : addr)
    : Prop :=
  ∀ c r evs s' c',
    heap s !! a = Some c →
    exec_process_cb w (Some a) None (WEECHAT_HOOK_PROCESS_ERROR w) None None s
    = Some (r, evs, s') →
    heap s' !! a = Some c' →
    return_code c' < 0 ∧ return_code c' ≠ return_code c.

(** The claim on the delay of the timer: [max (1, 1000 * delay)]
    milliseconds for a delay that is not negative, no timer otherwise. *)
Definition purge_timer_max (w : t_weechat) (a : addr) (c : t_exec_cmd)
    (return_code : Z) : Prop :=
  ∀ evs c', exec_end_command w a c return_code = Some (evs, c') →
    (0 ≤ exec_config_command_purge_delay w →
     List.filter is_timer evs
     = [weechat_hook_timer
          (Z.max 1 (exec_config_command_purge_delay w * 1000)) 0 1 (Some a)])
    ∧ (exec_config_command_purge_delay w < 0 →
       List.filter is_timer evs = []).

(** ** exec_free_all *)

(** [while (exec_cmds) exec_free (exec_cmds);] *)
Fixpoint exec_free_loop (fuel : nat) (s : t_exec)
    : option (list event * t_exec) :=
  match exec_cmds s with
  | None => Some ([], s)
  | Some a =>
      match fuel with
      | O => None
      | S fuel' =>
          r ← exec_free (Some a) s;
          r' ← exec_free_loop fuel' r.2;
          Some (r.1 ++ r'.1, r'.2)
      end
  end.

(** [exec_free_all ()], that [weechat_plugin_end] calls. *)
Definition exec_free_all (s : t_exec) : option (list event * t_exec) :=
  exec_free_loop (size (heap s)) s.

(** What [exec_free] asks the host for a command: to remove its hook when
    it has one. *)
Definition unhook_events (c : t_exec_cmd) : list event :=
  match hook c with
  | Some k => [weechat_unhook k]
  | None => []
  end.

(** A structure without its two links: the data of the command. *)
Definition cmd_data (c : t_exec_cmd) : t_exec_cmd :=
  set_prev_cmd None (set_next_cmd None c).

(** ** Accumulated output *)

(** The sizes of the two streams are the lengths of their texts, 0 for a
    stream that is [NULL]. *)
Definition streams_ok (c : t_exec_cmd) : Prop :=
  out_size c = strlen (default "" (out c))
  ∧ err_size c = strlen (default "" (err c)).

(** A stream after a chunk: the chunk at the end of the text, the stream
    as it is when no chunk is given. *)
Definition append_chunk (output chunk : option string) : option string :=
  match chunk with
  | None => output
  | Some text => Some (default "" output +:+ text)
  end.

(** What [exec_display_output] displays for a stream when the host
    answers every request: the lines of its text, numbered from 1. *)
Definition display_stream (w : t_weechat) (c : t_exec_cmd)
    (buffer : option t_gui_buffer) (is_out : bool) (output : option string)
    : list event :=
  from_option
    (λ text, exec_display_lines w c buffer is_out 1 (output_lines text))
    [] output.

(** ** Numbers in use *)

(** [n] is the smallest number that is not negative and not in [ns]. *)
Definition least_unused (ns : list Z) (n : Z) : Prop :=
  (0 ≤ n) ∧ (n ∉ ns) ∧ ∀ m, 0 ≤ m < n → m ∈ ns.

(** The numbers [ns] grow along the list, from more than [prev]. *)
Fixpoint increasing (prev : Z) (ns : list Z) : Prop :=
  match ns with
  | [] => True
  | n :: rest => prev < n ∧ increasing n rest
  end.

(** ** exec_search_color *)

(** [exec_color_string], the names of the color actions. *)
Definition exec_color_string : list string := ["ansi"; "decode"; "strip"].

(** The loop of [exec_search_color], from the index [i] and the names from
    this index on.  [weechat_strcasecmp] is the comparison of the host. *)
Fixpoint exec_search_color_from (weechat_strcasecmp : string → string → Z)
    (color : string) (i : Z) (names : list string) : Z :=
  match names with
  | [] => -1
  | color_name :: rest =>
      if bool_decide (weechat_strcasecmp color_name color = 0) then i
      else exec_search_color_from weechat_strcasecmp color (int_add i 1) rest
  end.

(** [exec_search_color (color)] *)
Definition exec_search_color (weechat_strcasecmp : string → string → Z)
    (color : option string) : Z :=
  match color with
  | None => -1
  | Some name => exec_search_color_from weechat_strcasecmp name 0
                   exec_color_string
  end.

(** A comparison that tells equal strings only. *)
Definition strcmp_exact (s1 s2 : string) : Z :=
  if bool_decide (s1 = s2) then 0 else 1.

(** A command whose output goes to a buffer, with line numbers. *)
Definition cmd_to_buffer : t_exec_cmd :=
  mk_exec_cmd 3 (Some "build") None (Some "make") 0 false 990 0 true
    (Some "irc.libera.#chan") true true EXEC_COLOR_ANSI
    (strlen two_lines_lf) (Some two_lines_lf) 0 None (-1) None None None
    None.

(** A command whose output is sent with a hsignal. *)
Definition cmd_hsignal : t_exec_cmd :=
  mk_exec_cmd 4 None None (Some "date") 0 false 990 0 false None false true
    EXEC_COLOR_ANSI (strlen two_lines_lf) (Some two_lines_lf) 0 None (-1)
    None (Some "exec_done") None None.

(** A command whose output is piped to a command of the buffer. *)
Definition cmd_pipe : t_exec_cmd :=
  mk_exec_cmd 5 None None (Some "uname") 0 false 990 0 false None false true
    EXEC_COLOR_ANSI 0 None 0 None (-1) (Some "/say") None None None.

(** ** Numbered lines *)

(** The call [e] shows [line] with the number [n]: the command
    ["n. line"] of the display in a buffer, or the printed line with the
    prefix ["n\t"]. *)
Definition numbered_with (n : Z) (line : string) (e : event) : Prop :=
  (∃ buffer, e = weechat_command buffer (string_of_int n +:+ ". " +:+ line))
  ∨ (∃ buffer tags,
       e = weechat_printf_tags buffer tags "%s%s"
             [arg_str (Some (string_of_int n +:+ String TAB ""));
              arg_str (Some line)]).

(** The claim on the numbers of the lines: with line numbers enabled, the
    display of the text ["line1\nline2\n"] makes two calls, which show the
    two lines with the numbers 1 and 2. *)
Definition two_lines_numbered (w : t_weechat) (c : t_exec_cmd)
    (buffer : option t_gui_buffer) (is_out : bool) : Prop :=
  (if is_out then out c else err c) = Some two_lines_lf →
  line_numbers c = true →
  ∃ e1 e2,
    exec_display_output w c buffer is_out = Some [e1; e2]
    ∧ numbered_with 1 (decoded w c "line1") e1
    ∧ numbered_with 2 (decoded w c "line2") e2.

(** A command with line numbers enabled whose output, two lines, is piped
    to the command ["/say"] of the buffer. *)
Definition cmd_pipe_numbered : t_exec_cmd :=
  mk_exec_cmd 6 None None (Some "ls") 0 false 990 0 false None true true
    EXEC_COLOR_ANSI (strlen two_lines_lf) (Some two_lines_lf) 0 None (-1)
    (Some "/say") None None None.

(** * Properties *)

Section Registry.
Local Open Scope nat_scope.

Implicit Types (s : t_exec) (l : list addr) (h : gmap addr t_exec_cmd).

Lemma lookup_prev_app_l l l' i :
  i ≤ length l → lookup_prev (l ++ l') i = lookup_prev l i.
Proof.
  destruct i as [|j]; simpl; [done|].
  intros Hj. apply lookup_app_l. lia.
Qed.

Lemma lookup_prev_last l : lookup_prev l (length l) = last l.
Proof.
  rewrite last_lookup. destruct l; reflexivity.
Qed.

Lemma registry_size s l : registry s l → size (heap s) = length l.
Proof.
  intros R. rewrite <- size_dom.
  assert (dom (heap s) = list_to_set l) as ->.
  { apply set_eq. intros a.
    rewrite elem_of_dom, elem_of_list_to_set. apply (reg_dom _ _ R). }
  apply size_list_to_set, (reg_nodup _ _ R).
Qed.

Lemma registry_index s l i j a :
  registry s l → l !! i = Some a → l !! j = Some a → i = j.
Proof. intros R. apply NoDup_lookup, (reg_nodup _ _ R). Qed.

(** The loops over the list, on the nodes in order. *)
Lemma first_cmd_registry h test l fuel k :
  (∀ i a, l !! i = Some a →
     ∃ c, h !! a = Some c ∧ next_cmd c = l !! S i) →
  length l ≤ fuel + k →
  first_cmd fuel h test (l !! k) = first_in h test (drop k l).
Proof.
  intros Hl. revert k. induction fuel as [|fuel IH]; intros k Hk.
  - rewrite (lookup_ge_None_2 l k) by lia.
    rewrite drop_ge by lia. reflexivity.
  - destruct (l !! k) as [a|] eqn:Ha.
    + rewrite (drop_S _ _ _ Ha). simpl.
      destruct (Hl _ _ Ha) as (c & Hc & Hn). rewrite Hc. simpl.
      destruct (test a c) as [[|]|]; simpl; try reflexivity.
      rewrite Hn. apply IH. lia.
    + apply lookup_ge_None_1 in Ha. rewrite drop_ge by lia. reflexivity.
Qed.

Lemma traverse_next h l fuel k :
  (∀ i a, l !! i = Some a →
     ∃ c, h !! a = Some c ∧ next_cmd c = l !! S i) →
  length l ≤ fuel + k →
  traverse fuel h next_cmd (l !! k) = Some (drop k l).
Proof.
  intros Hl. revert k. induction fuel as [|fuel IH]; intros k Hk.
  - rewrite (lookup_ge_None_2 l k) by lia.
    rewrite drop_ge by lia. reflexivity.
  - destruct (l !! k) as [a|] eqn:Ha.
    + rewrite (drop_S _ _ _ Ha). simpl.
      destruct (Hl _ _ Ha) as (c & Hc & Hn). rewrite Hc. simpl.
      rewrite Hn, IH by lia. reflexivity.
    + apply lookup_ge_None_1 in Ha. rewrite drop_ge by lia. reflexivity.
Qed.

Lemma traverse_prev h l fuel k :
  (∀ i a, l !! i = Some a →
     ∃ c, h !! a = Some c ∧ prev_cmd c = lookup_prev l i) →
  k ≤ length l → k ≤ fuel →
  traverse fuel h prev_cmd (lookup_prev l k) = Some (rev (take k l)).
Proof.
  intros Hl. revert fuel. induction k as [|k IH]; intros fuel Hk Hf.
  - destruct fuel; reflexivity.
  - destruct fuel as [|fuel]; [lia|].
    destruct (lookup_lt_is_Some_2 l k) as [a Ha]; [lia|].
    simpl. rewrite Ha. destruct (Hl _ _ Ha) as (c & Hc & Hp).
    rewrite Hc. simpl. rewrite Hp, IH by lia. simpl.
    rewrite (take_S_r _ _ _ Ha), rev_app_distr. reflexivity.
Qed.

Lemma registry_forward s l : registry s l → forward s = Some l.
Proof.
  intros R. unfold forward.
  rewrite (reg_first _ _ R), (registry_size _ _ R).
  rewrite (traverse_next _ l (length l) 0); [done| |lia].
  intros i a Ha. destruct (reg_links _ _ R _ _ Ha) as (c & ? & ? & ?); eauto.
Qed.

Lemma registry_backward s l : registry s l → backward s = Some (rev l).
Proof.
  intros R. unfold backward.
  rewrite (reg_last _ _ R), (registry_size _ _ R).
  rewrite (traverse_prev _ l (length l) (length l)); [|  |lia|lia].
  - by rewrite firstn_all.
  - intros i a Ha.
    destruct (reg_links _ _ R _ _ Ha) as (c & ? & ? & ?); eauto.
Qed.

Lemma registry_links_consistent s l : registry s l → links_consistent s.
Proof.
  intros R. split.
  - rewrite (reg_first _ _ R), (reg_last _ _ R).
    destruct l as [|a l]; simpl; [done|].
    split; [done|]. intros Hn. apply lookup_ge_None_1 in Hn. simpl in Hn. lia.
  - intros a c Hc.
    assert (a ∈ l) as Hin by (apply (reg_dom _ _ R); eauto).
    apply list_elem_of_lookup in Hin as [i Hi].
    destruct (reg_links _ _ R _ _ Hi) as (c' & Hc' & Hp & Hn).
    assert (c' = c) as -> by congruence. split.
    + rewrite Hn. destruct (l !! S i) as [b|] eqn:Hb.
      * destruct (reg_links _ _ R _ _ Hb) as (cb & ? & Hpb & _).
        exists cb. split; [done|]. by rewrite Hpb.
      * rewrite (reg_last _ _ R). apply lookup_ge_None_1 in Hb.
        pose proof (lookup_lt_Some _ _ _ Hi).
        replace (length l) with (S i) by lia. done.
    + rewrite Hp. destruct i as [|j]; simpl.
      * by rewrite (reg_first _ _ R).
      * destruct (l !! j) as [b|] eqn:Hb.
        -- destruct (reg_links _ _ R _ _ Hb) as (cb & ? & _ & Hnb).
           exists cb. split; [done|]. by rewrite Hnb.
        -- apply lookup_ge_None_1 in Hb.
           pose proof (lookup_lt_Some _ _ _ Hi). lia.
Qed.

Lemma registry_init : registry exec_init [].
Proof.
  split; simpl; try done.
  - constructor.
  - intros a. rewrite lookup_empty. split; [by intros [? ?]|].
    intros Ha. by apply elem_of_nil in Ha.
Qed.

End Registry.

Section RegistryAdd.
Local Open Scope nat_scope.

Implicit Types (s : t_exec) (l : list addr) (h : gmap addr t_exec_cmd).

Lemma registry_lookup s l a c :
  registry s l → heap s !! a = Some c →
  ∃ i, l !! i = Some a ∧ prev_cmd c = lookup_prev l i
       ∧ next_cmd c = l !! S i.
Proof.
  intros R Hc.
  assert (a ∈ l) as Hin by (apply (reg_dom _ _ R); eauto).
  apply list_elem_of_lookup in Hin as [i Hi]. exists i. split; [done|].
  destruct (reg_links _ _ R _ _ Hi) as (c' & Hc' & Hp & Hn).
  by assert (c' = c) as -> by congruence.
Qed.

Lemma registry_live s l i a :
  registry s l → l !! i = Some a → is_Some (heap s !! a).
Proof.
  intros R Hi. destruct (reg_links _ _ R _ _ Hi) as (c & Hc & _). eauto.
Qed.

Lemma lookup_prev_live s l i p :
  registry s l → lookup_prev l i = Some p → is_Some (heap s !! p).
Proof.
  intros R. destruct i as [|j]; simpl; [done|]. apply (registry_live _ _ _ _ R).
Qed.

Lemma exec_add_gap_defined s l a c :
  registry s l → heap s !! a = Some c →
  ∃ b, exec_add_gap (heap s) a c = Some b
       ∧ (b = true → ∃ p cp, prev_cmd c = Some p ∧ heap s !! p = Some cp).
Proof.
  intros R Hc. destruct (registry_lookup _ _ _ _ R Hc) as (i & Hi & Hp & _).
  unfold exec_add_gap. destruct (prev_cmd c) as [p|] eqn:Hpc.
  - symmetry in Hp. destruct (lookup_prev_live _ _ _ _ R Hp) as [cp Hcp].
    rewrite Hcp. simpl. eexists. split; [done|]. eauto.
  - exists false. split; [done|]. discriminate.
Qed.

Lemma first_in_gap s l l' :
  registry s l → (∀ a, a ∈ l' → a ∈ l) →
  ∃ r, first_in (heap s) (exec_add_gap (heap s)) l' = Some r
       ∧ ∀ x, r = Some x →
           ∃ c p cp, heap s !! x = Some c ∧ prev_cmd c = Some p
                     ∧ heap s !! p = Some cp.
Proof.
  intros R. induction l' as [|a l' IH]; intros Hsub.
  - exists None. split; [done|]. discriminate.
  - assert (is_Some (heap s !! a)) as [c Hc].
    { apply (reg_dom _ _ R), Hsub. left. }
    destruct (exec_add_gap_defined _ _ _ _ R Hc) as (b & Hb & Hbt).
    simpl. rewrite Hc. simpl. rewrite Hb. simpl. destruct b.
    + exists (Some a). split; [done|]. intros x [= <-].
      destruct Hbt as (p & cp & ? & ?); [done|]. eauto 6.
    + apply IH. intros x Hx. apply Hsub. by right.
Qed.

Lemma exec_add_number_defined s l :
  registry s l → is_Some (exec_add_number s).
Proof.
  intros R. unfold exec_add_number.
  assert (∃ n : Z,
    match last_exec_cmd s with
    | Some x => heap s !! x ≫= λ cl, Some (int_add (number cl) 1)
    | None => Some 0%Z
    end = Some n) as [n ->].
  { destruct (last_exec_cmd s) as [x|] eqn:Hx; [|eauto].
    rewrite (reg_last _ _ R) in Hx.
    destruct (lookup_prev_live _ _ _ _ R Hx) as [cl ->]. simpl. eauto. }
  simpl. rewrite (reg_first _ _ R), (registry_size _ _ R).
  rewrite (first_cmd_registry _ _ l (length l) 0); [| |lia].
  - rewrite drop_0.
    destruct (first_in_gap s l l R) as (r & -> & Hr); [done|]. simpl.
    destruct r as [x|]; [|eauto].
    destruct (Hr x) as (c & p & cp & Hc & Hp & Hcp); [done|].
    rewrite Hc. simpl. rewrite Hp. simpl. rewrite Hcp. simpl. eauto.
  - intros i a Ha.
    destruct (reg_links _ _ R _ _ Ha) as (c & ? & ? & ?); eauto.
Qed.

Lemma exec_add_fail now s l :
  registry s l → exec_add now None s = Some (None, s).
Proof.
  intros R. unfold exec_add.
  destruct (exec_add_number_defined _ _ R) as [n ->]. reflexivity.
Qed.

Lemma exec_add_registry now a garbage s l :
  registry s l → heap s !! a = None →
  ∃ s', exec_add now (Some (a, garbage)) s = Some (Some a, s')
        ∧ registry s' (l ++ [a]).
Proof.
  intros R Hfresh. unfold exec_add.
  destruct (exec_add_number_defined _ _ R) as [n ->]. simpl.
  assert (a ∉ l) as Hnotin.
  { intros Hin. apply (reg_dom _ _ R) in Hin as [? ?]. congruence. }
  destruct l as [|f l0] using rev_ind.
  - (* empty list *)
    rewrite (reg_first _ _ R), (reg_last _ _ R). simpl.
    eexists. split; [reflexivity|]. split; simpl.
    + apply NoDup_singleton.
    + done.
    + done.
    + intros x. rewrite list_elem_of_singleton.
      destruct (decide (x = a)) as [->|Hne].
      * rewrite lookup_insert_eq. split; eauto.
      * rewrite lookup_insert_ne by done. rewrite (reg_dom _ _ R).
        split; [|done]. intros Hx. by apply elem_of_nil in Hx.
    + intros [|i] x Hx; simpl in Hx; [|done]. injection Hx as <-.
      rewrite lookup_insert_eq. eexists. split; [done|]. done.
  - (* the list ends with [f] *)
    clear IHl0.
    assert ((l0 ++ [f]) !! length l0 = Some f) as Hf.
    { by rewrite list_lookup_middle. }
    assert (last_exec_cmd s = Some f) as Hlast.
    { rewrite (reg_last _ _ R), length_app. simpl.
      by replace (length l0 + 1) with (S (length l0)) by lia. }
    assert (∃ g, exec_cmds s = Some g) as [g Hfirst].
    { rewrite (reg_first _ _ R). apply lookup_lt_is_Some_2.
      rewrite length_app. simpl. lia. }
    destruct (reg_links _ _ R _ _ Hf) as (cl & Hcl & Hpl & Hnl).
    rewrite Hfirst, Hlast, Hcl. simpl.
    eexists. split; [reflexivity|].
    assert (f ≠ a) as Hfa.
    { intros ->. apply Hnotin. apply list_elem_of_lookup. eauto. }
    split; simpl.
    + apply NoDup_app. split; [apply (reg_nodup _ _ R)|]. split.
      * intros x Hx Hx'. apply list_elem_of_singleton in Hx' as ->. done.
      * apply NoDup_singleton.
    + rewrite <- Hfirst, (reg_first _ _ R). symmetry. apply lookup_app_l.
      rewrite length_app. simpl. lia.
    + rewrite length_app. simpl.
      replace (length (l0 ++ [f]) + 1) with (S (length (l0 ++ [f]))) by lia.
      simpl. by rewrite list_lookup_middle.
    + intros x. rewrite elem_of_app, list_elem_of_singleton.
      destruct (decide (x = a)) as [->|Hne].
      * rewrite lookup_insert_eq. split; eauto.
      * rewrite lookup_insert_ne by done.
        destruct (decide (x = f)) as [->|Hne'].
        -- rewrite lookup_insert_eq. split; [|eauto]. intros _. left.
           apply list_elem_of_lookup. eauto.
        -- rewrite lookup_insert_ne by done. rewrite (reg_dom _ _ R).
           split; [tauto|]. intros [?|?]; done.
    + intros i x Hx.
      destruct (decide (i < length (l0 ++ [f]))) as [Hi|Hi].
      * rewrite lookup_app_l in Hx by done.
        assert (x ≠ a) as Hxa.
        { intros ->. apply Hnotin. apply list_elem_of_lookup. eauto. }
        rewrite lookup_insert_ne by done.
        rewrite lookup_prev_app_l by lia.
        destruct (reg_links _ _ R _ _ Hx) as (c & Hc & Hp & Hn).
        destruct (decide (x = f)) as [->|Hxf].
        -- assert (i = length l0) as -> by (eapply registry_index; eauto).
           rewrite lookup_insert_eq. eexists. split; [done|].
           assert (c = cl) as -> by congruence. simpl. split; [done|].
           rewrite lookup_app_r; rewrite length_app; simpl; [|lia].
           by replace (S (length l0) - (length l0 + 1)) with 0 by lia.
        -- rewrite lookup_insert_ne by done. exists c. split; [done|].
           split; [done|]. rewrite Hn. symmetry.
           assert (S i ≠ length (l0 ++ [f])) as Hne.
           { intros Heq. apply Hxf.
             rewrite length_app in Heq. simpl in Heq.
             assert (i = length l0) as -> by lia. congruence. }
           apply lookup_app_l. lia.
      * pose proof (lookup_lt_Some _ _ _ Hx) as Hlt.
        rewrite length_app in Hlt. simpl in Hlt.
        assert (i = length (l0 ++ [f])) as -> by lia.
        rewrite list_lookup_middle in Hx by done. injection Hx as <-.
        rewrite lookup_insert_eq. eexists. split; [done|]. simpl. split.
        -- rewrite lookup_prev_app_l by lia. rewrite <- Hlast.
           apply (reg_last _ _ R).
        -- symmetry. apply lookup_ge_None_2. rewrite length_app. simpl. lia.
Qed.

End RegistryAdd.

Section RegistryFree.
Local Open Scope nat_scope.

Implicit Types (s : t_exec) (l : list addr) (h : gmap addr t_exec_cmd).

(** [exec_free], first assignment: the node before position [k] gets the
    link to the next node of the freed one. *)
Lemma exec_free_unlink_prev s l k a c :
  registry s l → l !! k = Some a → heap s !! a = Some c →
  ∃ h1,
    match prev_cmd c with
    | None => Some (heap s)
    | Some p =>
        heap s !! p ≫= λ cp,
          Some (<[p := set_next_cmd (next_cmd c) cp]> (heap s))
    end = Some h1
    ∧ (∀ i x, l !! i = Some x →
         ∃ cx, heap s !! x = Some cx
               ∧ h1 !! x = Some (if decide (S i = k)
                                 then set_next_cmd (next_cmd c) cx else cx))
    ∧ ∀ x, is_Some (h1 !! x) ↔ is_Some (heap s !! x).
Proof.
  intros R Hk Hc.
  destruct (registry_lookup _ _ _ _ R Hc) as (k' & Hk' & Hp & _).
  assert (k' = k) as -> by (eapply registry_index; eauto).
  destruct (prev_cmd c) as [p|] eqn:Hpc.
  - symmetry in Hp. destruct k as [|j]; [done|]. simpl in Hp.
    destruct (reg_links _ _ R _ _ Hp) as (cp & Hcp & _).
    rewrite Hcp. simpl. eexists. split; [done|]. split.
    + intros i x Hx. destruct (reg_links _ _ R _ _ Hx) as (cx & Hcx & _).
      exists cx. split; [done|].
      destruct (decide (S i = S j)) as [Heq|Hne].
      * injection Heq as ->. assert (x = p) as -> by congruence.
        rewrite lookup_insert_eq. congruence.
      * rewrite lookup_insert_ne; [done|]. intros <-. apply Hne. f_equal.
        eapply registry_index; eauto.
    + intros x. destruct (decide (x = p)) as [->|Hne].
      * rewrite lookup_insert_eq. split; eauto.
      * by rewrite lookup_insert_ne.
  - exists (heap s). split; [done|]. split; [|done].
    intros i x Hx. destruct (reg_links _ _ R _ _ Hx) as (cx & Hcx & _).
    exists cx. split; [done|].
    destruct (decide (S i = k)) as [<-|]; [|done]. simpl in Hp. congruence.
Qed.

(** Second assignment: the node after position [k] gets the link to the
    previous node of the freed one. *)
Lemma exec_free_unlink_next s l k a c h1 :
  registry s l → l !! k = Some a → heap s !! a = Some c →
  (∀ i x, l !! i = Some x →
     ∃ cx, heap s !! x = Some cx
           ∧ h1 !! x = Some (if decide (S i = k)
                             then set_next_cmd (next_cmd c) cx else cx)) →
  (∀ x, is_Some (h1 !! x) ↔ is_Some (heap s !! x)) →
  ∃ h2,
    match next_cmd c with
    | None => Some h1
    | Some n =>
        h1 !! n ≫= λ cn, Some (<[n := set_prev_cmd (prev_cmd c) cn]> h1)
    end = Some h2
    ∧ (∀ i x, l !! i = Some x →
         ∃ cx, heap s !! x = Some cx
               ∧ h2 !! x = Some (if decide (S i = k)
                                 then set_next_cmd (next_cmd c) cx
                                 else if decide (i = S k)
                                 then set_prev_cmd (prev_cmd c) cx else cx))
    ∧ ∀ x, is_Some (h2 !! x) ↔ is_Some (heap s !! x).
Proof.
  intros R Hk Hc Hl1 Hd1.
  destruct (registry_lookup _ _ _ _ R Hc) as (k' & Hk' & _ & Hn).
  assert (k' = k) as -> by (eapply registry_index; eauto).
  destruct (next_cmd c) as [n|] eqn:Hnc.
  - symmetry in Hn.
    destruct (Hl1 _ _ Hn) as (cn & Hcn & Hcn1).
    rewrite decide_False in Hcn1 by lia.
    rewrite Hcn1. simpl. eexists. split; [done|]. split.
    + intros i x Hx. destruct (Hl1 _ _ Hx) as (cx & Hcx & Hcx1).
      exists cx. split; [done|].
      destruct (decide (i = S k)) as [->|Hne].
      * assert (x = n) as -> by congruence.
        rewrite lookup_insert_eq. rewrite decide_False by lia. congruence.
      * rewrite lookup_insert_ne; [done|]. intros <-. apply Hne.
        eapply registry_index; eauto.
    + intros x. rewrite <- Hd1. destruct (decide (x = n)) as [->|Hne].
      * rewrite lookup_insert_eq. split; eauto.
      * by rewrite lookup_insert_ne.
  - exists h1. split; [done|]. split; [|done].
    intros i x Hx. destruct (Hl1 _ _ Hx) as (cx & Hcx & Hcx1).
    exists cx. split; [done|]. rewrite Hcx1.
    destruct (decide (S i = k)); [done|].
    destruct (decide (i = S k)) as [->|]; [|done]. congruence.
Qed.

Lemma lookup_prev_delete_lt l k i :
  i ≤ k → lookup_prev (delete k l) i = lookup_prev l i.
Proof.
  destruct i as [|j]; simpl; [done|]. intros Hj.
  apply list_lookup_delete_lt. lia.
Qed.

Lemma lookup_prev_delete_gt l k i :
  k < i → lookup_prev (delete k l) i = l !! i.
Proof.
  destruct i as [|j]; simpl; [lia|]. intros Hj.
  apply list_lookup_delete_ge. lia.
Qed.

Lemma NoDup_list_delete (l : list addr) k : NoDup l → NoDup (delete k l).
Proof.
  revert k. induction l as [|x l IH]; intros k Hl; [done|].
  apply NoDup_cons in Hl as [Hx Hl]. destruct k as [|k]; simpl; [done|].
  apply NoDup_cons. split; [|by apply IH].
  intros Hin. apply Hx. apply list_elem_of_lookup in Hin as [i Hi].
  apply list_elem_of_lookup.
  destruct (decide (i < k)).
  - exists i. by rewrite list_lookup_delete_lt in Hi.
  - exists (S i). by rewrite list_lookup_delete_ge in Hi by lia.
Qed.

Lemma elem_of_list_delete_index (l : list addr) k a x :
  NoDup l → l !! k = Some a → x ∈ delete k l ↔ x ∈ l ∧ x ≠ a.
Proof.
  intros Hl Hk. rewrite !list_elem_of_lookup. split.
  - intros [i Hi]. destruct (decide (i < k)).
    + rewrite list_lookup_delete_lt in Hi by done. split; [eauto|].
      intros ->. pose proof (NoDup_lookup _ _ _ _ Hl Hi Hk). lia.
    + rewrite list_lookup_delete_ge in Hi by lia. split; [eauto|].
      intros ->. pose proof (NoDup_lookup _ _ _ _ Hl Hi Hk). lia.
  - intros [[i Hi] Hne]. destruct (decide (i < k)).
    + exists i. by rewrite list_lookup_delete_lt.
    + assert (i ≠ k) by (intros ->; congruence).
      exists (i - 1). rewrite list_lookup_delete_ge by lia.
      by replace (S (i - 1)) with i by lia.
Qed.

(** [exec_free] on a command of the list removes it from the list. *)
Lemma exec_free_registry s l k a :
  registry s l → l !! k = Some a →
  ∃ ev s', exec_free (Some a) s = Some (ev, s') ∧ registry s' (delete k l).
Proof.
  intros R Hk. pose proof (reg_nodup _ _ R) as Hnd.
  destruct (reg_links _ _ R _ _ Hk) as (c & Hc & Hp & Hn).
  destruct (exec_free_unlink_prev _ _ _ _ _ R Hk Hc) as (h1 & Hh1 & Hl1 & Hd1).
  destruct (exec_free_unlink_next _ _ _ _ _ _ R Hk Hc Hl1 Hd1)
    as (h2 & Hh2 & Hl2 & Hd2).
  assert (h1 !! a = Some c) as Hc1.
  { destruct (Hl1 _ _ Hk) as (c' & Hc' & ->).
    rewrite decide_False by lia. congruence. }
  assert (h2 !! a = Some c) as Hc2.
  { destruct (Hl2 _ _ Hk) as (c' & Hc' & ->).
    rewrite !decide_False by lia. congruence. }
  pose proof (lookup_lt_Some _ _ _ Hk) as Hlen.
  assert (length (delete k l) = length l - 1) as Hlen'.
  { rewrite length_delete; eauto. }
  unfold exec_free. rewrite Hc. simpl. rewrite Hh1. simpl.
  rewrite Hc1. simpl. rewrite Hh2. simpl. rewrite Hc2. simpl.
  do 2 eexists. split; [reflexivity|]. split; simpl.
  - by apply NoDup_list_delete.
  - rewrite (reg_first _ _ R). destruct (decide (l !! 0 = Some a)) as [H0|H0].
    + assert (0 = k) as <- by (eapply registry_index; eauto).
      rewrite Hn. symmetry. apply list_lookup_delete_ge. lia.
    + assert (k ≠ 0) by (intros ->; congruence).
      symmetry. apply list_lookup_delete_lt. lia.
  - rewrite (reg_last _ _ R), Hlen'.
    destruct (length l) as [|m] eqn:Hm; [lia|]. simpl.
    replace (m - 0) with m by lia.
    destruct (decide (l !! m = Some a)) as [H0|H0].
    + assert (m = k) as -> by (eapply registry_index; eauto).
      rewrite Hp. symmetry. by apply lookup_prev_delete_lt.
    + assert (k ≠ m) by (intros ->; congruence).
      symmetry. apply lookup_prev_delete_gt. lia.
  - intros x. rewrite (elem_of_list_delete_index _ _ _ _ Hnd Hk).
    destruct (decide (x = a)) as [->|Hne].
    + rewrite lookup_delete_eq. split; [by intros [? ?]|]. by intros [_ ?].
    + rewrite lookup_delete_ne by done. rewrite Hd2, (reg_dom _ _ R). tauto.
  - intros i x Hx. destruct (decide (i < k)) as [Hi|Hi].
    + rewrite list_lookup_delete_lt in Hx by done.
      assert (x ≠ a) as Hne.
      { intros ->. pose proof (NoDup_lookup _ _ _ _ Hnd Hx Hk). lia. }
      rewrite lookup_delete_ne by done.
      destruct (Hl2 _ _ Hx) as (cx & Hcx & ->).
      destruct (reg_links _ _ R _ _ Hx) as (cx' & Hcx' & Hpx & Hnx).
      assert (cx' = cx) as -> by congruence.
      rewrite lookup_prev_delete_lt by lia.
      destruct (decide (S i = k)) as [<-|Hik].
      * eexists. split; [done|]. simpl. split; [done|].
        rewrite Hn. symmetry. apply list_lookup_delete_ge. lia.
      * rewrite decide_False by lia. eexists. split; [done|].
        split; [done|]. rewrite Hnx. symmetry.
        apply list_lookup_delete_lt. lia.
    + rewrite list_lookup_delete_ge in Hx by lia.
      assert (x ≠ a) as Hne.
      { intros ->. pose proof (NoDup_lookup _ _ _ _ Hnd Hx Hk). lia. }
      rewrite lookup_delete_ne by done.
      destruct (Hl2 _ _ Hx) as (cx & Hcx & ->).
      destruct (reg_links _ _ R _ _ Hx) as (cx' & Hcx' & Hpx & Hnx).
      assert (cx' = cx) as -> by congruence.
      rewrite decide_False by lia.
      rewrite (list_lookup_delete_ge l k (S i)) by lia.
      destruct (decide (S i = S k)) as [Heq|Hik].
      * assert (i = k) as -> by lia.
        eexists. split; [done|]. simpl. split; [|done].
        rewrite Hp. symmetry. by apply lookup_prev_delete_lt.
      * eexists. split; [done|]. split; [|done].
        rewrite Hpx. simpl. symmetry. apply lookup_prev_delete_gt. lia.
Qed.

End RegistryFree.

Section RegistryOps.

Implicit Types (s : t_exec) (l : list addr) (o : t_op).

(** A creation or a removal that respects [op_ok] is defined and keeps the
    list well formed. *)
Lemma exec_op_registry s l o :
  registry s l → op_ok s o = true →
  ∃ s' l', exec_op s o = Some s' ∧ registry s' l'.
Proof.
  intros R Hok. unfold exec_op. rewrite Hok.
  destruct o as [now [[a garbage]|]|[a|]]; simpl in Hok.
  - apply bool_decide_eq_true in Hok.
    destruct (exec_add_registry now a garbage _ _ R Hok) as (s' & -> & R').
    simpl. eauto.
  - rewrite (exec_add_fail now _ _ R). simpl. eauto.
  - apply bool_decide_eq_true in Hok.
    apply (reg_dom _ _ R) in Hok. apply list_elem_of_lookup in Hok as [k Hk].
    destruct (exec_free_registry _ _ _ _ R Hk) as (ev & s' & Hs' & R').
    rewrite Hs'. simpl. eauto.
  - eauto.
Qed.

Lemma exec_ops_registry ops : ∀ s l s',
  registry s l → exec_ops s ops = Some s' → ∃ l', registry s' l'.
Proof.
  induction ops as [|o ops IH]; intros s l s' R Hrun; simpl in Hrun.
  - injection Hrun as <-. eauto.
  - destruct (exec_op s o) as [s1|] eqn:Hop; [|done]. simpl in Hrun.
    assert (op_ok s o = true) as Hok.
    { unfold exec_op in Hop. by destruct (op_ok s o). }
    destruct (exec_op_registry _ _ _ R Hok) as (s1' & l1 & Hop' & R1).
    assert (s1' = s1) as -> by congruence. eauto.
Qed.

End RegistryOps.

(** ** C9: consistency of the list *)

(** C9. After every sequence of creations ([exec_add]) and removals
    ([exec_free]) from the initial state, walking the list from
    [exec_cmds] along [next_cmd] ends and gives the nodes [l], walking it
    from [last_exec_cmd] along [prev_cmd] ends and gives [l] reversed, the
    nodes of [l] are exactly the allocated commands, and the two global
    pointers and the links of neighbours agree with each other.  From such
    a state every further creation or removal is defined. *)
Theorem registry_list_consistency (ops : list t_op) (s : t_exec) :
  exec_ops exec_init ops = Some s →
  ∃ l, forward s = Some l
       ∧ backward s = Some (rev l)
       ∧ (∀ a, is_Some (heap s !! a) ↔ a ∈ l)
       ∧ links_consistent s
       ∧ ∀ o, op_ok s o = true → is_Some (exec_op s o).
Proof.
  intros Hrun.
  destruct (exec_ops_registry ops _ _ _ registry_init Hrun) as [l R].
  exists l. split; [by apply registry_forward|].
  split; [by apply registry_backward|].
  split; [apply (reg_dom _ _ R)|].
  split; [by apply registry_links_consistent with l|].
  intros o Hok. destruct (exec_op_registry _ _ _ R Hok) as (s' & _ & -> & _).
  eauto.
Qed.

Lemma registry_list_consistency_witness :
  ∃ l, forward state_reuse = Some l
       ∧ backward state_reuse = Some (rev l)
       ∧ (∀ a, is_Some (heap state_reuse !! a) ↔ a ∈ l)
       ∧ links_consistent state_reuse
       ∧ ∀ o, op_ok state_reuse o = true → is_Some (exec_op state_reuse o).
Proof.
  apply (registry_list_consistency ops_reuse state_reuse).
  vm_compute. reflexivity.
Defined.

(** ** The numbers of the commands *)

Section RegistryNumbers.
Local Open Scope nat_scope.

Implicit Types (s : t_exec) (l : list addr) (h : gmap addr t_exec_cmd).

Lemma numbers_registry s l :
  registry s l → numbers s = Some (number_at s <$> l).
Proof.
  intros R. unfold numbers. rewrite (registry_forward _ _ R). simpl.
  assert (∀ a, a ∈ l → is_Some (heap s !! a)) as Hlive.
  { intros a. apply (reg_dom _ _ R). }
  clear R. induction l as [|a l IH]; [done|].
  destruct (Hlive a) as [c Hc]; [left|].
  rewrite fmap_cons. unfold number_at at 1.
  cbn [mapM]. rewrite Hc. simpl.
  rewrite IH; [done|]. intros x Hx. apply Hlive. by right.
Qed.

(** The loop of [exec_add] from position [S k], and the read of the number
    it stops on. *)
Lemma first_in_gap_number s l (dflt : Z) n k a0 :
  registry s l → length l ≤ n + S k → l !! k = Some a0 →
  first_in (heap s) (exec_add_gap (heap s)) (drop (S k) l)
    ≫= (λ found,
          match found with
          | None => Some dflt
          | Some a =>
              heap s !! a ≫= λ c, prev_cmd c ≫= λ p, heap s !! p ≫= λ cp,
                Some (int_add (number cp) 1)
          end)
  = Some (default dflt
            (first_gap (number_at s a0) (number_at s <$> drop (S k) l))).
Proof.
  intros R. revert k a0. induction n as [|n IH]; intros k a0 Hk Ha0.
  - rewrite drop_ge by lia. reflexivity.
  - destruct (l !! S k) as [a|] eqn:Ha.
    + rewrite (drop_S _ _ _ Ha). rewrite fmap_cons.
      destruct (reg_links _ _ R _ _ Ha) as (c & Hc & Hp & Hn).
      destruct (reg_links _ _ R _ _ Ha0) as (c0 & Hc0 & _).
      simpl in Hp. rewrite Ha0 in Hp.
      assert (exec_add_gap (heap s) a c
              = Some (bool_decide (number c > int_add (number c0) 1)%Z))
        as Hgap.
      { unfold exec_add_gap. rewrite Hp. by rewrite Hc0. }
      assert (number_at s a = number c) as Hna.
      { unfold number_at. by rewrite Hc. }
      assert (number_at s a0 = number c0) as Hna0.
      { unfold number_at. by rewrite Hc0. }
      cbn [first_in first_gap]. rewrite Hc. simpl. rewrite Hgap. simpl.
      rewrite Hna, Hna0.
      destruct (bool_decide (number c > int_add (number c0) 1)%Z) eqn:Hb.
      * simpl. rewrite Hc. simpl. rewrite Hp. simpl. rewrite Hc0. done.
      * rewrite (IH (S k) a) by (done || lia). by rewrite Hna.
    + apply lookup_ge_None_1 in Ha. rewrite drop_ge by lia. reflexivity.
Qed.

(** The number chosen by [exec_add], on the numbers in list order. *)
Lemma exec_add_number_spec s l :
  registry s l →
  exec_add_number s = Some (next_number (number_at s <$> l)).
Proof.
  intros R. unfold exec_add_number.
  rewrite (reg_first _ _ R), (reg_last _ _ R), (registry_size _ _ R).
  rewrite (first_cmd_registry _ _ l (length l) 0); [| |lia].
  2:{ intros i a Ha.
      destruct (reg_links _ _ R _ _ Ha) as (c & ? & ? & ?); eauto. }
  rewrite drop_0. destruct l as [|a0 l0]; [done|].
  set (l := a0 :: l0) in *.
  assert (l !! 0 = Some a0) as Ha0 by done.
  assert (∃ z cz, lookup_prev l (length l) = Some z ∧ heap s !! z = Some cz
                  ∧ List.last (number_at s <$> l) 0%Z = number cz)
    as (z & cz & Hz & Hcz & Hlast).
  { rewrite lookup_prev_last.
    destruct (last l) as [z|] eqn:Hz.
    2:{ rewrite last_lookup in Hz. apply lookup_ge_None_1 in Hz.
        simpl in Hz. lia. }
    assert (z ∈ l) as Hin.
    { rewrite last_lookup in Hz. apply list_elem_of_lookup. eauto. }
    apply (reg_dom _ _ R) in Hin as [cz Hcz]. exists z, cz.
    split; [done|]. split; [done|].
    apply last_Some in Hz as [l' ->].
    rewrite fmap_app. simpl. rewrite List.last_last.
    unfold number_at. by rewrite Hcz. }
  rewrite Hz, Hcz. simpl.
  destruct (reg_links _ _ R _ _ Ha0) as (c0 & Hc0 & Hp0 & _).
  assert (exec_add_gap (heap s) a0 c0 = Some false) as Hgap.
  { unfold exec_add_gap. by rewrite Hp0. }
  rewrite Hc0. simpl. rewrite Hgap. simpl.
  change l0 with (drop 1 l) at 1.
  rewrite (first_in_gap_number s l _ (length l) 0 a0 R); [|lia|done].
  simpl in Hlast. rewrite Hlast. reflexivity.
Qed.

(** [exec_add] and [exec_free] leave the numbers of the other commands. *)
Lemma exec_add_number_at now a garbage s r s' :
  exec_add now (Some (a, garbage)) s = Some (r, s') →
  exec_add_number s = Some (number_at s' a)
  ∧ ∀ x, x ≠ a → number_at s' x = number_at s x.
Proof.
  unfold exec_add. destruct (exec_add_number s) as [n|]; [|done]. simpl.
  destruct (exec_cmds s) as [f|]; [destruct (last_exec_cmd s) as [z|]|];
    simpl; [|done|].
  - destruct (heap s !! z) as [cz|] eqn:Hz; [|done]. simpl.
    intros [= <- <-]. unfold number_at. simpl. split.
    + by rewrite lookup_insert_eq.
    + intros x Hx. rewrite lookup_insert_ne by done.
      destruct (decide (x = z)) as [->|Hne].
      * by rewrite lookup_insert_eq, Hz.
      * by rewrite lookup_insert_ne.
  - intros [= <- <-]. unfold number_at. simpl. split.
    + by rewrite lookup_insert_eq.
    + intros x Hx. by rewrite lookup_insert_ne.
Qed.

Lemma exec_free_number_at a s ev s' :
  exec_free (Some a) s = Some (ev, s') →
  ∀ x, x ≠ a → number_at s' x = number_at s x.
Proof.
  unfold exec_free. destruct (heap s !! a) as [c|]; [|done]. simpl.
  intros Hfree x Hx.
  assert (∀ h1 : gmap addr t_exec_cmd,
    match prev_cmd c with
    | None => Some (heap s)
    | Some p =>
        heap s !! p ≫= λ cp,
          Some (<[p := set_next_cmd (next_cmd c) cp]> (heap s))
    end = Some h1 →
    number <$> h1 !! x = number <$> heap s !! x) as H1.
  { intros h1. destruct (prev_cmd c) as [p|]; [|by intros [= <-]].
    destruct (heap s !! p) as [cp|] eqn:Hp; [|done]. simpl. intros [= <-].
    destruct (decide (x = p)) as [->|Hne].
    - by rewrite lookup_insert_eq, Hp.
    - by rewrite lookup_insert_ne. }
  destruct (match prev_cmd c with
            | None => Some (heap s)
            | Some p => _
            end) as [h1|]; [|done].
  specialize (H1 h1 eq_refl). simpl in Hfree.
  destruct (h1 !! a) as [c1|]; [|done]. simpl in Hfree.
  assert (∀ h2 : gmap addr t_exec_cmd,
    match next_cmd c1 with
    | None => Some h1
    | Some n =>
        h1 !! n ≫= λ cn, Some (<[n := set_prev_cmd (prev_cmd c1) cn]> h1)
    end = Some h2 →
    number <$> h2 !! x = number <$> h1 !! x) as H2.
  { intros h2. destruct (next_cmd c1) as [n|]; [|by intros [= <-]].
    destruct (h1 !! n) as [cn|] eqn:Hn; [|done]. simpl. intros [= <-].
    destruct (decide (x = n)) as [->|Hne].
    - by rewrite lookup_insert_eq, Hn.
    - by rewrite lookup_insert_ne. }
  destruct (match next_cmd c1 with
            | None => Some h1
            | Some n => _
            end) as [h2|]; [|done].
  specialize (H2 h2 eq_refl). simpl in Hfree.
  destruct (h2 !! a) as [c2|]; [|done]. simpl in Hfree.
  injection Hfree as _ <-. unfold number_at. simpl.
  rewrite lookup_delete_ne by done.
  rewrite H1 in H2.
  destruct (h2 !! x), (heap s !! x); simpl in *; congruence.
Qed.

(** A creation appends the number chosen by [exec_add] to the numbers of
    the list. *)
Lemma exec_add_numbers now a garbage s l :
  registry s l → heap s !! a = None →
  ∃ s', exec_add now (Some (a, garbage)) s = Some (Some a, s')
        ∧ registry s' (l ++ [a])
        ∧ number_at s' <$> (l ++ [a])
          = (number_at s <$> l) ++ [next_number (number_at s <$> l)].
Proof.
  intros R Hfresh.
  destruct (exec_add_registry now a garbage _ _ R Hfresh) as (s' & Hs' & R').
  exists s'. split; [done|]. split; [done|].
  destruct (exec_add_number_at _ _ _ _ _ _ Hs') as [Hn Hother].
  rewrite (exec_add_number_spec _ _ R) in Hn. injection Hn as Hn.
  rewrite fmap_app. simpl. rewrite <- Hn. f_equal.
  apply Forall_fmap_ext_1, Forall_forall. intros x Hx. apply Hother.
  intros ->. apply (reg_dom _ _ R) in Hx as [? ?]. congruence.
Qed.

(** A removal deletes the number of the command from the numbers of the
    list. *)
Lemma exec_free_numbers s l k a :
  registry s l → l !! k = Some a →
  ∃ ev s', exec_free (Some a) s = Some (ev, s')
           ∧ registry s' (delete k l)
           ∧ number_at s' <$> delete k l = delete k (number_at s <$> l).
Proof.
  intros R Hk.
  destruct (exec_free_registry _ _ _ _ R Hk) as (ev & s' & Hs' & R').
  exists ev, s'. split; [done|]. split; [done|].
  rewrite <- list_fmap_delete.
  apply Forall_fmap_ext_1, Forall_forall. intros x Hx.
  apply (exec_free_number_at _ _ _ _ Hs').
  by apply (elem_of_list_delete_index _ _ _ _ (reg_nodup _ _ R) Hk) in Hx
    as [_ ?].
Qed.

End RegistryNumbers.

(** ** C7, C5: the number given to a new command *)

Section NumberReuse.

Lemma registry_fresh s l a : registry s l → a ∉ l → heap s !! a = None.
Proof.
  intros R Ha. destruct (heap s !! a) eqn:Hh; [|done].
  exfalso. apply Ha, (reg_dom _ _ R). eauto.
Qed.

(** C7. From the empty list, three creations give the numbers 0, 1 and 2;
    once the second command is removed, the next creation gives the number
    1 that the removed command had, and not 3.  The commands are at any
    addresses [a], [b], [c], [d] that [malloc] can return: different for
    commands that are allocated at the same time. *)
Theorem exec_add_reuses_freed_number
    (now1 now2 now3 now4 : Z) (a b c d : addr) (ga gb gc gd : t_exec_cmd) :
  a ≠ b → a ≠ c → b ≠ c → d ≠ a → d ≠ c →
  ∃ sA sB sC ev sF sD,
    exec_add now1 (Some (a, ga)) exec_init = Some (Some a, sA)
    ∧ exec_add now2 (Some (b, gb)) sA = Some (Some b, sB)
    ∧ exec_add now3 (Some (c, gc)) sB = Some (Some c, sC)
    ∧ forward sC = Some [a; b; c]
    ∧ numbers sC = Some [0; 1; 2]
    ∧ exec_free (Some b) sC = Some (ev, sF)
    ∧ exec_add now4 (Some (d, gd)) sF = Some (Some d, sD)
    ∧ forward sD = Some [a; c; d]
    ∧ numbers sD = Some [0; 2; 1]
    ∧ number <$> heap sD !! d = Some 1.
Proof.
  intros Hab Hac Hbc Hda Hdc.
  assert (∀ x y : addr, x ≠ y → x ∉ [y]) as Hn1.
  { intros x y Hxy Hin. by apply list_elem_of_singleton in Hin. }
  assert (∀ x y z : addr, x ≠ y → x ≠ z → x ∉ [y; z]) as Hn2.
  { intros x y z Hxy Hxz Hin. apply elem_of_cons in Hin as [?|Hin]; [done|].
    by apply list_elem_of_singleton in Hin. }
  destruct (exec_add_numbers now1 a ga _ _ registry_init)
    as (sA & HA & RA & NA); [apply lookup_empty|].
  change (registry sA [a]) in RA.
  change (number_at sA <$> [a] = [0]) in NA.
  destruct (exec_add_numbers now2 b gb _ _ RA) as (sB & HB & RB & NB).
  { apply (registry_fresh _ _ _ RA). apply Hn1. congruence. }
  change (registry sB [a; b]) in RB.
  rewrite NA in NB. change (number_at sB <$> [a; b] = [0; 1]) in NB.
  destruct (exec_add_numbers now3 c gc _ _ RB) as (sC & HC & RC & NC).
  { apply (registry_fresh _ _ _ RB). apply Hn2; congruence. }
  change (registry sC [a; b; c]) in RC.
  rewrite NB in NC. change (number_at sC <$> [a; b; c] = [0; 1; 2]) in NC.
  destruct (exec_free_numbers sC _ 1%nat b RC) as (ev & sF & HF & RF & NF);
    [done|].
  change (registry sF [a; c]) in RF.
  rewrite NC in NF. change (number_at sF <$> [a; c] = [0; 2]) in NF.
  destruct (exec_add_numbers now4 d gd _ _ RF) as (sD & HD & RD & ND).
  { apply (registry_fresh _ _ _ RF). apply Hn2; congruence. }
  change (registry sD [a; c; d]) in RD.
  rewrite NF in ND. change (number_at sD <$> [a; c; d] = [0; 2; 1]) in ND.
  exists sA, sB, sC, ev, sF, sD.
  repeat (split; [done|]).
  split; [by apply registry_forward|].
  split; [by rewrite (numbers_registry _ _ RC), NC|].
  repeat (split; [done|]).
  split; [by apply registry_forward|].
  split; [by rewrite (numbers_registry _ _ RD), ND|].
  injection ND as _ _ ND. unfold number_at in ND.
  destruct (reg_links _ _ RD 2%nat d eq_refl) as (cd & Hcd & _).
  rewrite Hcd in ND |- *. simpl in *. by rewrite ND.
Qed.

Lemma exec_add_reuses_freed_number_witness :
  ∃ sA sB sC ev sF sD,
    exec_add 10 (Some (1%positive, blank)) exec_init
      = Some (Some 1%positive, sA)
    ∧ exec_add 11 (Some (2%positive, blank)) sA = Some (Some 2%positive, sB)
    ∧ exec_add 12 (Some (3%positive, blank)) sB = Some (Some 3%positive, sC)
    ∧ forward sC = Some [1%positive; 2%positive; 3%positive]
    ∧ numbers sC = Some [0; 1; 2]
    ∧ exec_free (Some 2%positive) sC = Some (ev, sF)
    ∧ exec_add 13 (Some (2%positive, blank)) sF = Some (Some 2%positive, sD)
    ∧ forward sD = Some [1%positive; 3%positive; 2%positive]
    ∧ numbers sD = Some [0; 2; 1]
    ∧ number <$> heap sD !! 2%positive = Some 1.
Proof.
  apply (exec_add_reuses_freed_number 10 11 12 13 1%positive 2%positive
           3%positive 2%positive blank blank blank blank); lia.
Defined.

(** C5, on two sequences.  After three creations and the removal of the
    second command, two more creations both get the number 1: the loop of
    [exec_add] compares neighbours of the list only, and the list is in
    creation order, not in the order of the numbers.  After two creations
    and the removal of the first command, a creation gets the number 2,
    while 0 is not in use. *)
Theorem exec_add_number_in_use :
  (exec_ops exec_init ops_reuse ≫= numbers) = Some [0; 2; 1; 1]
  ∧ (exec_ops exec_init ops_first_freed ≫= numbers) = Some [1; 2].
Proof. split; vm_compute; reflexivity. Qed.

End NumberReuse.

(** ** C6, C10: exec_search_by_id *)

Section Search.

Implicit Types (s : t_exec) (l : list addr).

(** The state reached by creations and removals has the list that
    [forward] computes. *)
Lemma registry_of_ops ops s l :
  exec_ops exec_init ops = Some s → forward s = Some l → registry s l.
Proof.
  intros Hrun Hl.
  destruct (exec_ops_registry ops _ _ _ registry_init Hrun) as [l' R].
  rewrite (registry_forward _ _ R) in Hl. by injection Hl as <-.
Qed.

(** Giving a name to a command does not change the list. *)
Lemma registry_set_name s l a new_name :
  registry s l → registry (set_name a new_name s) l.
Proof.
  intros R. split; simpl;
    [apply (reg_nodup _ _ R)|apply (reg_first _ _ R)|apply (reg_last _ _ R)
    | |].
  - intros x. rewrite <- (reg_dom _ _ R), lookup_alter.
    case_decide; [subst|done]. by rewrite fmap_is_Some.
  - intros i x Hx. destruct (reg_links _ _ R _ _ Hx) as (c & Hc & Hp & Hn).
    rewrite lookup_alter. case_decide; [subst|eauto].
    rewrite Hc. simpl. eauto.
Qed.

Lemma first_in_find (h : gmap addr t_exec_cmd)
    (f : addr → t_exec_cmd → bool) l :
  (∀ a, a ∈ l → is_Some (h !! a)) →
  first_in h (λ a c, Some (f a c)) l
  = Some (List.find (λ a, from_option (f a) false (h !! a)) l).
Proof.
  induction l as [|a l IH]; intros Hlive; [done|].
  destruct (Hlive a) as [c Hc]; [left|].
  simpl. rewrite Hc. simpl. destruct (f a c); [done|].
  apply IH. intros x Hx. apply Hlive. by right.
Qed.

(** [exec_search_by_id] ends on the first command of the list, from
    [exec_cmds], that passes the test of the loop. *)
Lemma exec_search_by_id_find s l id :
  registry s l →
  exec_search_by_id id s = Some (List.find (exec_search_match id s) l).
Proof.
  intros R. unfold exec_search_by_id.
  rewrite (reg_first _ _ R), (registry_size _ _ R).
  rewrite (first_cmd_registry _ _ l (length l) 0); [| |lia].
  - rewrite drop_0.
    apply (first_in_find _
             (λ _ c, exec_search_test id (exec_search_number id) c)).
    intros a. apply (reg_dom _ _ R).
  - intros i a Ha.
    destruct (reg_links _ _ R _ _ Ha) as (c & ? & ? & ?); eauto.
Qed.

Lemma find_ext_in (f g : addr → bool) l :
  (∀ a, a ∈ l → f a = g a) → List.find f l = List.find g l.
Proof.
  induction l as [|a l IH]; intros Hfg; [done|]. simpl.
  rewrite (Hfg a) by left. destruct (g a); [done|].
  apply IH. intros x Hx. apply Hfg. by right.
Qed.

Lemma find_first (f : addr → bool) l i a :
  l !! i = Some a → f a = true →
  (∀ j b, (j < i)%nat → l !! j = Some b → f b = false) →
  List.find f l = Some a.
Proof.
  revert i. induction l as [|x l IH]; intros i Hi Ha Hbefore; [done|].
  destruct i as [|i]; simpl in *.
  - injection Hi as ->. by rewrite Ha.
  - rewrite (Hbefore 0%nat x) by (done || lia).
    apply (IH i); [done|done|]. intros j b Hj Hb.
    apply (Hbefore (S j) b); [lia|done].
Qed.

(** With a non-negative number to look for, the test of the loop is
    "has this number or this name". *)
Lemma exec_search_by_id_number_or_name s l id :
  registry s l → 0 ≤ exec_search_number id →
  exec_search_by_id id s
  = Some (List.find
            (number_or_name (wrap_int (exec_search_number id)) id s) l).
Proof.
  intros R Hn. rewrite (exec_search_by_id_find _ _ _ R). f_equal.
  apply find_ext_in. intros a _.
  unfold exec_search_match, number_or_name.
  destruct (heap s !! a) as [c|]; [|done]. simpl.
  unfold exec_search_test.
  rewrite (bool_decide_eq_true_2 (exec_search_number id >= 0)) by lia.
  simpl.
  destruct (bool_decide (number c = wrap_int (exec_search_number id)));
    [done|].
  simpl. by destruct (bool_decide (name c = Some id)).
Qed.

(** C6, as the code has it.  In a well-formed list [l], looking for a
    string [id] that [strtol] reads as a non-negative integer gives the
    first command of [l] whose number is that integer (converted to [int])
    or whose name is [id].  So the command at position [i] that has this
    number is the result when no command before it has the number or is
    named [id]. *)
Theorem exec_search_by_id_first_match s l id :
  registry s l → 0 ≤ exec_search_number id →
  exec_search_by_id id s
  = Some (List.find
            (number_or_name (wrap_int (exec_search_number id)) id s) l)
  ∧ ∀ i a, l !! i = Some a →
      number_at s a = wrap_int (exec_search_number id) →
      (∀ j b, (j < i)%nat → l !! j = Some b →
         number_or_name (wrap_int (exec_search_number id)) id s b = false) →
      exec_search_by_id id s = Some (Some a).
Proof.
  intros R Hn.
  pose proof (exec_search_by_id_number_or_name _ _ _ R Hn) as Hfind.
  split; [done|]. intros i a Hi Ha Hbefore. rewrite Hfind. f_equal.
  apply (find_first _ _ i); [done| |done].
  unfold number_or_name. unfold number_at in Ha.
  destruct (reg_links _ _ R _ _ Hi) as (c & Hc & _). rewrite Hc in Ha |- *.
  simpl in *. by rewrite bool_decide_eq_true_2.
Qed.

Lemma registry_state_named : registry state_named [1%positive; 2%positive].
Proof.
  apply registry_set_name.
  apply (registry_of_ops
           [op_add 10 (Some (1%positive, blank));
            op_add 11 (Some (2%positive, blank))]);
    vm_compute; reflexivity.
Qed.

Lemma exec_search_by_id_first_match_witness :
  exec_search_by_id "0" state_named
  = Some (List.find
            (number_or_name (wrap_int (exec_search_number "0")) "0"
               state_named) [1%positive; 2%positive])
  ∧ ∀ i a, [1%positive; 2%positive] !! i = Some a →
      number_at state_named a = wrap_int (exec_search_number "0") →
      (∀ j b, (j < i)%nat → [1%positive; 2%positive] !! j = Some b →
         number_or_name (wrap_int (exec_search_number "0")) "0" state_named b
         = false) →
      exec_search_by_id "0" state_named = Some (Some a).
Proof.
  apply (exec_search_by_id_first_match state_named [1%positive; 2%positive]
           "0" registry_state_named).
  vm_compute. discriminate.
Defined.

(** C6 as stated fails: the first command has the number 0 and the name
    ["1"], the second one the number 1; looking for ["1"] gives the
    first. *)
Lemma search_prefers_number_counterexample :
  exec_search_by_id "1" state_named = Some (Some 1%positive)
  ∧ number <$> heap state_named !! 2%positive = Some 1
  ∧ ¬ search_prefers_number state_named "1".
Proof.
  split; [by vm_compute|]. split; [by vm_compute|].
  intros Hclaim.
  specialize (Hclaim 2%positive
                (default blank (heap state_named !! 2%positive))).
  assert (exec_search_by_id "1" state_named = Some (Some 2%positive)) as H.
  { apply Hclaim; vm_compute; (reflexivity || discriminate). }
  vm_compute in H. discriminate H.
Qed.

(** C10. [strtol] reads the empty string as 0 and leaves no character, so
    the number looked for is 0 and not -1: on a well-formed list [l],
    [exec_search_by_id ("")] gives the first command of [l], the list in
    creation order, whose number is 0 or whose name is the empty
    string. *)
Theorem exec_search_by_id_empty_string s l :
  registry s l →
  strtol "" = (0, "")
  ∧ exec_search_number "" = 0
  ∧ forward s = Some l
  ∧ exec_search_by_id "" s = Some (List.find (number_or_name 0 "" s) l).
Proof.
  intros R. split; [done|]. split; [done|].
  split; [by apply registry_forward|].
  by rewrite (exec_search_by_id_number_or_name s l "" R).
Qed.

Lemma exec_search_by_id_empty_string_witness :
  strtol "" = (0, "")
  ∧ exec_search_number "" = 0
  ∧ forward state_named = Some [1%positive; 2%positive]
  ∧ exec_search_by_id "" state_named
    = Some (List.find (number_or_name 0 "" state_named)
              [1%positive; 2%positive]).
Proof.
  apply (exec_search_by_id_empty_string state_named
           [1%positive; 2%positive] registry_state_named).
Defined.

End Search.

(** ** Lengths of strings *)

Section Lengths.

Lemma wrap_int_small z :
  -2147483648 ≤ z < 2147483648 → wrap_int z = z.
Proof. intros Hz. unfold wrap_int. rewrite Z.mod_small; lia. Qed.

Lemma str_length_append (s1 s2 : string) :
  String.length (s1 +:+ s2) = (String.length s1 + String.length s2)%nat.
Proof. induction s1 as [|x s1 IH]; simpl; [done|]. by rewrite IH. Qed.

Lemma strlen_append (s1 s2 : string) :
  strlen (s1 +:+ s2) = strlen s1 + strlen s2.
Proof. unfold strlen. rewrite str_length_append. lia. Qed.

Lemma substring_all (s : string) n :
  (String.length s ≤ n)%nat → String.substring 0 n s = s.
Proof.
  revert n. induction s as [|x s IH]; intros n Hn.
  - by destruct n.
  - destruct n as [|n]; simpl in *; [lia|]. rewrite IH; [done|lia].
Qed.

Lemma strlen_nonneg (s : string) : 0 ≤ strlen s.
Proof. unfold strlen. lia. Qed.

End Lengths.

(** ** C8: the lines of exec_display_output *)

Section Display.

Implicit Types (s : string) (w : t_weechat) (c : t_exec_cmd).

Lemma split_lf_not_nil s : split_lf s ≠ [].
Proof.
  destruct s as [|x s]; simpl; [done|].
  destruct (bool_decide (x = LF)); [done|]. by destruct (split_lf s).
Qed.

Lemma split_lf_no_lf s : strchr s LF = None → split_lf s = [s].
Proof.
  induction s as [|x s IH]; simpl; [done|].
  destruct (bool_decide (x = LF)); [done|].
  destruct (strchr s LF); [done|]. intros _. by rewrite IH.
Qed.

Lemma split_lf_at_lf s n :
  strchr s LF = Some n →
  split_lf s = String.substring 0 n s :: split_lf (str_drop (S n) s).
Proof.
  revert n. induction s as [|x s IH]; intros n; simpl; [done|].
  destruct (bool_decide (x = LF)).
  - intros [= <-]. done.
  - destruct (strchr s LF) as [m|]; [|done]. simpl. intros [= <-].
    by rewrite (IH m eq_refl).
Qed.

Lemma str_drop_at_lf_length s n :
  strchr s LF = Some n →
  (String.length (str_drop (S n) s) < String.length s)%nat.
Proof.
  revert n. induction s as [|x s IH]; intros n; simpl; [done|].
  destruct (bool_decide (x = LF)).
  - intros [= <-]. simpl. lia.
  - destruct (strchr s LF) as [m|]; [|done]. simpl. intros [= <-].
    specialize (IH m eq_refl). lia.
Qed.

Lemma output_lines_empty : output_lines "" = [].
Proof. reflexivity. Qed.

Lemma output_lines_no_lf s :
  strchr s LF = None → s ≠ "" → output_lines s = [s].
Proof.
  intros Hs Hne. unfold output_lines. rewrite (split_lf_no_lf _ Hs). simpl.
  rewrite bool_decide_eq_false_2; [done|]. congruence.
Qed.

Lemma output_lines_at_lf s n :
  strchr s LF = Some n →
  output_lines s
  = String.substring 0 n s :: output_lines (str_drop (S n) s).
Proof.
  intros Hs. unfold output_lines. rewrite (split_lf_at_lf _ _ Hs).
  pose proof (split_lf_not_nil (str_drop (S n) s)) as Hne.
  destruct (split_lf (str_drop (S n) s)) as [|x fr]; [done|].
  rewrite last_cons_cons.
  by destruct (bool_decide (last (x :: fr) = Some EmptyString)).
Qed.

Lemma exec_decode_color_serves w c line :
  host_serves w → exec_decode_color w c (Some line) = Some (decoded w c line).
Proof.
  intros (Halloc & Hmod & _). unfold decoded.
  assert (is_Some (exec_decode_color w c (Some line))) as [x ->]; [|done].
  unfold exec_decode_color, strdup. rewrite Halloc.
  destruct (bool_decide (color c = EXEC_COLOR_ANSI)); [eauto|apply Hmod].
Qed.

(** Each line is one call to the host. *)
Lemma exec_display_line_one w c buffer is_out line_nb line :
  host_serves w →
  length (exec_display_line w c buffer is_out line_nb line) = 1%nat.
Proof.
  intros (Halloc & _ & Hrep). unfold exec_display_line.
  destruct (pipe_command c) as [pipe|].
  - destruct (strstr pipe "$line").
    + by destruct (Hrep pipe "$line" line) as [x ->].
    + by rewrite Halloc.
  - destruct (output_to_buffer c); [|done].
    destruct (line_numbers c); [|done]. by rewrite Halloc.
Qed.

Lemma exec_display_lines_length w c buffer is_out line_nb lines :
  host_serves w →
  length (exec_display_lines w c buffer is_out line_nb lines) = length lines.
Proof.
  intros Hw. revert line_nb. induction lines as [|x lines IH]; intros n;
    [done|].
  simpl. rewrite length_app, IH, (exec_display_line_one _ _ _ _ _ _ Hw). done.
Qed.

(** The loop of [exec_display_output] ends, and displays the lines of the
    text in order. *)
Lemma exec_display_loop_lines w c buffer is_out fuel :
  host_serves w →
  ∀ ptr_line line_nb, (String.length ptr_line < fuel)%nat →
    exec_display_loop fuel w c buffer is_out ptr_line line_nb
    = Some (exec_display_lines w c buffer is_out line_nb
              (output_lines ptr_line)).
Proof.
  intros Hw. pose proof Hw as (Halloc & _).
  induction fuel as [|fuel IH]; intros ptr_line line_nb Hlen; [lia|].
  destruct ptr_line as [|x rest]; [done|].
  set (ptr_line := String x rest) in *.
  cbn [exec_display_loop]. fold ptr_line.
  destruct (strchr ptr_line LF) as [n|] eqn:Hpos.
  - unfold weechat_strndup. rewrite Halloc.
    rewrite (exec_decode_color_serves _ _ _ Hw).
    rewrite IH.
    2:{ pose proof (str_drop_at_lf_length _ _ Hpos). lia. }
    by rewrite (output_lines_at_lf _ _ Hpos).
  - unfold strdup. rewrite Halloc.
    rewrite (exec_decode_color_serves _ _ _ Hw).
    rewrite (output_lines_no_lf _ Hpos) by done.
    simpl. by rewrite app_nil_r.
Qed.

(** [exec_display_output] on a stream that holds a text, when the output
    is not sent to a buffer that does not exist. *)
Lemma exec_display_output_serves w c (buffer : option t_gui_buffer)
    (is_out : bool) (text : string) :
  host_serves w →
  (if is_out then out c else err c) = Some text →
  (output_to_buffer c = true → pipe_command c = None → is_Some buffer) →
  exec_display_output w c buffer is_out
  = Some (exec_display_lines w c buffer is_out 1 (output_lines text)).
Proof.
  intros Hw Htext Hbuf. unfold exec_display_output. rewrite Htext.
  assert (output_to_buffer c
          && negb (bool_decide (is_Some (pipe_command c)))
          && negb (bool_decide (is_Some buffer)) = false) as ->.
  { destruct (output_to_buffer c); [|done].
    destruct (pipe_command c) as [p|].
    - rewrite bool_decide_eq_true_2; [done|eauto].
    - rewrite (bool_decide_eq_true_2 (is_Some buffer)); [|by apply Hbuf].
      by rewrite andb_false_r. }
  apply exec_display_loop_lines; [done|lia].
Qed.

Lemma decoded_ansi w c line :
  host_serves w → color c = EXEC_COLOR_ANSI → decoded w c line = line.
Proof.
  intros (Halloc & _) Hc. unfold decoded, exec_decode_color, strdup.
  rewrite Hc, Halloc. reflexivity.
Qed.

Lemma host_demo_serves : host_serves host_demo.
Proof. repeat split; intros; simpl; eauto. Qed.

Lemma snprintf_fits (size : Z) s : strlen s < size → snprintf size s = s.
Proof.
  intros Hs. unfold snprintf. apply substring_all. unfold strlen in Hs. lia.
Qed.

(** The two texts of two lines: one call for ["line1"] with the number 1,
    then one call for ["line2"] with the number 2. *)
Lemma exec_display_output_two_lines w c (buffer : option t_gui_buffer)
    (is_out : bool) (text : string) :
  host_serves w →
  (if is_out then out c else err c) = Some text →
  (output_to_buffer c = true → pipe_command c = None → is_Some buffer) →
  text = two_lines_lf ∨ text = two_lines →
  exec_display_output w c buffer is_out
  = Some (exec_display_line w c buffer is_out 1 (decoded w c "line1")
          ++ exec_display_line w c buffer is_out 2 (decoded w c "line2")).
Proof.
  intros Hw Htext Hbuf Ht.
  rewrite (exec_display_output_serves _ _ _ _ _ Hw Htext Hbuf).
  assert (output_lines text = ["line1"; "line2"]) as ->
    by (by destruct Ht as [-> | ->]).
  simpl. by rewrite app_nil_r.
Qed.

(** A line with its number, when the output is not piped: the branches
    ["%d. %s"] and ["%d\t"] of the loop. *)
Lemma exec_display_line_numbered w c (buffer : option t_gui_buffer)
    (is_out : bool) (line_nb : Z) (line : string) :
  host_serves w →
  pipe_command c = None → line_numbers c = true →
  strlen (string_of_int line_nb) < 31 →
  (output_to_buffer c = true → strlen line + 33 < 2147483648) →
  exec_display_line w c buffer is_out line_nb line
  = [if output_to_buffer c then
       weechat_command buffer (string_of_int line_nb +:+ ". " +:+ line)
     else
       weechat_printf_tags buffer (exec_display_tags c is_out) "%s%s"
         [arg_str (Some (string_of_int line_nb +:+ String TAB ""));
          arg_str (Some line)]].
Proof.
  intros (Halloc & _) Hpipe Hnum Hnb Hlen. unfold exec_display_line.
  rewrite Hpipe, Hnum. pose proof (strlen_nonneg line).
  destruct (output_to_buffer c).
  - specialize (Hlen eq_refl).
    rewrite wrap_int_small, Halloc by lia.
    rewrite snprintf_fits; [done|].
    rewrite !strlen_append. change (strlen ". ") with 2. lia.
  - rewrite snprintf_fits; [done|].
    rewrite strlen_append. change (strlen (String TAB "")) with 1. lia.
Qed.

(** A line piped to a command that has no ["$line"]: the number of the
    line is not in the command. *)
Lemma exec_display_line_piped w c (buffer : option t_gui_buffer)
    (is_out : bool) (line_nb : Z) (pipe line : string) :
  host_serves w →
  pipe_command c = Some pipe → strstr pipe "$line" = false →
  strlen pipe + strlen line + 2 < 2147483648 →
  exec_display_line w c buffer is_out line_nb line
  = [weechat_command buffer (pipe +:+ " " +:+ line)].
Proof.
  intros (Halloc & _) Hpipe Hstr Hlen. unfold exec_display_line.
  pose proof (strlen_nonneg pipe). pose proof (strlen_nonneg line).
  rewrite Hpipe, Hstr, wrap_int_small, Halloc by lia.
  rewrite snprintf_fits; [done|].
  rewrite !strlen_append. change (strlen " ") with 1. lia.
Qed.

(** The two lines with their numbers, when line numbers are enabled and
    the output is not piped. *)
Lemma exec_display_output_numbered w c (buffer : option t_gui_buffer)
    (is_out : bool) (text : string) :
  host_serves w →
  (if is_out then out c else err c) = Some text →
  (output_to_buffer c = true → pipe_command c = None → is_Some buffer) →
  text = two_lines_lf ∨ text = two_lines →
  line_numbers c = true → pipe_command c = None →
  (output_to_buffer c = true →
   strlen (decoded w c "line1") + 33 < 2147483648
   ∧ strlen (decoded w c "line2") + 33 < 2147483648) →
  exec_display_output w c buffer is_out
  = Some (if output_to_buffer c then
            [weechat_command buffer ("1. " +:+ decoded w c "line1");
             weechat_command buffer ("2. " +:+ decoded w c "line2")]
          else
            [weechat_printf_tags buffer (exec_display_tags c is_out)
               "%s%s"
               [arg_str (Some (String "1" (String TAB "")));
                arg_str (Some (decoded w c "line1"))];
             weechat_printf_tags buffer (exec_display_tags c is_out)
               "%s%s"
               [arg_str (Some (String "2" (String TAB "")));
                arg_str (Some (decoded w c "line2"))]]).
Proof.
  intros Hw Htext Hbuf Ht Hnum Hpipe Hlen.
  rewrite (exec_display_output_two_lines _ _ _ _ _ Hw Htext Hbuf Ht).
  rewrite !(exec_display_line_numbered _ _ _ _ _ _ Hw Hpipe Hnum);
    [|done|intros Hb; apply (Hlen Hb)|done|intros Hb; apply (Hlen Hb)].
  by destruct (output_to_buffer c).
Qed.

(** C8, as the code has it.  When the host answers every request and the
    output is not sent to a buffer that does not exist,
    [exec_display_output] on a stream that holds [text] ends and makes one
    call per line of [text], in order, the lines being the fragments
    between line feeds without the last fragment when it is empty, and the
    line numbers starting at 1 in every call, for either stream.  The two
    texts "line1\nline2\n" and "line1\nline2" have the two lines "line1"
    and "line2", each displayed by one call after the color policy.  The
    numbers 1 and 2 are shown when line numbers are enabled and the output
    is not piped to a command, whatever the color policy: these are the
    commands "1. line1" and "2. line2" when the output goes to a buffer
    (for lines whose length fits an [int]), else two lines printed with
    the prefixes "1\t" and "2\t".  When the output is piped, the number of
    the line is not used, with line numbers enabled or not: each line is
    sent as the pipe command with the line in place of "$line", or with
    the line after a space.  A line feed always ends a line, so that an
    empty line between two line feeds is a line. *)
Theorem exec_display_output_splits_lines w c
    (buffer : option t_gui_buffer) (is_out : bool) (text : string) :
  host_serves w →
  (if is_out then out c else err c) = Some text →
  (output_to_buffer c = true → pipe_command c = None → is_Some buffer) →
  exec_display_output w c buffer is_out
  = Some (exec_display_lines w c buffer is_out 1 (output_lines text))
  ∧ length (exec_display_lines w c buffer is_out 1 (output_lines text))
    = length (output_lines text)
  ∧ output_lines two_lines_lf = ["line1"; "line2"]
  ∧ output_lines two_lines = ["line1"; "line2"]
  ∧ (text = two_lines_lf ∨ text = two_lines →
     exec_display_output w c buffer is_out
     = Some (exec_display_line w c buffer is_out 1 (decoded w c "line1")
             ++ exec_display_line w c buffer is_out 2 (decoded w c "line2")))
  ∧ (color c = EXEC_COLOR_ANSI →
     decoded w c "line1" = "line1" ∧ decoded w c "line2" = "line2")
  ∧ (text = two_lines_lf ∨ text = two_lines →
     line_numbers c = true → pipe_command c = None →
     (output_to_buffer c = true →
      strlen (decoded w c "line1") + 33 < 2147483648
      ∧ strlen (decoded w c "line2") + 33 < 2147483648) →
     exec_display_output w c buffer is_out
     = Some (if output_to_buffer c then
               [weechat_command buffer ("1. " +:+ decoded w c "line1");
                weechat_command buffer ("2. " +:+ decoded w c "line2")]
             else
               [weechat_printf_tags buffer (exec_display_tags c is_out)
                  "%s%s"
                  [arg_str (Some (String "1" (String TAB "")));
                   arg_str (Some (decoded w c "line1"))];
                weechat_printf_tags buffer (exec_display_tags c is_out)
                  "%s%s"
                  [arg_str (Some (String "2" (String TAB "")));
                   arg_str (Some (decoded w c "line2"))]]))
  ∧ (pipe_command c = None →
     (output_to_buffer c = true →
      strlen (decoded w c "line1") + 33 < 2147483648
      ∧ strlen (decoded w c "line2") + 33 < 2147483648) →
     two_lines_numbered w c buffer is_out)
  ∧ (∀ pipe, pipe_command c = Some pipe →
       (∀ n n' line,
          exec_display_line w c buffer is_out n line
          = exec_display_line w c buffer is_out n' line)
       ∧ (text = two_lines_lf ∨ text = two_lines →
          strstr pipe "$line" = false →
          strlen pipe + strlen (decoded w c "line1") + 2 < 2147483648 →
          strlen pipe + strlen (decoded w c "line2") + 2 < 2147483648 →
          exec_display_output w c buffer is_out
          = Some [weechat_command buffer
                    (pipe +:+ " " +:+ decoded w c "line1");
                  weechat_command buffer
                    (pipe +:+ " " +:+ decoded w c "line2")])
       ∧ (text = two_lines_lf ∨ text = two_lines →
          strstr pipe "$line" = true →
          ∃ r1 r2,
            weechat_string_replace w pipe "$line" (decoded w c "line1")
            = Some r1
            ∧ weechat_string_replace w pipe "$line" (decoded w c "line2")
              = Some r2
            ∧ exec_display_output w c buffer is_out
              = Some [weechat_command buffer r1;
                      weechat_command buffer r2]))
  ∧ (∀ s n, strchr s LF = Some n →
       output_lines s
       = String.substring 0 n s :: output_lines (str_drop (S n) s))
  ∧ (∀ rest, output_lines (String LF rest) = "" :: output_lines rest)
  ∧ output_lines ("a" +:+ String LF (String LF "b")) = ["a"; ""; "b"].
Proof.
  intros Hw Htext Hbuf.
  pose proof (exec_display_output_serves _ _ _ _ _ Hw Htext Hbuf) as Hout.
  pose proof (exec_display_output_two_lines _ _ _ _ _ Hw Htext Hbuf) as Htwo.
  pose proof (exec_display_output_numbered _ _ _ _ _ Hw Htext Hbuf) as Hnb.
  split; [done|].
  split; [by apply exec_display_lines_length|].
  split; [done|]. split; [done|]. split; [done|].
  split; [intros Hcolor; by rewrite !(decoded_ansi _ _ _ Hw Hcolor)|].
  split; [done|].
  split; [|split].
  - intros Hpipe Hlen Hs Hnum.
    assert (text = two_lines_lf) as Ht by congruence.
    rewrite (Hnb (or_introl Ht) Hnum Hpipe Hlen).
    destruct (output_to_buffer c).
    + eexists _, _. split; [done|].
      split; left; by exists buffer.
    + eexists _, _. split; [done|].
      split; right; by exists buffer, (exec_display_tags c is_out).
  - intros pipe Hpipe. split; [|split].
    + intros n n' line. unfold exec_display_line. by rewrite Hpipe.
    + intros Ht Hstr Hl1 Hl2. rewrite (Htwo Ht).
      by rewrite !(exec_display_line_piped _ _ _ _ _ pipe _ Hw Hpipe Hstr)
        by done.
    + intros Ht Hstr. destruct Hw as (_ & _ & Hrep).
      destruct (Hrep pipe "$line" (decoded w c "line1")) as [r1 Hr1].
      destruct (Hrep pipe "$line" (decoded w c "line2")) as [r2 Hr2].
      exists r1, r2. split; [done|]. split; [done|].
      rewrite (Htwo Ht). unfold exec_display_line.
      by rewrite Hpipe, Hstr, Hr1, Hr2.
  - split; [apply output_lines_at_lf|]. split; [|done].
    intros rest. by rewrite (output_lines_at_lf (String LF rest) 0).
Qed.

Lemma exec_display_output_splits_lines_witness :
  exec_display_output host_demo cmd_demo None true
  = Some (exec_display_lines host_demo cmd_demo None true 1
            (output_lines two_lines_lf))
  ∧ length (exec_display_lines host_demo cmd_demo None true 1
              (output_lines two_lines_lf))
    = length (output_lines two_lines_lf)
  ∧ output_lines two_lines_lf = ["line1"; "line2"]
  ∧ output_lines two_lines = ["line1"; "line2"]
  ∧ (two_lines_lf = two_lines_lf ∨ two_lines_lf = two_lines →
     exec_display_output host_demo cmd_demo None true
     = Some (exec_display_line host_demo cmd_demo None true 1
               (decoded host_demo cmd_demo "line1")
             ++ exec_display_line host_demo cmd_demo None true 2
                  (decoded host_demo cmd_demo "line2")))
  ∧ (color cmd_demo = EXEC_COLOR_ANSI →
     decoded host_demo cmd_demo "line1" = "line1"
     ∧ decoded host_demo cmd_demo "line2" = "line2")
  ∧ (two_lines_lf = two_lines_lf ∨ two_lines_lf = two_lines →
     line_numbers cmd_demo = true → pipe_command cmd_demo = None →
     (output_to_buffer cmd_demo = true →
      strlen (decoded host_demo cmd_demo "line1") + 33 < 2147483648
      ∧ strlen (decoded host_demo cmd_demo "line2") + 33 < 2147483648) →
     exec_display_output host_demo cmd_demo None true
     = Some (if output_to_buffer cmd_demo then
               [weechat_command None
                  ("1. " +:+ decoded host_demo cmd_demo "line1");
                weechat_command None
                  ("2. " +:+ decoded host_demo cmd_demo "line2")]
             else
               [weechat_printf_tags None (exec_display_tags cmd_demo true)
                  "%s%s"
                  [arg_str (Some (String "1" (String TAB "")));
                   arg_str (Some (decoded host_demo cmd_demo "line1"))];
                weechat_printf_tags None (exec_display_tags cmd_demo true)
                  "%s%s"
                  [arg_str (Some (String "2" (String TAB "")));
                   arg_str (Some (decoded host_demo cmd_demo "line2"))]]))
  ∧ (pipe_command cmd_demo = None →
     (output_to_buffer cmd_demo = true →
      strlen (decoded host_demo cmd_demo "line1") + 33 < 2147483648
      ∧ strlen (decoded host_demo cmd_demo "line2") + 33 < 2147483648) →
     two_lines_numbered host_demo cmd_demo None true)
  ∧ (∀ pipe, pipe_command cmd_demo = Some pipe →
       (∀ n n' line,
          exec_display_line host_demo cmd_demo None true n line
          = exec_display_line host_demo cmd_demo None true n' line)
       ∧ (two_lines_lf = two_lines_lf ∨ two_lines_lf = two_lines →
          strstr pipe "$line" = false →
          strlen pipe + strlen (decoded host_demo cmd_demo "line1") + 2
          < 2147483648 →
          strlen pipe + strlen (decoded host_demo cmd_demo "line2") + 2
          < 2147483648 →
          exec_display_output host_demo cmd_demo None true
          = Some [weechat_command None
                    (pipe +:+ " " +:+ decoded host_demo cmd_demo "line1");
                  weechat_command None
                    (pipe +:+ " " +:+ decoded host_demo cmd_demo "line2")])
       ∧ (two_lines_lf = two_lines_lf ∨ two_lines_lf = two_lines →
          strstr pipe "$line" = true →
          ∃ r1 r2,
            weechat_string_replace host_demo pipe "$line"
              (decoded host_demo cmd_demo "line1")
            = Some r1
            ∧ weechat_string_replace host_demo pipe "$line"
                (decoded host_demo cmd_demo "line2")
              = Some r2
            ∧ exec_display_output host_demo cmd_demo None true
              = Some [weechat_command None r1;
                      weechat_command None r2]))
  ∧ (∀ s n, strchr s LF = Some n →
       output_lines s
       = String.substring 0 n s :: output_lines (str_drop (S n) s))
  ∧ (∀ rest, output_lines (String LF rest) = "" :: output_lines rest)
  ∧ output_lines ("a" +:+ String LF (String LF "b")) = ["a"; ""; "b"].
Proof.
  apply (exec_display_output_splits_lines host_demo cmd_demo None true
           two_lines_lf host_demo_serves).
  - reflexivity.
  - simpl. discriminate.
Defined.

(** C8 as stated fails when the output is piped: with line numbers
    enabled, the two lines are sent as the commands "/say line1" and
    "/say line2", which do not have the numbers 1 and 2. *)
Lemma two_lines_numbered_counterexample :
  out cmd_pipe_numbered = Some two_lines_lf
  ∧ line_numbers cmd_pipe_numbered = true
  ∧ exec_display_output host_demo cmd_pipe_numbered None true
    = Some [weechat_command None "/say line1";
            weechat_command None "/say line2"]
  ∧ ¬ two_lines_numbered host_demo cmd_pipe_numbered None true.
Proof.
  split; [done|]. split; [done|]. split; [by vm_compute|].
  intros Hclaim.
  destruct (Hclaim eq_refl eq_refl) as (e1 & e2 & Hout & Hn1 & _).
  vm_compute in Hout. injection Hout as <- <-.
  destruct Hn1 as [[b Hb] | (b & tags & Hb)];
    vm_compute in Hb; discriminate Hb.
Qed.

End Display.

(** ** C4, C1, C3, C2: the end of a command *)

Section EndCommand.

Implicit Types (s : t_exec) (w : t_weechat) (c : t_exec_cmd) (a : addr).

Lemma exec_display_line_no_timer w c buffer is_out line_nb line :
  List.filter is_timer (exec_display_line w c buffer is_out line_nb line)
  = [].
Proof.
  unfold exec_display_line.
  repeat (case_match; simpl; try reflexivity).
Qed.

(** The loop of [exec_display_output] ends on every text, whatever the
    host answers, and requests no timer. *)
Lemma exec_display_loop_total w c buffer is_out fuel :
  ∀ ptr_line line_nb, (String.length ptr_line < fuel)%nat →
    ∃ evs, exec_display_loop fuel w c buffer is_out ptr_line line_nb
           = Some evs
           ∧ List.filter is_timer evs = [].
Proof.
  induction fuel as [|fuel IH]; intros ptr_line line_nb Hlen; [lia|].
  destruct ptr_line as [|x rest]; [by exists []|].
  set (ptr_line := String x rest) in *.
  cbn [exec_display_loop]. fold ptr_line.
  destruct (match strchr ptr_line LF with
            | Some n => weechat_strndup w ptr_line n
            | None => strdup w ptr_line
            end) as [line|]; [|by exists []].
  destruct (exec_decode_color w c (Some line)) as [line2|]; [|by exists []].
  destruct (strchr ptr_line LF) as [n|] eqn:Hpos.
  - destruct (IH (str_drop (S n) ptr_line) (int_add line_nb 1))
      as (evs & -> & Hevs).
    { pose proof (str_drop_at_lf_length _ _ Hpos). lia. }
    simpl. eexists. split; [done|].
    by rewrite List.filter_app, exec_display_line_no_timer, Hevs.
  - eexists. split; [done|]. apply exec_display_line_no_timer.
Qed.

Lemma exec_display_output_total w c buffer is_out :
  ∃ evs, exec_display_output w c buffer is_out = Some evs
         ∧ List.filter is_timer evs = [].
Proof.
  unfold exec_display_output.
  destruct (if is_out then out c else err c) as [text|]; [|by exists []].
  case_match; [by exists []|].
  apply exec_display_loop_total. lia.
Qed.

(** [exec_end_command] ends: it displays or sends the output, then
    requests the timer, and leaves the structure as [set_end] gives it. *)
Lemma exec_end_command_total w a c return_code :
  ∃ shown,
    exec_end_command w a c return_code
    = Some (shown ++ exec_end_timer w a,
            set_end (time_now w) return_code c)
    ∧ List.filter is_timer shown = [].
Proof.
  unfold exec_end_command. destruct (hsignal c) as [signal|].
  - destruct (weechat_hashtable_new w);
      [exists [weechat_hook_hsignal_send signal (exec_end_hashtable w c)]
      |exists []]; done.
  - destruct (exec_display_output_total w c
                (weechat_buffer_search w "==" (buffer_full_name c)) true)
      as (o & -> & Ho).
    destruct (exec_display_output_total w c
                (weechat_buffer_search w "==" (buffer_full_name c)) false)
      as (e & -> & He).
    simpl. eexists. split; [reflexivity|].
    rewrite !List.filter_app, Ho, He. simpl.
    unfold exec_end_rc. repeat (case_match; simpl; try reflexivity).
Qed.

(** The timer of [exec_end_command], when the product does not leave the
    range of [int]. *)
Lemma exec_end_timer_delay w a :
  exec_config_command_purge_delay w ≤ 2147483 →
  exec_end_timer w a
  = if bool_decide (0 ≤ exec_config_command_purge_delay w) then
      [weechat_hook_timer (1 + exec_config_command_purge_delay w * 1000)
         0 1 (Some a)]
    else [].
Proof.
  intros Hd. unfold exec_end_timer.
  destruct (decide (exec_config_command_purge_delay w >= 0)) as [Hpos|Hneg].
  - rewrite bool_decide_eq_true_2 by done.
    rewrite bool_decide_eq_true_2 by lia.
    unfold int_add, int_mul. rewrite (wrap_int_small (1000 * _)) by lia.
    rewrite wrap_int_small by lia. do 2 f_equal. lia.
  - rewrite bool_decide_eq_false_2 by done.
    by rewrite bool_decide_eq_false_2 by lia.
Qed.

Lemma find_address (h : gmap addr t_exec_cmd) (l : list addr) a :
  a ∈ l → (∀ x, x ∈ l → is_Some (h !! x)) →
  List.find (λ x, from_option (λ _, bool_decide (x = a)) false (h !! x)) l
  = Some a.
Proof.
  induction l as [|x l IH]; intros Hin Hlive.
  - by apply elem_of_nil in Hin.
  - simpl. destruct (Hlive x) as [cx ->]; [left|]. simpl.
    destruct (decide (x = a)) as [->|Hne].
    + by rewrite bool_decide_eq_true_2.
    + rewrite bool_decide_eq_false_2 by done.
      apply IH.
      * apply elem_of_cons in Hin as [?|?]; [congruence|done].
      * intros y Hy. apply Hlive. by right.
Qed.

(** The callback of the timer frees the command when it is in the list. *)
Lemma exec_timer_delete_cb_frees s l k a :
  registry s l → l !! k = Some a →
  ∃ ev s', exec_timer_delete_cb (Some a) s = Some (WEECHAT_RC_OK, ev, s')
           ∧ exec_free (Some a) s = Some (ev, s')
           ∧ registry s' (delete k l)
           ∧ heap s' !! a = None.
Proof.
  intros R Hk.
  destruct (exec_free_registry _ _ _ _ R Hk) as (ev & s' & Hfree & R').
  exists ev, s'. unfold exec_timer_delete_cb.
  rewrite (reg_first _ _ R), (registry_size _ _ R).
  rewrite (first_cmd_registry _ _ l (length l) 0); [| |lia].
  2:{ intros i x Hx.
      destruct (reg_links _ _ R _ _ Hx) as (c & ? & ? & ?); eauto. }
  rewrite drop_0.
  rewrite (first_in_find _ (λ x _, bool_decide (x = a)));
    [|intros x; apply (reg_dom _ _ R)].
  rewrite find_address;
    [|apply list_elem_of_lookup; eauto|intros x; apply (reg_dom _ _ R)].
  unfold mbind, option_bind. cbv beta iota. rewrite Hfree.
  split; [done|]. split; [done|]. split; [done|].
  apply (registry_fresh _ _ _ R').
  rewrite (elem_of_list_delete_index _ _ _ _ (reg_nodup _ _ R) Hk).
  by intros [_ ?].
Qed.

(** An invocation of [exec_process_cb] with a return code that ends the
    command runs [exec_end_command], whatever the state of the command. *)
Lemma exec_process_cb_terminal w s a c cmd return_code chunk_out chunk_err :
  heap s !! a = Some c → terminal w return_code →
  ∃ shown,
    exec_process_cb w (Some a) cmd return_code chunk_out chunk_err s
    = Some (WEECHAT_RC_OK,
            exec_process_debug w c return_code chunk_out chunk_err
            ++ shown ++ exec_end_timer w a,
            mk_exec
              (<[a := set_end (time_now w) (end_code w return_code)
                        (end_input w return_code chunk_out chunk_err c)]>
                 (heap s))
              (exec_cmds s) (last_exec_cmd s) (exec_cmds_count s))
    ∧ exec_end_command w a (end_input w return_code chunk_out chunk_err c)
        (end_code w return_code)
      = Some (shown ++ exec_end_timer w a,
              set_end (time_now w) (end_code w return_code)
                (end_input w return_code chunk_out chunk_err c))
    ∧ List.filter is_timer shown = [].
Proof.
  intros Hc Hrc.
  destruct (exec_end_command_total w a
              (end_input w return_code chunk_out chunk_err c)
              (end_code w return_code)) as (shown & Hend & Hshown).
  exists shown. split; [|done].
  unfold exec_process_cb. rewrite Hc. simpl.
  unfold end_input, end_code in Hend |- *.
  destruct (bool_decide (return_code = WEECHAT_HOOK_PROCESS_ERROR w)) eqn:He.
  - rewrite Hend. done.
  - rewrite bool_decide_eq_true_2.
    + rewrite Hend. done.
    + destruct Hrc as [->|?]; [|lia].
      by rewrite bool_decide_eq_true_2 in He.
Qed.

(** C4, as the code has it.  When the purge delay [d] is at most 2147483
    seconds, so that the product stays in the range of [int],
    [exec_end_command] ends and requests, when [d] is not negative, a
    single timer of [1 + d * 1000] milliseconds, not aligned on a second,
    called once, for the command; it requests no timer when [d] is
    negative.  The callback of this timer, [exec_timer_delete_cb] on the
    command, frees the command when it is still in the list. *)
Theorem exec_end_command_purge_timer w a c return_code :
  exec_config_command_purge_delay w ≤ 2147483 →
  ∃ evs,
    exec_end_command w a c return_code
    = Some (evs, set_end (time_now w) return_code c)
    ∧ List.filter is_timer evs
      = (if bool_decide (0 ≤ exec_config_command_purge_delay w) then
           [weechat_hook_timer (1 + exec_config_command_purge_delay w * 1000)
              0 1 (Some a)]
         else [])
    ∧ ∀ s l k, registry s l → l !! k = Some a →
        ∃ ev s',
          exec_timer_delete_cb (Some a) s = Some (WEECHAT_RC_OK, ev, s')
          ∧ registry s' (delete k l)
          ∧ heap s' !! a = None.
Proof.
  intros Hd.
  destruct (exec_end_command_total w a c return_code)
    as (shown & Hend & Hshown).
  exists (shown ++ exec_end_timer w a). split; [done|]. split.
  - rewrite List.filter_app, Hshown, (exec_end_timer_delay _ _ Hd). simpl.
    by case_bool_decide.
  - intros s l k R Hk.
    destruct (exec_timer_delete_cb_frees _ _ _ _ R Hk)
      as (ev & s' & ? & _ & ? & ?).
    eauto.
Qed.

Lemma exec_end_command_purge_timer_witness :
  ∃ evs,
    exec_end_command host_demo 1%positive cmd_demo 0
    = Some (evs, set_end (time_now host_demo) 0 cmd_demo)
    ∧ List.filter is_timer evs
      = (if bool_decide (0 ≤ exec_config_command_purge_delay host_demo) then
           [weechat_hook_timer
              (1 + exec_config_command_purge_delay host_demo * 1000)
              0 1 (Some 1%positive)]
         else [])
    ∧ ∀ s l k, registry s l → l !! k = Some 1%positive →
        ∃ ev s',
          exec_timer_delete_cb (Some 1%positive) s
          = Some (WEECHAT_RC_OK, ev, s')
          ∧ registry s' (delete k l)
          ∧ heap s' !! 1%positive = None.
Proof.
  apply (exec_end_command_purge_timer host_demo 1%positive cmd_demo 0).
  simpl. lia.
Defined.

(** C4 as stated fails: with a purge delay of one second the timer is
    requested for 1001 milliseconds, not for [max (1, 1000)] = 1000. *)
Lemma purge_timer_max_counterexample :
  List.filter is_timer
    (default [] (fst <$> exec_end_command host_demo 1%positive cmd_demo 0))
  = [weechat_hook_timer 1001 0 1 (Some 1%positive)]
  ∧ ¬ purge_timer_max host_demo 1%positive cmd_demo 0.
Proof.
  split; [by vm_compute|]. intros Hclaim.
  destruct (Hclaim
              (default []
                 (fst <$> exec_end_command host_demo 1%positive cmd_demo 0))
              (default cmd_demo
                 (snd <$> exec_end_command host_demo 1%positive cmd_demo 0)))
    as [Hpos _]; [by vm_compute|].
  assert (0 ≤ exec_config_command_purge_delay host_demo) as H0
    by (simpl; lia).
  specialize (Hpos H0). vm_compute in Hpos. discriminate Hpos.
Qed.




(** C3, as the code has it.  With the error code of the process hook,
    [exec_process_cb] on a command of the heap ends the command with the
    return code -1, clears its hook and sets its end time; -1 is also the
    return code that [exec_add] gives to a new command. *)
Theorem exec_process_cb_error_code w s a c (cmd : option string)
    (chunk_out chunk_err : option string) :
  heap s !! a = Some c →
  ∃ evs s' c',
    exec_process_cb w (Some a) cmd (WEECHAT_HOOK_PROCESS_ERROR w) chunk_out
      chunk_err s
    = Some (WEECHAT_RC_OK, evs, s')
    ∧ heap s' !! a = Some c'
    ∧ return_code c' = -1
    ∧ hook c' = None
    ∧ end_time c' = time_now w
    ∧ ∀ now b garbage s0 s1,
        exec_add now (Some (b, garbage)) s0 = Some (Some b, s1) →
        return_code <$> heap s1 !! b = Some (-1).
Proof.
  intros Hc.
  destruct (exec_process_cb_terminal w s a c cmd
              (WEECHAT_HOOK_PROCESS_ERROR w) chunk_out chunk_err Hc)
    as (shown & Hcb & _); [by left|].
  do 3 eexists. split; [exact Hcb|]. split; [apply lookup_insert_eq|].
  unfold end_code. rewrite bool_decide_eq_true_2 by done.
  split; [done|]. split; [done|]. split; [done|].
  intros now b garbage s0 s1. unfold exec_add.
  destruct (exec_add_number s0) as [n|]; [|done]. simpl.
  intros Hadd. apply bind_Some in Hadd as (h & _ & [= <-]).
  simpl. by rewrite lookup_insert_eq.
Qed.

Lemma exec_process_cb_error_code_witness :
  ∃ evs s' c',
    exec_process_cb host_demo (Some 1%positive) None
      (WEECHAT_HOOK_PROCESS_ERROR host_demo) None None state_running
    = Some (WEECHAT_RC_OK, evs, s')
    ∧ heap s' !! 1%positive = Some c'
    ∧ return_code c' = -1
    ∧ hook c' = None
    ∧ end_time c' = time_now host_demo
    ∧ ∀ now b garbage s0 s1,
        exec_add now (Some (b, garbage)) s0 = Some (Some b, s1) →
        return_code <$> heap s1 !! b = Some (-1).
Proof.
  apply (exec_process_cb_error_code host_demo state_running 1%positive
           cmd_running None None None).
  reflexivity.
Defined.

(** C3 as stated fails: a command that [exec_add] has just created has
    the return code -1, and so has it after the error code. *)
Lemma error_code_reserved_counterexample :
  return_code <$> heap state_added !! 1%positive = Some (-1)
  ∧ ¬ error_code_reserved host_demo state_added 1%positive.
Proof.
  split; [by vm_compute|]. intros Hclaim.
  set (r := exec_process_cb host_demo (Some 1%positive) None
              (WEECHAT_HOOK_PROCESS_ERROR host_demo) None None state_added).
  set (s' := default state_added (snd <$> r)).
  destruct (Hclaim (default blank (heap state_added !! 1%positive))
              WEECHAT_RC_OK (default [] ((snd ∘ fst) <$> r)) s'
              (default blank (heap s' !! 1%positive)))
    as [_ Hne]; [by vm_compute|by vm_compute|by vm_compute|].
  apply Hne. by vm_compute.
Qed.

(** C2, on the error code.  A running command receives the chunks
    "partial" and "oops" together with the error code of the process hook:
    [exec_process_cb] ends the command before it reads the chunks, so both
    streams stay empty and nothing of them is displayed.  With the return
    code 0 the same chunks are appended and displayed. *)
Theorem exec_process_cb_error_drops_chunks :
  (∃ evs s' c',
     exec_process_cb host_demo (Some 1%positive) None
       (WEECHAT_HOOK_PROCESS_ERROR host_demo) (Some "partial") (Some "oops")
       state_running
     = Some (WEECHAT_RC_OK, evs, s')
     ∧ heap s' !! 1%positive = Some c'
     ∧ out c' = None ∧ err c' = None
     ∧ length (List.filter is_output evs) = 1%nat)
  ∧ (∃ evs s' c',
       exec_process_cb host_demo (Some 1%positive) None 0 (Some "partial")
         (Some "oops") state_running
       = Some (WEECHAT_RC_OK, evs, s')
       ∧ heap s' !! 1%positive = Some c'
       ∧ out c' = Some "partial" ∧ err c' = Some "oops"
       ∧ length (List.filter is_output evs) = 3%nat).
Proof.
  split.
  - set (r := exec_process_cb host_demo (Some 1%positive) None
                (WEECHAT_HOOK_PROCESS_ERROR host_demo) (Some "partial")
                (Some "oops") state_running).
    exists (default [] ((snd ∘ fst) <$> r)),
           (default state_running (snd <$> r)),
           (default blank
              (heap (default state_running (snd <$> r)) !! 1%positive)).
    repeat split; by vm_compute.
  - set (r := exec_process_cb host_demo (Some 1%positive) None 0
                (Some "partial") (Some "oops") state_running).
    exists (default [] ((snd ∘ fst) <$> r)),
           (default state_running (snd <$> r)),
           (default blank
              (heap (default state_running (snd <$> r)) !! 1%positive)).
    repeat split; by vm_compute.
Qed.

End EndCommand.

(** * Further properties of exec.c *)

(** ** What exec_add and exec_free leave untouched *)

Section Frame.

Implicit Types (s : t_exec) (l : list addr) (h : gmap addr t_exec_cmd).

Lemma cmd_data_set_next p c : cmd_data (set_next_cmd p c) = cmd_data c.
Proof. reflexivity. Qed.

Lemma cmd_data_set_prev p c : cmd_data (set_prev_cmd p c) = cmd_data c.
Proof. reflexivity. Qed.

(** Writing a link of a node changes the data of no node. *)
Lemma cmd_data_insert_link h p cp (f : t_exec_cmd → t_exec_cmd) x :
  h !! p = Some cp → cmd_data (f cp) = cmd_data cp →
  cmd_data <$> <[p := f cp]> h !! x = cmd_data <$> h !! x.
Proof.
  intros Hp Hf. destruct (decide (x = p)) as [->|Hne].
  - rewrite lookup_insert_eq, Hp. simpl. by rewrite Hf.
  - by rewrite lookup_insert_ne.
Qed.

(** [exec_free] on a command [a]: the command must be allocated; the host
    is asked to remove its hook; the command is not allocated any more and
    the data of every other command is as before. *)
Lemma exec_free_frame a s ev s' :
  exec_free (Some a) s = Some (ev, s') →
  ∃ c, heap s !! a = Some c
       ∧ ev = unhook_events c
       ∧ heap s' !! a = None
       ∧ ∀ x, x ≠ a → cmd_data <$> heap s' !! x = cmd_data <$> heap s !! x.
Proof.
  unfold exec_free. destruct (heap s !! a) as [c|] eqn:Hc; [|done]. simpl.
  intros Hfree. exists c. split; [done|].
  apply bind_Some in Hfree as (h1 & Hh1 & Hfree).
  assert (∀ x, cmd_data <$> h1 !! x = cmd_data <$> heap s !! x) as H1.
  { intros x. destruct (prev_cmd c) as [p|]; [|by injection Hh1 as <-].
    apply bind_Some in Hh1 as (cp & Hp & [= <-]).
    by apply (cmd_data_insert_link _ _ _ (set_next_cmd (next_cmd c))). }
  apply bind_Some in Hfree as (c1 & Hc1 & Hfree).
  apply bind_Some in Hfree as (h2 & Hh2 & Hfree).
  assert (∀ x, cmd_data <$> h2 !! x = cmd_data <$> h1 !! x) as H2.
  { intros x. destruct (next_cmd c1) as [n|]; [|by injection Hh2 as <-].
    apply bind_Some in Hh2 as (cn & Hn & [= <-]).
    by apply (cmd_data_insert_link _ _ _ (set_prev_cmd (prev_cmd c1))). }
  apply bind_Some in Hfree as (c2 & Hc2 & [= <- <-]). simpl.
  split; [|split].
  - pose proof (H2 a) as Ha. rewrite (H1 a), Hc2, Hc in Ha.
    assert (cmd_data c2 = cmd_data c) as Hd by (simpl in Ha; congruence).
    unfold unhook_events. change (hook c2) with (hook (cmd_data c2)).
    by rewrite Hd.
  - apply lookup_delete_eq.
  - intros x Hx. rewrite lookup_delete_ne by done. by rewrite H2, H1.
Qed.

(** [exec_add] when [malloc] gives the block [a]: the data of the
    commands at other addresses is as before. *)
Lemma exec_add_frame now a garbage s r s' :
  exec_add now (Some (a, garbage)) s = Some (r, s') →
  ∀ x, x ≠ a → cmd_data <$> heap s' !! x = cmd_data <$> heap s !! x.
Proof.
  unfold exec_add. intros Hadd x Hx.
  apply bind_Some in Hadd as (n & _ & Hadd).
  apply bind_Some in Hadd as (h & Hh & [= _ <-]). simpl.
  rewrite lookup_insert_ne by done.
  destruct (exec_cmds s); [|by injection Hh as <-].
  destruct (last_exec_cmd s) as [z|]; [|done].
  apply bind_Some in Hh as (cz & Hz & [= <-]).
  by apply (cmd_data_insert_link _ _ _ (set_next_cmd (Some a))).
Qed.

End Frame.

Section FrameOps.

Implicit Types (s : t_exec) (l : list addr).

(** X4.  A creation or a removal changes nothing but links in the commands
    that are allocated before and after it: their numbers, names, hooks,
    options, outputs and return codes are as before. *)
Theorem exec_op_keeps_data s o s' x :
  exec_op s o = Some s' →
  is_Some (heap s !! x) → is_Some (heap s' !! x) →
  cmd_data <$> heap s' !! x = cmd_data <$> heap s !! x.
Proof.
  unfold exec_op. destruct (op_ok s o) eqn:Hok; [|done].
  destruct o as [now [[a garbage]|]|[a|]]; simpl in Hok.
  - intros Hop [cx Hx] _. apply bool_decide_eq_true in Hok.
    apply fmap_Some in Hop as ([r s1] & Hadd & ->).
    apply (exec_add_frame _ _ _ _ _ _ Hadd). congruence.
  - intros Hop _ _. apply fmap_Some in Hop as ([r s1] & Hadd & ->).
    unfold exec_add in Hadd. apply bind_Some in Hadd as (n & _ & [= _ <-]).
    done.
  - intros Hop _ [cx Hx]. apply fmap_Some in Hop as ([ev s1] & Hfree & ->).
    destruct (exec_free_frame _ _ _ _ Hfree) as (c & _ & _ & Hgone & Hframe).
    apply Hframe. simpl in Hx. congruence.
  - by intros [= <-].
Qed.

Lemma exec_op_keeps_data_witness :
  cmd_data
    <$> heap (default exec_init
                (exec_op state_reuse (op_free (Some 3%positive))))
        !! 2%positive
  = cmd_data <$> heap state_reuse !! 2%positive.
Proof.
  apply (exec_op_keeps_data state_reuse (op_free (Some 3%positive))).
  - vm_compute. reflexivity.
  - vm_compute. eauto.
  - vm_compute. eauto.
Defined.

Lemma unhook_events_data (o1 o2 : option t_exec_cmd) :
  cmd_data <$> o1 = cmd_data <$> o2 →
  from_option unhook_events [] o1 = from_option unhook_events [] o2.
Proof.
  destruct o1 as [c1|], o2 as [c2|]; simpl; try done.
  intros Hd. assert (cmd_data c1 = cmd_data c2) as Hd' by congruence.
  unfold unhook_events.
  change (hook c1) with (hook (cmd_data c1)).
  change (hook c2) with (hook (cmd_data c2)). by rewrite Hd'.
Qed.

Lemma flat_map_ext_elem (f g : addr → list event) (l : list addr) :
  (∀ x, x ∈ l → f x = g x) → flat_map f l = flat_map g l.
Proof.
  induction l as [|x l IH]; intros Hfg; [done|]. simpl.
  rewrite (Hfg x) by left. f_equal. apply IH. intros y Hy. apply Hfg.
  by right.
Qed.

(** The loop of [exec_free_all] frees the commands from the first to the
    last one. *)
Lemma exec_free_loop_registry l : ∀ s fuel,
  registry s l → (length l ≤ fuel)%nat →
  ∃ s', exec_free_loop fuel s
        = Some (flat_map (λ a, from_option unhook_events [] (heap s !! a)) l,
                s')
        ∧ registry s' [].
Proof.
  induction l as [|a l IH]; intros s fuel R Hfuel.
  - exists s. split; [|done].
    destruct fuel; simpl; by rewrite (reg_first _ _ R).
  - destruct fuel as [|fuel]; [simpl in Hfuel; lia|].
    cbn [exec_free_loop]. rewrite (reg_first _ _ R).
    change ((a :: l) !! 0%nat) with (Some a).
    destruct (exec_free_registry s (a :: l) 0 a R eq_refl)
      as (ev & s1 & Hfree & R1).
    change (registry s1 l) in R1.
    destruct (exec_free_frame _ _ _ _ Hfree) as (c & Hc & -> & _ & Hframe).
    rewrite Hfree. unfold mbind, option_bind. cbv beta iota.
    cbn [fst snd].
    destruct (IH s1 fuel R1) as (s' & -> & R'); [simpl in Hfuel; lia|].
    exists s'. split; [|done]. cbn [flat_map fst snd]. rewrite Hc.
    cbn [from_option]. do 3 f_equal.
    apply flat_map_ext_elem. intros x Hx. apply unhook_events_data, Hframe.
    intros ->. pose proof (reg_nodup _ _ R) as Hnd.
    by apply NoDup_cons in Hnd as [Hnotin _].
Qed.

(** X7.  On a well-formed list, [exec_free_all] ends; it asks the host to
    remove the hooks of the commands that have one, in list order, and
    leaves no command allocated and the two global pointers [NULL]. *)
Theorem exec_free_all_empties s l :
  registry s l →
  ∃ s', exec_free_all s
        = Some (flat_map (λ a, from_option unhook_events [] (heap s !! a)) l,
                s')
        ∧ heap s' = ∅ ∧ exec_cmds s' = None ∧ last_exec_cmd s' = None.
Proof.
  intros R. unfold exec_free_all. rewrite (registry_size _ _ R).
  destruct (exec_free_loop_registry l s (length l) R) as (s' & Hloop & R');
    [lia|].
  exists s'. split; [done|]. split; [|split].
  - apply map_empty. intros x. apply eq_None_not_Some.
    rewrite (reg_dom _ _ R'). apply not_elem_of_nil.
  - apply (reg_first _ _ R').
  - apply (reg_last _ _ R').
Qed.

Lemma registry_state_reuse :
  registry state_reuse [1%positive; 3%positive; 2%positive; 4%positive].
Proof. apply (registry_of_ops ops_reuse); vm_compute; reflexivity. Qed.

Lemma exec_free_all_empties_witness :
  ∃ s', exec_free_all state_reuse
        = Some (flat_map
                  (λ a, from_option unhook_events [] (heap state_reuse !! a))
                  [1%positive; 3%positive; 2%positive; 4%positive],
                s')
        ∧ heap s' = ∅ ∧ exec_cmds s' = None ∧ last_exec_cmd s' = None.
Proof.
  apply (exec_free_all_empties state_reuse
           [1%positive; 3%positive; 2%positive; 4%positive]
           registry_state_reuse).
Defined.

Lemma find_address_none (h : gmap addr t_exec_cmd) (l : list addr) a :
  a ∉ l →
  List.find (λ x, from_option (λ _, bool_decide (x = a)) false (h !! x)) l
  = None.
Proof.
  induction l as [|x l IH]; intros Hnotin; [done|]. simpl.
  apply not_elem_of_cons in Hnotin as [Hne Hnotin].
  destruct (h !! x); simpl; [|by apply IH].
  rewrite bool_decide_eq_false_2 by done. by apply IH.
Qed.

Lemma delete_last_app (l : list addr) (x : addr) :
  delete (length l) (l ++ [x]) = l.
Proof. induction l as [|y l IH]; [done|]. simpl. by rewrite IH. Qed.

(** X8.  The callback of the removal timer knows its command by the
    address only.  It does nothing when no command of the list is at this
    address: it walks the whole list, finds no node at the address and
    leaves the state as it is; this is the case right after [exec_free]
    has removed the command.  It is not the case any more once [malloc]
    has given the block of the removed command to a new command: the
    pointers are equal, and the callback of the old timer frees the new
    command. *)
Theorem exec_timer_delete_cb_by_address s l a :
  registry s l →
  (a ∉ l → exec_timer_delete_cb (Some a) s = Some (WEECHAT_RC_OK, [], s))
  ∧ ∀ k b ev s', l !! k = Some b →
      exec_free (Some b) s = Some (ev, s') →
      exec_timer_delete_cb (Some b) s' = Some (WEECHAT_RC_OK, [], s')
      ∧ ∀ now garbage,
          ∃ s'', exec_add now (Some (b, garbage)) s' = Some (Some b, s'')
            ∧ forward s'' = Some (delete k l ++ [b])
            ∧ ∃ ev2 s3,
                exec_timer_delete_cb (Some b) s''
                = Some (WEECHAT_RC_OK, ev2, s3)
                ∧ exec_free (Some b) s'' = Some (ev2, s3)
                ∧ forward s3 = Some (delete k l)
                ∧ heap s3 !! b = None.
Proof.
  assert (∀ s l a, registry s l → a ∉ l →
            exec_timer_delete_cb (Some a) s = Some (WEECHAT_RC_OK, [], s))
    as Hgone.
  { clear. intros s l a R Hnotin. unfold exec_timer_delete_cb.
    rewrite (reg_first _ _ R), (registry_size _ _ R).
    rewrite (first_cmd_registry _ _ l (length l) 0); [| |lia].
    2:{ intros i x Hx.
        destruct (reg_links _ _ R _ _ Hx) as (c & ? & ? & ?); eauto. }
    rewrite drop_0.
    rewrite (first_in_find _ (λ x _, bool_decide (x = a)));
      [|intros x; apply (reg_dom _ _ R)].
    by rewrite find_address_none. }
  intros R. split; [by apply Hgone|].
  intros k b ev s' Hk Hfree.
  destruct (exec_free_registry _ _ _ _ R Hk) as (ev' & s1 & Hfree' & R').
  assert (s1 = s') as -> by congruence.
  assert (b ∉ delete k l) as Hnotin.
  { rewrite (elem_of_list_delete_index _ _ _ _ (reg_nodup _ _ R) Hk).
    by intros [_ ?]. }
  split; [by apply (Hgone _ _ _ R')|].
  intros now garbage.
  destruct (exec_add_registry now b garbage _ _ R'
              (registry_fresh _ _ _ R' Hnotin)) as (s'' & Hadd & R'').
  exists s''. split; [done|]. split; [by apply registry_forward|].
  destruct (exec_timer_delete_cb_frees s'' _ (length (delete k l)) b R'')
    as (ev2 & s3 & Hcb & Hfree2 & R3 & Hb).
  { by apply list_lookup_middle. }
  rewrite delete_last_app in R3.
  exists ev2, s3. split; [done|]. split; [done|].
  split; [by apply registry_forward|done].
Qed.

Lemma exec_timer_delete_cb_by_address_witness :
  (9%positive ∉ [1%positive; 3%positive; 2%positive; 4%positive] →
   exec_timer_delete_cb (Some 9%positive) state_reuse
   = Some (WEECHAT_RC_OK, [], state_reuse))
  ∧ ∀ k b ev s',
      [1%positive; 3%positive; 2%positive; 4%positive] !! k = Some b →
      exec_free (Some b) state_reuse = Some (ev, s') →
      exec_timer_delete_cb (Some b) s' = Some (WEECHAT_RC_OK, [], s')
      ∧ ∀ now garbage,
          ∃ s'', exec_add now (Some (b, garbage)) s' = Some (Some b, s'')
            ∧ forward s''
              = Some (delete k
                        [1%positive; 3%positive; 2%positive; 4%positive]
                      ++ [b])
            ∧ ∃ ev2 s3,
                exec_timer_delete_cb (Some b) s''
                = Some (WEECHAT_RC_OK, ev2, s3)
                ∧ exec_free (Some b) s'' = Some (ev2, s3)
                ∧ forward s3
                  = Some (delete k
                            [1%positive; 3%positive; 2%positive; 4%positive])
                ∧ heap s3 !! b = None.
Proof.
  apply (exec_timer_delete_cb_by_address state_reuse
           [1%positive; 3%positive; 2%positive; 4%positive] 9%positive
           registry_state_reuse).
Defined.

End FrameOps.

(** ** The counter of commands *)

Section Count.
Local Open Scope Z_scope.

Implicit Types (s : t_exec) (l : list addr).

Lemma wrap_int_add_l x y : wrap_int (wrap_int x + y) = wrap_int (x + y).
Proof.
  unfold wrap_int. f_equal.
  replace ((x + 2147483648) mod 4294967296 - 2147483648 + y + 2147483648)
    with ((x + 2147483648) mod 4294967296 + y) by lia.
  rewrite Zplus_mod_idemp_l. f_equal. lia.
Qed.

Lemma exec_add_count now a garbage s r s' :
  exec_add now (Some (a, garbage)) s = Some (r, s') →
  exec_cmds_count s' = int_add (exec_cmds_count s) 1.
Proof.
  unfold exec_add. intros Hadd.
  apply bind_Some in Hadd as (n & _ & Hadd).
  by apply bind_Some in Hadd as (h & _ & [= _ <-]).
Qed.

Lemma exec_free_count a s ev s' :
  exec_free (Some a) s = Some (ev, s') →
  exec_cmds_count s' = int_add (exec_cmds_count s) (-1).
Proof.
  unfold exec_free. intros Hfree.
  apply bind_Some in Hfree as (c & _ & Hfree).
  apply bind_Some in Hfree as (h1 & _ & Hfree).
  apply bind_Some in Hfree as (c1 & _ & Hfree).
  apply bind_Some in Hfree as (h2 & _ & Hfree).
  by apply bind_Some in Hfree as (c2 & _ & [= _ <-]).
Qed.

(** One creation or removal keeps the counter equal to the length of the
    list, as an [int]. *)
Lemma exec_op_count s l o s' :
  registry s l →
  exec_cmds_count s = wrap_int (Z.of_nat (length l)) →
  exec_op s o = Some s' →
  ∃ l', registry s' l'
        ∧ exec_cmds_count s' = wrap_int (Z.of_nat (length l')).
Proof.
  intros R Hcount. unfold exec_op. destruct (op_ok s o) eqn:Hok; [|done].
  destruct o as [now [[a garbage]|]|[a|]]; simpl in Hok.
  - apply bool_decide_eq_true in Hok. intros Hop.
    apply fmap_Some in Hop as ([r s1] & Hadd & ->).
    destruct (exec_add_registry now a garbage _ _ R Hok) as (s2 & Hadd' & R').
    assert (s2 = s1) as -> by congruence.
    exists (l ++ [a]). split; [done|]. simpl.
    rewrite (exec_add_count _ _ _ _ _ _ Hadd), Hcount. unfold int_add.
    rewrite wrap_int_add_l, length_app. simpl. f_equal. lia.
  - rewrite (exec_add_fail now _ _ R). simpl. intros [= <-]. eauto.
  - apply bool_decide_eq_true in Hok. intros Hop.
    apply fmap_Some in Hop as ([ev s1] & Hfree & ->).
    apply (reg_dom _ _ R) in Hok. apply list_elem_of_lookup in Hok as [k Hk].
    destruct (exec_free_registry _ _ _ _ R Hk) as (ev' & s2 & Hfree' & R').
    assert (s2 = s1) as -> by congruence.
    exists (delete k l). split; [done|]. simpl.
    rewrite (exec_free_count _ _ _ _ Hfree), Hcount. unfold int_add.
    rewrite wrap_int_add_l, length_delete by eauto.
    pose proof (lookup_lt_Some _ _ _ Hk). f_equal. lia.
  - intros [= <-]. eauto.
Qed.

(** X5.  After every sequence of creations and removals, [exec_cmds_count] is
    the number of commands of the list, as an [int]: the number itself as
    long as there are less than 2^31 commands.  A creation that fails for
    lack of memory does not count. *)
Theorem exec_cmds_count_is_length (ops : list t_op) (s : t_exec) :
  exec_ops exec_init ops = Some s →
  ∃ l, forward s = Some l
       ∧ exec_cmds_count s = wrap_int (Z.of_nat (length l))
       ∧ (Z.of_nat (length l) < 2147483648 →
          exec_cmds_count s = Z.of_nat (length l)).
Proof.
  assert (∀ ops s l s',
            registry s l →
            exec_cmds_count s = wrap_int (Z.of_nat (length l)) →
            exec_ops s ops = Some s' →
            ∃ l', registry s' l'
                  ∧ exec_cmds_count s' = wrap_int (Z.of_nat (length l')))
    as Hrun.
  { clear. induction ops as [|o ops IH]; intros s l s' R Hc Hops.
    - injection Hops as <-. eauto.
    - simpl in Hops. apply bind_Some in Hops as (s1 & Hop & Hops).
      destruct (exec_op_count _ _ _ _ R Hc Hop) as (l1 & R1 & Hc1). eauto. }
  intros Hops.
  destruct (Hrun ops exec_init [] s registry_init eq_refl Hops)
    as (l & R & Hc).
  exists l. split; [by apply registry_forward|]. split; [done|].
  intros Hlen. rewrite Hc. apply wrap_int_small. lia.
Qed.

Lemma exec_cmds_count_is_length_witness :
  ∃ l, forward state_reuse = Some l
       ∧ exec_cmds_count state_reuse = wrap_int (Z.of_nat (length l))
       ∧ (Z.of_nat (length l) < 2147483648 →
          exec_cmds_count state_reuse = Z.of_nat (length l)).
Proof.
  apply (exec_cmds_count_is_length ops_reuse state_reuse).
  vm_compute. reflexivity.
Defined.

End Count.

(** ** The callback of the process and the list *)

Section ProcessList.

Implicit Types (s : t_exec) (l : list addr) (w : t_weechat).

(** Replacing a structure by one that has the same links keeps the
    list. *)
Lemma registry_update s l a c c' :
  registry s l → heap s !! a = Some c →
  prev_cmd c' = prev_cmd c → next_cmd c' = next_cmd c →
  registry (mk_exec (<[a := c']> (heap s)) (exec_cmds s) (last_exec_cmd s)
              (exec_cmds_count s)) l.
Proof.
  intros R Hc Hp Hn. split; simpl;
    [apply (reg_nodup _ _ R)|apply (reg_first _ _ R)|apply (reg_last _ _ R)
    | |].
  - intros x. rewrite <- (reg_dom _ _ R).
    destruct (decide (x = a)) as [->|Hne].
    + rewrite lookup_insert_eq, Hc. split; eauto.
    + by rewrite lookup_insert_ne.
  - intros i x Hx. destruct (reg_links _ _ R _ _ Hx) as (cx & Hcx & Hpx & Hnx).
    destruct (decide (x = a)) as [->|Hne].
    + rewrite lookup_insert_eq. exists c'. split; [done|].
      assert (cx = c) as -> by congruence. by rewrite Hp, Hn.
    + rewrite lookup_insert_ne by done. eauto.
Qed.

Lemma exec_process_concat_links w chunk_out chunk_err c :
  prev_cmd (exec_process_concat w chunk_out chunk_err c) = prev_cmd c
  ∧ next_cmd (exec_process_concat w chunk_out chunk_err c) = next_cmd c
  ∧ number (exec_process_concat w chunk_out chunk_err c) = number c
  ∧ name (exec_process_concat w chunk_out chunk_err c) = name c.
Proof.
  unfold exec_process_concat. by destruct chunk_out, chunk_err.
Qed.

(** X15.  Whatever the return code and the chunks, [exec_process_cb] on a
    command of a well-formed list is defined and returns
    [WEECHAT_RC_OK]; it writes in the structure of this command only,
    keeps its number, its name and its two links, and leaves the two
    global pointers and the counter: the list is the same after the
    call. *)
Theorem exec_process_cb_keeps_list w s l a c (cmd : option string)
    (return_code : Z) (chunk_out chunk_err : option string) :
  registry s l → heap s !! a = Some c →
  ∃ ev c',
    exec_process_cb w (Some a) cmd return_code chunk_out chunk_err s
    = Some (WEECHAT_RC_OK, ev,
            mk_exec (<[a := c']> (heap s)) (exec_cmds s) (last_exec_cmd s)
              (exec_cmds_count s))
    ∧ number c' = number c ∧ name c' = name c
    ∧ prev_cmd c' = prev_cmd c ∧ next_cmd c' = next_cmd c
    ∧ registry
        (mk_exec (<[a := c']> (heap s)) (exec_cmds s) (last_exec_cmd s)
           (exec_cmds_count s)) l.
Proof.
  intros R Hc.
  assert (∃ ev c',
    exec_process_cb w (Some a) cmd return_code chunk_out chunk_err s
    = Some (WEECHAT_RC_OK, ev,
            mk_exec (<[a := c']> (heap s)) (exec_cmds s) (last_exec_cmd s)
              (exec_cmds_count s))
    ∧ number c' = number c ∧ name c' = name c
    ∧ prev_cmd c' = prev_cmd c ∧ next_cmd c' = next_cmd c)
    as (ev & c' & Hcb & Hnum & Hname & Hp & Hn).
  { destruct (exec_process_concat_links w chunk_out chunk_err c)
      as (Hp & Hn & Hnum & Hname).
    destruct (decide (terminal w return_code)) as [Hterm|Hrun].
    - destruct (exec_process_cb_terminal w s a c cmd return_code chunk_out
                  chunk_err Hc Hterm) as (shown & -> & _).
      do 2 eexists. split; [reflexivity|]. unfold end_input.
      by destruct (bool_decide (return_code = WEECHAT_HOOK_PROCESS_ERROR w)).
    - unfold terminal in Hrun. unfold exec_process_cb. rewrite Hc. simpl.
      rewrite bool_decide_eq_false_2 by tauto.
      rewrite bool_decide_eq_false_2 by lia.
      do 2 eexists. split; [reflexivity|]. done. }
  exists ev, c'. repeat (split; [done|]).
  by apply (registry_update _ _ _ c).
Qed.

Lemma exec_process_cb_keeps_list_witness :
  ∃ ev c',
    exec_process_cb host_demo (Some 1%positive) None (-1) (Some "x") None
      state_named
    = Some (WEECHAT_RC_OK, ev,
            mk_exec (<[1%positive := c']> (heap state_named))
              (exec_cmds state_named) (last_exec_cmd state_named)
              (exec_cmds_count state_named))
    ∧ number c' = number (default blank (heap state_named !! 1%positive))
    ∧ name c' = name (default blank (heap state_named !! 1%positive))
    ∧ prev_cmd c'
      = prev_cmd (default blank (heap state_named !! 1%positive))
    ∧ next_cmd c'
      = next_cmd (default blank (heap state_named !! 1%positive))
    ∧ registry
        (mk_exec (<[1%positive := c']> (heap state_named))
           (exec_cmds state_named) (last_exec_cmd state_named)
           (exec_cmds_count state_named)) [1%positive; 2%positive].
Proof.
  apply (exec_process_cb_keeps_list host_demo state_named
           [1%positive; 2%positive] 1%positive
           (default blank (heap state_named !! 1%positive)) None (-1)
           (Some "x") None registry_state_named).
  vm_compute. reflexivity.
Defined.

End ProcessList.

(** ** Accumulation of the output *)

Section Accumulate.

Implicit Types (s : t_exec) (w : t_weechat) (c : t_exec_cmd).

Lemma str_append_assoc (s1 s2 s3 : string) :
  (s1 +:+ s2) +:+ s3 = s1 +:+ (s2 +:+ s3).
Proof.
  induction s1 as [|x s1 IH]; [done|].
  change (String x ((s1 +:+ s2) +:+ s3) = String x (s1 +:+ s2 +:+ s3)).
  by rewrite IH.
Qed.

Lemma exec_concat_output_fits w (size : Z) (output : option string)
    (text : string) :
  size = strlen (default "" output) →
  size + strlen text < 2147483648 →
  exec_concat_output w size output text
  = if can_alloc w (size + strlen text + 1) then
      (strlen (default "" output +:+ text),
       Some (default "" output +:+ text))
    else (size, output).
Proof.
  intros Hsize Hlen. unfold exec_concat_output, int_add.
  pose proof (strlen_nonneg text).
  pose proof (strlen_nonneg (default "" output)).
  rewrite (wrap_int_small (strlen text)) by lia.
  rewrite wrap_int_small by lia.
  destruct (can_alloc w (size + strlen text + 1)); [|done].
  rewrite strlen_append, <- Hsize. f_equal. f_equal. f_equal.
  apply substring_all. rewrite Hsize. unfold strlen. lia.
Qed.

(** X12.  [exec_concat_output] on a stream whose size is the length of its
    text: when the total length fits in an [int], the text is put at the
    end of the stream and the size is the new length if memory is given;
    the stream and its size do not change if memory is refused.  In both
    cases the new size is the length of the new text. *)
Theorem exec_concat_output_appends w (size : Z) (output : option string)
    (text : string) :
  size = strlen (default "" output) →
  size + strlen text < 2147483648 →
  exec_concat_output w size output text
  = (if can_alloc w (size + strlen text + 1) then
       (strlen (default "" output +:+ text),
        Some (default "" output +:+ text))
     else (size, output))
  ∧ (exec_concat_output w size output text).1
    = strlen (default "" (exec_concat_output w size output text).2).
Proof.
  intros Hsize Hlen.
  rewrite (exec_concat_output_fits w size output text Hsize Hlen).
  split; [done|].
  by destruct (can_alloc w (size + strlen text + 1)).
Qed.

Lemma exec_concat_output_appends_witness :
  exec_concat_output host_demo 3 (Some "abc") "de"
  = (if can_alloc host_demo (3 + strlen "de" + 1) then
       (strlen (default "" (Some "abc") +:+ "de"),
        Some (default "" (Some "abc") +:+ "de"))
     else (3, Some "abc"))
  ∧ (exec_concat_output host_demo 3 (Some "abc") "de").1
    = strlen (default "" (exec_concat_output host_demo 3 (Some "abc") "de").2).
Proof.
  apply (exec_concat_output_appends host_demo 3 (Some "abc") "de").
  - reflexivity.
  - vm_compute. reflexivity.
Defined.

(** The two calls of [exec_process_cb] to [exec_concat_output], when
    memory is given and the lengths fit in an [int]. *)
Lemma exec_process_concat_appends w chunk_out chunk_err c :
  (∀ n, can_alloc w n = true) → streams_ok c →
  strlen (default "" (out c)) + from_option strlen 0 chunk_out < 2147483648 →
  strlen (default "" (err c)) + from_option strlen 0 chunk_err < 2147483648 →
  out (exec_process_concat w chunk_out chunk_err c)
  = append_chunk (out c) chunk_out
  ∧ err (exec_process_concat w chunk_out chunk_err c)
    = append_chunk (err c) chunk_err
  ∧ streams_ok (exec_process_concat w chunk_out chunk_err c)
  ∧ hook (exec_process_concat w chunk_out chunk_err c) = hook c
  ∧ return_code (exec_process_concat w chunk_out chunk_err c)
    = return_code c
  ∧ hsignal (exec_process_concat w chunk_out chunk_err c) = hsignal c
  ∧ buffer_full_name (exec_process_concat w chunk_out chunk_err c)
    = buffer_full_name c.
Proof.
  intros Halloc [Hout Herr] Hlo Hle. unfold exec_process_concat.
  assert (∀ t, strlen (default "" (out c)) + strlen t < 2147483648 →
            exec_concat_output w (out_size c) (out c) t
            = (strlen (default "" (out c) +:+ t),
               Some (default "" (out c) +:+ t))) as Eo.
  { intros t Ht. rewrite exec_concat_output_fits, Halloc; [done|done|].
    by rewrite Hout. }
  assert (∀ t, strlen (default "" (err c)) + strlen t < 2147483648 →
            exec_concat_output w (err_size c) (err c) t
            = (strlen (default "" (err c) +:+ t),
               Some (default "" (err c) +:+ t))) as Ee.
  { intros t Ht. rewrite exec_concat_output_fits, Halloc; [done|done|].
    by rewrite Herr. }
  destruct chunk_out as [to|], chunk_err as [te|];
    cbn [from_option] in Hlo, Hle;
    cbn [set_out set_err out err out_size err_size];
    rewrite ?Eo, ?Ee by done;
    unfold streams_ok; repeat split; done.
Qed.

Lemma exec_display_lines_concat w chunk_out chunk_err c buffer is_out lines :
  ∀ line_nb,
    exec_display_lines w (exec_process_concat w chunk_out chunk_err c) buffer
      is_out line_nb lines
    = exec_display_lines w c buffer is_out line_nb lines.
Proof.
  induction lines as [|line lines IH]; intros line_nb; [done|].
  simpl. rewrite IH. f_equal.
  unfold exec_process_concat. by destruct chunk_out, chunk_err.
Qed.

(** X13.  An invocation of [exec_process_cb] for a command that is still
    running (a negative return code that is not the error code), when
    memory is given and the lengths fit in an [int]: each chunk is put at
    the end of its stream, the sizes follow, nothing is displayed or sent,
    no timer is requested, and the hook and the return code of the command
    do not change.  Two chunks received one after the other give the
    stream that their concatenation gives. *)
Theorem exec_process_cb_accumulates w s a c (cmd : option string)
    (rc : Z) (chunk_out chunk_err : option string) :
  (∀ n, can_alloc w n = true) →
  heap s !! a = Some c → streams_ok c →
  rc < 0 → rc ≠ WEECHAT_HOOK_PROCESS_ERROR w →
  strlen (default "" (out c)) + from_option strlen 0 chunk_out < 2147483648 →
  strlen (default "" (err c)) + from_option strlen 0 chunk_err < 2147483648 →
  ∃ c',
    exec_process_cb w (Some a) cmd rc chunk_out chunk_err s
    = Some (WEECHAT_RC_OK, exec_process_debug w c rc chunk_out chunk_err,
            mk_exec (<[a := c']> (heap s)) (exec_cmds s) (last_exec_cmd s)
              (exec_cmds_count s))
    ∧ out c' = append_chunk (out c) chunk_out
    ∧ err c' = append_chunk (err c) chunk_err
    ∧ streams_ok c'
    ∧ hook c' = hook c ∧ return_code c' = return_code c
    ∧ List.filter is_output (exec_process_debug w c rc chunk_out chunk_err)
      = []
    ∧ List.filter is_timer (exec_process_debug w c rc chunk_out chunk_err)
      = []
    ∧ ∀ t1 t2 : string,
        append_chunk (append_chunk (out c) (Some t1)) (Some t2)
        = append_chunk (out c) (Some (t1 +:+ t2)).
Proof.
  intros Halloc Hc Hok Hneg Herr Hlo Hle.
  destruct (exec_process_concat_appends w chunk_out chunk_err c Halloc Hok
              Hlo Hle) as (Ho & He & Hok' & Hhook & Hrc & _).
  exists (exec_process_concat w chunk_out chunk_err c).
  split; [|repeat (split; [done|])].
  - unfold exec_process_cb. rewrite Hc. simpl.
    rewrite bool_decide_eq_false_2 by done.
    by rewrite bool_decide_eq_false_2 by lia.
  - split; [|split].
    + unfold exec_process_debug. by case_bool_decide.
    + unfold exec_process_debug. by case_bool_decide.
    + intros t1 t2. simpl. by rewrite str_append_assoc.
Qed.

Lemma exec_process_cb_accumulates_witness :
  ∃ c',
    exec_process_cb host_demo (Some 1%positive) None (-1) (Some "a") None
      state_running
    = Some (WEECHAT_RC_OK,
            exec_process_debug host_demo cmd_running (-1) (Some "a") None,
            mk_exec (<[1%positive := c']> (heap state_running))
              (exec_cmds state_running) (last_exec_cmd state_running)
              (exec_cmds_count state_running))
    ∧ out c' = append_chunk (out cmd_running) (Some "a")
    ∧ err c' = append_chunk (err cmd_running) None
    ∧ streams_ok c'
    ∧ hook c' = hook cmd_running ∧ return_code c' = return_code cmd_running
    ∧ List.filter is_output
        (exec_process_debug host_demo cmd_running (-1) (Some "a") None)
      = []
    ∧ List.filter is_timer
        (exec_process_debug host_demo cmd_running (-1) (Some "a") None)
      = []
    ∧ ∀ t1 t2 : string,
        append_chunk (append_chunk (out cmd_running) (Some t1)) (Some t2)
        = append_chunk (out cmd_running) (Some (t1 +:+ t2)).
Proof.
  apply (exec_process_cb_accumulates host_demo state_running 1%positive
           cmd_running None (-1) (Some "a") None).
  - reflexivity.
  - reflexivity.
  - split; reflexivity.
  - lia.
  - simpl. lia.
  - vm_compute. reflexivity.
  - vm_compute. reflexivity.
Defined.

(** X14.  The invocation of [exec_process_cb] that brings the return code of
    the child (not negative), for a command that is not exported with a
    hsignal, when the host answers every request, the lengths fit in an
    [int] and the output is not sent to a buffer that does not exist: the
    last chunks are put at the end of the streams first, then the lines of
    the whole standard output are displayed, numbered from 1, then those
    of the whole standard error, numbered from 1, then the return code if
    asked, and the timer is requested. *)
Theorem exec_process_cb_displays_all w s a c (cmd : option string)
    (rc : Z) (chunk_out chunk_err : option string) :
  host_serves w →
  heap s !! a = Some c → streams_ok c → hsignal c = None →
  0 ≤ rc → rc ≠ WEECHAT_HOOK_PROCESS_ERROR w →
  strlen (default "" (out c)) + from_option strlen 0 chunk_out < 2147483648 →
  strlen (default "" (err c)) + from_option strlen 0 chunk_err < 2147483648 →
  (output_to_buffer c = true → pipe_command c = None →
   is_Some (weechat_buffer_search w "==" (buffer_full_name c))) →
  ∃ s',
    exec_process_cb w (Some a) cmd rc chunk_out chunk_err s
    = Some (WEECHAT_RC_OK,
            exec_process_debug w c rc chunk_out chunk_err
            ++ (display_stream w c
                  (weechat_buffer_search w "==" (buffer_full_name c)) true
                  (append_chunk (out c) chunk_out)
                ++ display_stream w c
                     (weechat_buffer_search w "==" (buffer_full_name c))
                     false (append_chunk (err c) chunk_err)
                ++ exec_end_rc w c
                     (weechat_buffer_search w "==" (buffer_full_name c)) rc)
            ++ exec_end_timer w a,
            s').
Proof.
  intros Hw Hc Hok Hsig Hrc Herr Hlo Hle Hbuf.
  pose proof Hw as (Halloc & _).
  destruct (exec_process_concat_appends w chunk_out chunk_err c Halloc Hok
              Hlo Hle) as (Ho & He & _ & _ & _ & Hsig' & Hname).
  set (c2 := exec_process_concat w chunk_out chunk_err c) in *.
  assert (∀ is_out output,
            (if is_out : bool then out c2 else err c2) = output →
            exec_display_output w c2
              (weechat_buffer_search w "==" (buffer_full_name c)) is_out
            = Some (display_stream w c
                      (weechat_buffer_search w "==" (buffer_full_name c))
                      is_out output)) as Hdisp.
  { intros is_out output Hstream. destruct output as [text|].
    - rewrite (exec_display_output_serves w c2 _ is_out text Hw Hstream).
      + simpl. unfold c2. by rewrite exec_display_lines_concat.
      + unfold c2, exec_process_concat.
        destruct chunk_out, chunk_err; exact Hbuf.
    - unfold exec_display_output. by rewrite Hstream. }
  eexists. unfold exec_process_cb. rewrite Hc. simpl.
  rewrite bool_decide_eq_false_2 by done.
  rewrite bool_decide_eq_true_2 by lia. fold c2.
  unfold exec_end_command. rewrite Hsig', Hsig, Hname.
  rewrite (Hdisp true _ Ho), (Hdisp false _ He). simpl.
  do 3 f_equal. f_equal. f_equal. f_equal.
  unfold c2, exec_process_concat, exec_end_rc.
  by destruct chunk_out, chunk_err.
Qed.

Lemma exec_process_cb_displays_all_witness :
  ∃ s',
    exec_process_cb host_demo (Some 1%positive) None 0 (Some two_lines_lf)
      None state_running
    = Some (WEECHAT_RC_OK,
            exec_process_debug host_demo cmd_running 0 (Some two_lines_lf)
              None
            ++ (display_stream host_demo cmd_running
                  (weechat_buffer_search host_demo "=="
                     (buffer_full_name cmd_running)) true
                  (append_chunk (out cmd_running) (Some two_lines_lf))
                ++ display_stream host_demo cmd_running
                     (weechat_buffer_search host_demo "=="
                        (buffer_full_name cmd_running))
                     false (append_chunk (err cmd_running) None)
                ++ exec_end_rc host_demo cmd_running
                     (weechat_buffer_search host_demo "=="
                        (buffer_full_name cmd_running)) 0)
            ++ exec_end_timer host_demo 1%positive,
            s').
Proof.
  apply (exec_process_cb_displays_all host_demo state_running 1%positive
           cmd_running None 0 (Some two_lines_lf) None).
  - repeat split; intros; simpl; eauto.
  - reflexivity.
  - split; reflexivity.
  - reflexivity.
  - lia.
  - simpl. lia.
  - vm_compute. reflexivity.
  - vm_compute. reflexivity.
  - simpl. discriminate.
Defined.

End Accumulate.

(** ** What exec_search_by_id finds *)

Section SearchResult.

Implicit Types (s : t_exec) (l : list addr).

Lemma exec_search_test_true id n c :
  exec_search_test id n c = true
  ↔ (0 ≤ n ∧ number c = wrap_int n) ∨ name c = Some id.
Proof.
  unfold exec_search_test.
  repeat case_bool_decide; simpl; split; intros Hm; try done;
    try (destruct Hm as [[? ?]|?]; (done || lia));
    try (by right); left; split; (done || lia).
Qed.

(** X9.  On a well-formed list, [exec_search_by_id] ends.  The command it
    returns is in the list and has the number that [strtol] reads in the
    string (when this number is not negative and no character is left) or
    the string as name; it returns [NULL] exactly when no command of the
    list has this number or this name.  For a string that is not such a
    number, only the names count. *)
Theorem exec_search_by_id_result s l id :
  registry s l →
  (∀ a, exec_search_by_id id s = Some (Some a) →
     a ∈ l ∧ ∃ c, heap s !! a = Some c
                  ∧ ((0 ≤ exec_search_number id
                      ∧ number c = wrap_int (exec_search_number id))
                     ∨ name c = Some id))
  ∧ (exec_search_by_id id s = Some None
     ↔ ∀ a c, heap s !! a = Some c →
         ¬ ((0 ≤ exec_search_number id
             ∧ number c = wrap_int (exec_search_number id))
            ∨ name c = Some id))
  ∧ is_Some (exec_search_by_id id s)
  ∧ (exec_search_number id < 0 →
     ∀ a c, exec_search_by_id id s = Some (Some a) →
       heap s !! a = Some c → name c = Some id).
Proof.
  intros R. rewrite (exec_search_by_id_find _ _ _ R).
  assert (∀ a, List.find (exec_search_match id s) l = Some a →
            a ∈ l ∧ ∃ c, heap s !! a = Some c
                         ∧ ((0 ≤ exec_search_number id
                             ∧ number c = wrap_int (exec_search_number id))
                            ∨ name c = Some id)) as Hsound.
  { intros a Hfind. apply List.find_some in Hfind as [Hin Hmatch].
    apply list_elem_of_In in Hin. split; [done|].
    unfold exec_search_match in Hmatch.
    destruct (heap s !! a) as [c|]; [|done]. exists c. split; [done|].
    by apply exec_search_test_true. }
  split; [|split; [|split]].
  - intros a [= Hfind]. by apply Hsound.
  - split.
    + intros [= Hfind] a c Hc Hmatch.
      pose proof (List.find_none _ _ Hfind a) as Hnone.
      unfold exec_search_match in Hnone. rewrite Hc in Hnone. simpl in Hnone.
      apply exec_search_test_true in Hmatch. rewrite Hmatch in Hnone.
      assert (a ∈ l) as Hin by (apply (reg_dom _ _ R); eauto).
      apply list_elem_of_In in Hin. by specialize (Hnone Hin).
    + intros Hnone. f_equal.
      destruct (List.find (exec_search_match id s) l) as [a|] eqn:Hfind;
        [|done].
      destruct (Hsound a eq_refl) as (_ & c & Hc & Hmatch).
      by destruct (Hnone a c Hc).
  - eauto.
  - intros Hneg a c [= Hfind] Hc.
    destruct (Hsound a Hfind) as (_ & c' & Hc' & [[? _]|Hname]); [lia|].
    congruence.
Qed.

Lemma exec_search_by_id_result_witness :
  (∀ a, exec_search_by_id "1" state_named = Some (Some a) →
     a ∈ [1%positive; 2%positive]
     ∧ ∃ c, heap state_named !! a = Some c
            ∧ ((0 ≤ exec_search_number "1"
                ∧ number c = wrap_int (exec_search_number "1"))
               ∨ name c = Some "1"))
  ∧ (exec_search_by_id "1" state_named = Some None
     ↔ ∀ a c, heap state_named !! a = Some c →
         ¬ ((0 ≤ exec_search_number "1"
             ∧ number c = wrap_int (exec_search_number "1"))
            ∨ name c = Some "1"))
  ∧ is_Some (exec_search_by_id "1" state_named)
  ∧ (exec_search_number "1" < 0 →
     ∀ a c, exec_search_by_id "1" state_named = Some (Some a) →
       heap state_named !! a = Some c → name c = Some "1").
Proof.
  apply (exec_search_by_id_result state_named [1%positive; 2%positive] "1"
           registry_state_named).
Defined.

End SearchResult.

(** ** A creation undone, and the number of a creation *)

Section AddFree.

Implicit Types (s : t_exec) (l : list addr).

Lemma set_next_cmd_back p c :
  next_cmd c = None → set_next_cmd None (set_next_cmd p c) = c.
Proof. destruct c. simpl. by intros ->. Qed.

(** X3.  [exec_free] on the command that [exec_add] has just created gives the
    state back, the counter of commands being in the range of [int]: no
    call to the host, the same structures, the same two global pointers.
    When [malloc] fails, [exec_add] returns [NULL] and leaves the state as
    it is. *)
Theorem exec_add_then_free now a garbage s l :
  registry s l → heap s !! a = None →
  wrap_int (exec_cmds_count s) = exec_cmds_count s →
  (∃ s1, exec_add now (Some (a, garbage)) s = Some (Some a, s1)
         ∧ exec_free (Some a) s1 = Some ([], s))
  ∧ exec_add now None s = Some (None, s).
Proof.
  intros R Hfresh Hcount. split; [|by apply (exec_add_fail _ _ l)].
  assert (int_add (int_add (exec_cmds_count s) 1) (-1) = exec_cmds_count s)
    as Hcount'.
  { unfold int_add. rewrite wrap_int_add_l.
    by replace (exec_cmds_count s + 1 + -1) with (exec_cmds_count s) by lia. }
  assert (a ∉ l) as Hnotin.
  { intros Hin. apply (reg_dom _ _ R) in Hin as [? ?]. congruence. }
  unfold exec_add.
  destruct (exec_add_number_defined _ _ R) as [n ->]. simpl.
  destruct l as [|f l0] using rev_ind.
  - pose proof (reg_first _ _ R) as Hfirst. pose proof (reg_last _ _ R) as Hl.
    simpl in Hfirst, Hl. rewrite Hfirst, Hl. simpl.
    eexists. split; [reflexivity|].
    unfold exec_free. simpl. rewrite lookup_insert_eq. simpl.
    rewrite lookup_insert_eq. simpl. rewrite lookup_insert_eq. simpl.
    rewrite !decide_True by done. rewrite Hcount'.
    rewrite delete_insert_id by done.
    destruct s; simpl in *; by subst.
  - clear IHl0.
    assert ((l0 ++ [f]) !! length l0 = Some f) as Hf
      by (by rewrite list_lookup_middle).
    assert (last_exec_cmd s = Some f) as Hlast.
    { rewrite (reg_last _ _ R), length_app. simpl.
      by replace (length l0 + 1)%nat with (S (length l0)) by lia. }
    assert (∃ g, exec_cmds s = Some g ∧ g ≠ a) as (g & Hfirst & Hga).
    { destruct (lookup_lt_is_Some_2 (l0 ++ [f]) 0) as [g Hg].
      { rewrite length_app. simpl. lia. }
      exists g. rewrite (reg_first _ _ R). split; [done|].
      intros ->. apply Hnotin. apply list_elem_of_lookup. eauto. }
    destruct (reg_links _ _ R _ _ Hf) as (cf & Hcf & _ & Hnf).
    assert (next_cmd cf = None) as Hnf'.
    { rewrite Hnf. apply lookup_ge_None_2. rewrite length_app. simpl. lia. }
    assert (f ≠ a) as Hfa.
    { intros ->. apply Hnotin. apply list_elem_of_lookup. eauto. }
    rewrite Hfirst, Hlast, Hcf. simpl.
    eexists. split; [reflexivity|].
    unfold exec_free. simpl. rewrite lookup_insert_eq. simpl.
    rewrite lookup_insert_ne, lookup_insert_eq by done. simpl.
    rewrite lookup_insert_ne, lookup_insert_eq by done. simpl.
    rewrite lookup_insert_ne, lookup_insert_eq by done. simpl.
    rewrite decide_False by congruence. rewrite decide_True by done.
    rewrite Hcount', set_next_cmd_back by done. do 2 f_equal.
    assert (delete a
              (<[f := cf]>
                 (<[a := {| number := n; name := None; hook := None;
                            command := None; pid := 0; detached := false;
                            start_time := now; end_time := 0;
                            output_to_buffer := false;
                            buffer_full_name := None; line_numbers := false;
                            display_rc := false; color := color garbage;
                            out_size := 0; out := None; err_size := 0;
                            err := None; return_code := -1;
                            pipe_command := None; hsignal := None;
                            prev_cmd := Some f; next_cmd := None |}]>
                    (<[f := set_next_cmd (Some a) cf]> (heap s))))
            = heap s) as ->.
    { apply map_eq. intros x. destruct (decide (x = a)) as [->|Hxa].
      - by rewrite lookup_delete_eq.
      - rewrite lookup_delete_ne by done.
        destruct (decide (x = f)) as [->|Hxf].
        + by rewrite lookup_insert_eq.
        + by rewrite !lookup_insert_ne by done. }
    destruct s; simpl in *; by subst.
Qed.

Lemma exec_add_then_free_witness :
  (∃ s1, exec_add 20 (Some (9%positive, blank)) state_reuse
         = Some (Some 9%positive, s1)
         ∧ exec_free (Some 9%positive) s1 = Some ([], state_reuse))
  ∧ exec_add 20 None state_reuse = Some (None, state_reuse).
Proof.
  apply (exec_add_then_free 20 9%positive blank state_reuse
           [1%positive; 3%positive; 2%positive; 4%positive]
           registry_state_reuse).
  - vm_compute. reflexivity.
  - vm_compute. reflexivity.
Defined.

End AddFree.

Section LeastUnused.

Implicit Types (s : t_exec) (l : list addr) (ns : list Z).

Lemma increasing_bounds ns : ∀ prev d x,
  increasing prev ns → x ∈ ns → prev < x ≤ List.last ns d.
Proof.
  induction ns as [|n ns IH]; intros prev d x Hinc Hx.
  - by apply elem_of_nil in Hx.
  - destruct Hinc as [Hn Hinc]. destruct ns as [|n' ns'].
    + apply list_elem_of_singleton in Hx as ->. simpl. lia.
    + change (List.last (n :: n' :: ns') d) with (List.last (n' :: ns') d).
      apply elem_of_cons in Hx as [->|Hx].
      * destruct (IH n d n' Hinc) as [? ?]; [left|]. lia.
      * destruct (IH n d x Hinc Hx) as [? ?]. lia.
Qed.

(** The loop of [exec_add] on numbers that grow along the list. *)
Lemma first_gap_increasing ns : ∀ prev,
  increasing prev ns → 0 ≤ prev →
  (∀ x, x ∈ prev :: ns → x < 2147483647) →
  match first_gap prev ns with
  | Some g => (prev < g) ∧ (g ∉ ns) ∧ ∀ m, prev < m < g → m ∈ ns
  | None => ∀ m, prev < m ≤ List.last ns prev → m ∈ ns
  end.
Proof.
  induction ns as [|n ns IH]; intros prev Hinc Hprev Hmax.
  - simpl. intros m Hm. lia.
  - destruct Hinc as [Hn Hinc]. cbn [first_gap].
    assert (int_add prev 1 = prev + 1) as ->.
    { apply wrap_int_small. pose proof (Hmax prev ltac:(left)). lia. }
    case_bool_decide as Hgap.
    + split; [lia|]. split; [|intros m Hm; lia].
      intros Hin. apply elem_of_cons in Hin as [?|Hin]; [lia|].
      destruct (increasing_bounds ns n 0 (prev + 1) Hinc Hin). lia.
    + assert (n = prev + 1) as Hn' by lia.
      specialize (IH n Hinc ltac:(lia)).
      assert (∀ x, x ∈ n :: ns → x < 2147483647) as Hmax'.
      { intros x Hx. apply Hmax. by right. }
      specialize (IH Hmax').
      destruct (first_gap n ns) as [g|].
      * destruct IH as (Hg & Hnotin & Hbelow). split; [lia|]. split.
        -- intros Hin. apply elem_of_cons in Hin as [?|?]; [lia|done].
        -- intros m Hm. destruct (decide (m = n)) as [->|Hne]; [left|].
           right. apply Hbelow. lia.
      * intros m Hm. destruct (decide (m = n)) as [->|Hne]; [left|].
        right. apply IH. split; [lia|].
        destruct ns as [|n' ns']; [simpl in Hm; lia|].
        destruct Hm as [_ Hm].
        change (List.last (n :: n' :: ns') prev)
          with (List.last (n' :: ns') prev) in Hm.
        destruct (increasing_bounds (n' :: ns') n prev n' Hinc) as [_ H1];
          [left|].
        destruct (increasing_bounds (n' :: ns') n n n' Hinc) as [_ H2];
          [left|].
        assert (List.last (n' :: ns') prev = List.last (n' :: ns') n) as <-;
          [|done].
        clear. revert n'. induction ns' as [|y r IHr]; intros n'; [done|].
        change (List.last (n' :: y :: r) prev) with (List.last (y :: r) prev).
        change (List.last (n' :: y :: r) n) with (List.last (y :: r) n).
        apply IHr.
Qed.

(** The number that [exec_add] chooses when the numbers grow along the
    list from 0. *)
Lemma next_number_least ns :
  (ns = [] ∨ ∃ rest, ns = 0 :: rest ∧ increasing 0 rest) →
  (∀ x, x ∈ ns → x < 2147483647) →
  least_unused ns (next_number ns).
Proof.
  intros [->|(rest & -> & Hinc)] Hmax.
  - split; [done|]. split; [apply not_elem_of_nil|]. intros m Hm. simpl in Hm.
    lia.
  - unfold next_number.
    pose proof (first_gap_increasing rest 0 Hinc ltac:(lia) Hmax) as Hgap.
    destruct (first_gap 0 rest) as [g|].
    + change (least_unused (0 :: rest) g).
      destruct Hgap as (Hg & Hnotin & Hbelow). split; [lia|]. split.
      * intros Hin. apply elem_of_cons in Hin as [?|?]; [lia|done].
      * intros m Hm. destruct (decide (m = 0)) as [->|Hne]; [left|].
        right. apply Hbelow. lia.
    + change (least_unused (0 :: rest)
                (int_add (List.last (0 :: rest) 0) 1)).
      assert (0 ≤ List.last (0 :: rest) 0 < 2147483647) as Hlast.
      { destruct rest as [|n' r]; [simpl; lia|].
        change (List.last (0 :: n' :: r) 0) with (List.last (n' :: r) 0).
        destruct (increasing_bounds (n' :: r) 0 0 n' Hinc) as [? ?]; [left|].
        split; [lia|]. apply Hmax. right.
        destruct (exists_last (l := n' :: r)) as (r' & z & Hz); [done|].
        rewrite Hz, List.last_last. apply elem_of_app. right. left. }
      assert (int_add (List.last (0 :: rest) 0) 1
              = List.last (0 :: rest) 0 + 1) as ->.
      { apply wrap_int_small. lia. }
      assert (List.last (0 :: rest) 0 = List.last rest 0) as Hl.
      { by destruct rest. }
      split; [lia|]. split.
      * intros Hin. apply elem_of_cons in Hin as [?|Hin]; [lia|].
        destruct (increasing_bounds rest 0 0 _ Hinc Hin). lia.
      * intros m Hm. destruct (decide (m = 0)) as [->|Hne]; [left|].
        right. apply Hgap. lia.
Qed.

(** X6.  As long as the numbers of the commands grow along the list from 0, as
    they do when no freed number has been given again and the first
    command has not been freed, [exec_add] gives the smallest number that
    is not in use. *)
Theorem exec_add_least_unused now a garbage s l ns :
  registry s l → numbers s = Some ns → heap s !! a = None →
  (ns = [] ∨ ∃ rest, ns = 0 :: rest ∧ increasing 0 rest) →
  (∀ x, x ∈ ns → x < 2147483647) →
  ∃ s' n,
    exec_add now (Some (a, garbage)) s = Some (Some a, s')
    ∧ number <$> heap s' !! a = Some n
    ∧ numbers s' = Some (ns ++ [n])
    ∧ least_unused ns n.
Proof.
  intros R Hns Hfresh Hinc Hmax.
  rewrite (numbers_registry _ _ R) in Hns. injection Hns as Hns.
  destruct (exec_add_numbers now a garbage _ _ R Hfresh)
    as (s' & Hadd & R' & Hn).
  rewrite Hns in Hn.
  exists s', (next_number ns). split; [done|].
  split; [|split].
  - rewrite fmap_app in Hn. simpl in Hn.
    apply app_inj_tail in Hn as [_ Hn]. unfold number_at in Hn.
    destruct (heap s' !! a) as [c|] eqn:Hc; simpl in *; [by rewrite Hn|].
    assert (a ∈ l ++ [a]) as Hin by (apply elem_of_app; right; left).
    apply (reg_dom _ _ R') in Hin as [? ?]. congruence.
  - by rewrite (numbers_registry _ _ R'), Hn.
  - by apply next_number_least.
Qed.

Lemma exec_add_least_unused_witness :
  ∃ s' n,
    exec_add 30 (Some (5%positive, blank)) state_named
    = Some (Some 5%positive, s')
    ∧ number <$> heap s' !! 5%positive = Some n
    ∧ numbers s' = Some ([0; 1] ++ [n])
    ∧ least_unused [0; 1] n.
Proof.
  apply (exec_add_least_unused 30 5%positive blank state_named
           [1%positive; 2%positive] [0; 1] registry_state_named).
  - vm_compute. reflexivity.
  - vm_compute. reflexivity.
  - right. exists [1]. split; [reflexivity|]. simpl. split; [lia|done].
  - intros x Hx. apply elem_of_cons in Hx as [->|Hx]; [lia|].
    apply list_elem_of_singleton in Hx as ->. lia.
Defined.

End LeastUnused.

(** ** Where the output goes *)

Section Routing.

Implicit Types (w : t_weechat) (c : t_exec_cmd) (a : addr).

(** X16.  The output of a command that is sent to a buffer is dropped when the
    buffer is not found at the end of the command (it has been closed) and
    the command is not piped: [exec_end_command] displays nothing, on no
    buffer, not even the return code, whatever the two streams hold; it
    only requests the timer and ends the command. *)
Theorem exec_end_command_closed_buffer w a c (rc : Z) :
  hsignal c = None → output_to_buffer c = true → pipe_command c = None →
  weechat_buffer_search w "==" (buffer_full_name c) = None →
  exec_end_command w a c rc
  = Some (exec_end_timer w a, set_end (time_now w) rc c).
Proof.
  intros Hsig Hbuf Hpipe Hsearch. unfold exec_end_command.
  rewrite Hsig, Hsearch.
  assert (∀ is_out, exec_display_output w c None is_out = Some []) as Hnone.
  { intros is_out. unfold exec_display_output. rewrite Hbuf, Hpipe.
    by destruct (if is_out then out c else err c). }
  rewrite !Hnone. simpl. unfold exec_end_rc. rewrite Hbuf.
  by rewrite andb_false_r.
Qed.

Lemma exec_end_command_closed_buffer_witness :
  exec_end_command host_demo 1%positive cmd_to_buffer 0
  = Some (exec_end_timer host_demo 1%positive,
          set_end (time_now host_demo) 0 cmd_to_buffer).
Proof.
  apply (exec_end_command_closed_buffer host_demo 1%positive cmd_to_buffer 0);
    reflexivity.
Defined.

(** X17.  A command that has a hsignal is not displayed: [exec_end_command]
    sends one hsignal, when the host gives the hashtable, and requests the
    timer.  The hashtable has the five keys "command", "number", "name",
    "out" and "err" and no other; "out" and "err" hold the two streams
    after [exec_decode_color], "name" and "command" may hold [NULL].
    Nothing is sent when the host gives no hashtable. *)
Theorem exec_end_command_hsignal w a c (rc : Z) (signal : string) :
  hsignal c = Some signal →
  exec_end_command w a c rc
  = Some ((if weechat_hashtable_new w
           then [weechat_hook_hsignal_send signal (exec_end_hashtable w c)]
           else []) ++ exec_end_timer w a,
          set_end (time_now w) rc c)
  ∧ exec_end_hashtable w c !! "command" = Some (command c)
  ∧ exec_end_hashtable w c !! "number"
    = Some (Some (snprintf 32 (string_of_int (number c))))
  ∧ exec_end_hashtable w c !! "name" = Some (name c)
  ∧ exec_end_hashtable w c !! "out"
    = Some (exec_decode_color w c (out c))
  ∧ exec_end_hashtable w c !! "err"
    = Some (exec_decode_color w c (err c))
  ∧ ∀ key, is_Some (exec_end_hashtable w c !! key) →
      key ∈ ["command"; "number"; "name"; "out"; "err"].
Proof.
  intros Hsig. split.
  - unfold exec_end_command. rewrite Hsig.
    by destruct (weechat_hashtable_new w).
  - unfold exec_end_hashtable.
    repeat split; try (by simplify_map_eq).
    intros key [x Hx]. rewrite !lookup_insert in Hx.
    repeat case_decide; subst; set_solver.
Qed.

Lemma exec_end_command_hsignal_witness :
  exec_end_command host_demo 1%positive cmd_hsignal 0
  = Some ((if weechat_hashtable_new host_demo
           then [weechat_hook_hsignal_send "exec_done"
                   (exec_end_hashtable host_demo cmd_hsignal)]
           else []) ++ exec_end_timer host_demo 1%positive,
          set_end (time_now host_demo) 0 cmd_hsignal)
  ∧ exec_end_hashtable host_demo cmd_hsignal !! "command"
    = Some (command cmd_hsignal)
  ∧ exec_end_hashtable host_demo cmd_hsignal !! "number"
    = Some (Some (snprintf 32 (string_of_int (number cmd_hsignal))))
  ∧ exec_end_hashtable host_demo cmd_hsignal !! "name"
    = Some (name cmd_hsignal)
  ∧ exec_end_hashtable host_demo cmd_hsignal !! "out"
    = Some (exec_decode_color host_demo cmd_hsignal (out cmd_hsignal))
  ∧ exec_end_hashtable host_demo cmd_hsignal !! "err"
    = Some (exec_decode_color host_demo cmd_hsignal (err cmd_hsignal))
  ∧ ∀ key, is_Some (exec_end_hashtable host_demo cmd_hsignal !! key) →
      key ∈ ["command"; "number"; "name"; "out"; "err"].
Proof.
  apply (exec_end_command_hsignal host_demo 1%positive cmd_hsignal 0
           "exec_done").
  reflexivity.
Defined.

(** X18.  A line piped to a command that has no "$line": the line is put after
    the command and one space, in full (the block allocated for it is
    large enough), and sent as one command to the buffer, whatever the
    line number and the option on line numbers. *)
Theorem exec_display_line_pipe_appends w c (buffer : option t_gui_buffer)
    (is_out : bool) (line_nb : Z) (pipe line : string) :
  pipe_command c = Some pipe → strstr pipe "$line" = false →
  can_alloc w (strlen pipe + 1 + strlen line + 1) = true →
  strlen pipe + 1 + strlen line + 1 < 2147483648 →
  exec_display_line w c buffer is_out line_nb line
  = [weechat_command buffer (pipe +:+ " " +:+ line)].
Proof.
  intros Hpipe Hstr Halloc Hlen. unfold exec_display_line.
  pose proof (strlen_nonneg pipe). pose proof (strlen_nonneg line).
  rewrite Hpipe, Hstr, wrap_int_small, Halloc by lia.
  do 2 f_equal. unfold snprintf. apply substring_all.
  rewrite !str_length_append. unfold strlen. simpl. lia.
Qed.

Lemma exec_display_line_pipe_appends_witness :
  exec_display_line host_demo cmd_pipe None true 1 "Linux"
  = [weechat_command None ("/say" +:+ " " +:+ "Linux")].
Proof.
  apply (exec_display_line_pipe_appends host_demo cmd_pipe None true 1
           "/say" "Linux"); vm_compute; reflexivity.
Defined.

End Routing.

(** ** Names of the color actions *)

Section Colors.

(** X11.  [exec_search_color] with a comparison that tells a name equal to
    itself and the three names of [exec_color_string] different from each
    other: a name of the table gives its index, which is the constant of
    the enumeration that [exec_decode_color] tests; [NULL] gives -1; any
    string gives -1 when no name of the table compares equal to it, else
    the index of the first name that does. *)
Theorem exec_search_color_index (cmp : string → string → Z) :
  (∀ x, cmp x x = 0) →
  cmp "ansi" "decode" ≠ 0 → cmp "ansi" "strip" ≠ 0 →
  cmp "decode" "strip" ≠ 0 →
  exec_search_color cmp None = -1
  ∧ exec_search_color cmp (Some "ansi") = EXEC_COLOR_ANSI
  ∧ exec_search_color cmp (Some "decode") = EXEC_COLOR_DECODE
  ∧ exec_search_color cmp (Some "strip") = EXEC_COLOR_STRIP
  ∧ ∀ color,
      (exec_search_color cmp (Some color) = -1
       ∧ ∀ n, n ∈ exec_color_string → cmp n color ≠ 0)
      ∨ ∃ i n, exec_search_color cmp (Some color) = Z.of_nat i
               ∧ exec_color_string !! i = Some n
               ∧ cmp n color = 0
               ∧ ∀ j m, (j < i)%nat → exec_color_string !! j = Some m →
                   cmp m color ≠ 0.
Proof.
  intros Hrefl Had Has Hds. split; [done|].
  unfold exec_search_color, exec_color_string. simpl.
  rewrite !(bool_decide_eq_true_2 _ (Hrefl _)).
  rewrite !bool_decide_eq_false_2 by done.
  repeat split; try done.
  intros color.
  destruct (decide (cmp "ansi" color = 0)) as [H0|H0].
  { right. exists 0%nat, "ansi". rewrite bool_decide_eq_true_2 by done.
    repeat split; try done. intros j m Hj. lia. }
  rewrite (bool_decide_eq_false_2 _ H0).
  destruct (decide (cmp "decode" color = 0)) as [H1|H1].
  { right. exists 1%nat, "decode". rewrite bool_decide_eq_true_2 by done.
    repeat split; try done.
    intros [|j] m Hj Hm; [|lia]. by injection Hm as <-. }
  rewrite (bool_decide_eq_false_2 _ H1).
  destruct (decide (cmp "strip" color = 0)) as [H2|H2].
  { right. exists 2%nat, "strip". rewrite bool_decide_eq_true_2 by done.
    repeat split; try done.
    intros [|[|j]] m Hj Hm; [| |lia]; by injection Hm as <-. }
  rewrite (bool_decide_eq_false_2 _ H2). left. split; [done|].
  intros n Hn. repeat (apply elem_of_cons in Hn as [->|Hn]; [done|]).
  by apply elem_of_nil in Hn.
Qed.

Lemma exec_search_color_index_witness :
  exec_search_color strcmp_exact None = -1
  ∧ exec_search_color strcmp_exact (Some "ansi") = EXEC_COLOR_ANSI
  ∧ exec_search_color strcmp_exact (Some "decode") = EXEC_COLOR_DECODE
  ∧ exec_search_color strcmp_exact (Some "strip") = EXEC_COLOR_STRIP
  ∧ ∀ color,
      (exec_search_color strcmp_exact (Some color) = -1
       ∧ ∀ n, n ∈ exec_color_string → strcmp_exact n color ≠ 0)
      ∨ ∃ i n, exec_search_color strcmp_exact (Some color) = Z.of_nat i
               ∧ exec_color_string !! i = Some n
               ∧ strcmp_exact n color = 0
               ∧ ∀ j m, (j < i)%nat → exec_color_string !! j = Some m →
                   strcmp_exact m color ≠ 0.
Proof.
  apply (exec_search_color_index strcmp_exact).
  - intros x. unfold strcmp_exact. by rewrite bool_decide_eq_true_2.
  - vm_compute. discriminate.
  - vm_compute. discriminate.
  - vm_compute. discriminate.
Defined.

End Colors.

(** ** The number of a command, printed and read back *)

Section Decimal.

Lemma strtol_digit c rest :
  is_Some (digit_value c) →
  strtol (String c rest)
  = (Z.max LONG_MIN (Z.min LONG_MAX (read_digits 0 (String c rest)).1),
     (read_digits 0 (String c rest)).2).
Proof.
  intros [k Hk]. unfold strtol.
  assert (isspace c = false ∧ c ≠ "-"%char ∧ c ≠ "+"%char) as (Hsp & Hm & Hp).
  { destruct c as [[|] [|] [|] [|] [|] [|] [|] [|]];
      vm_compute in Hk; try discriminate Hk; repeat split; discriminate. }
  cbn [skip_spaces]. rewrite Hsp.
  assert ((match String c rest with
           | String "-" s' => (true, s')
           | String "+" s' => (false, s')
           | _ => (false, String c rest)
           end) = (false, String c rest)) as ->.
  { destruct c as [[|] [|] [|] [|] [|] [|] [|] [|]]; try reflexivity;
      by (exfalso; (apply Hm || apply Hp)). }
  rewrite Hk. by destruct (read_digits 0 (String c rest)).
Qed.

Lemma read_digits_acc d : ∀ acc : positive,
  read_digits (Z.pos acc) (NilEmpty.string_of_uint d)
  = (Z.pos (Pos.of_uint_acc d acc), "").
Proof.
  induction d; intros acc; cbn [NilEmpty.string_of_uint read_digits];
    [reflexivity|..];
    match goal with
    | |- context [digit_value ?c] =>
        let v := eval vm_compute in (digit_value c) in
        change (digit_value c) with v; cbv iota beta
    end;
    cbn [Pos.of_uint_acc]; rewrite <- IHd; f_equal; lia.
Qed.

Lemma read_digits_of_uint d :
  read_digits 0 (NilEmpty.string_of_uint d) = (Z.of_N (Pos.of_uint d), "").
Proof.
  induction d; cbn [NilEmpty.string_of_uint read_digits];
    [reflexivity|..];
    match goal with
    | |- context [digit_value ?c] =>
        let v := eval vm_compute in (digit_value c) in
        change (digit_value c) with v; cbv iota beta
    end;
    cbn [Pos.of_uint]; [exact IHd|..];
    match goal with
    | |- read_digits ?z _ = (Z.of_N (N.pos (Pos.of_uint_acc _ ?acc)), _) =>
        change z with (Z.pos acc)
    end;
    apply read_digits_acc.
Qed.

Lemma string_of_uint_digit u :
  u ≠ Decimal.Nil →
  ∃ c rest, NilEmpty.string_of_uint u = String c rest
            ∧ is_Some (digit_value c).
Proof.
  destruct u; [done|..]; intros _; do 2 eexists;
    (split; [reflexivity|vm_compute; eauto]).
Qed.

(** [strtol] reads the text that ["%d"] prints for a number from 0 to
    [LONG_MAX] as this number, up to the end of the text. *)
Lemma strtol_string_of_int n :
  0 ≤ n ≤ LONG_MAX → strtol (string_of_int n) = (n, "").
Proof.
  intros Hn. destruct n as [|p|p]; [reflexivity| |lia].
  unfold string_of_int. cbn [Z.to_int NilZero.string_of_int].
  pose proof (DecimalPos.Unsigned.of_to p) as Hp.
  pose proof (read_digits_of_uint (Pos.to_uint p)) as Hread.
  rewrite Hp in Hread.
  assert (Pos.to_uint p ≠ Decimal.Nil) as Hnil.
  { intros Hu. rewrite Hu in Hp. discriminate Hp. }
  assert (NilZero.string_of_uint (Pos.to_uint p)
          = NilEmpty.string_of_uint (Pos.to_uint p)) as ->.
  { by destruct (Pos.to_uint p). }
  destruct (string_of_uint_digit _ Hnil) as (c & rest & Hs & Hc).
  rewrite Hs in Hread |- *. rewrite (strtol_digit _ _ Hc), Hread.
  cbn [fst snd]. f_equal. change (Z.of_N (N.pos p)) with (Z.pos p).
  unfold LONG_MIN, LONG_MAX in *. lia.
Qed.

(** X10.  The number of a command that is printed with ["%d"], as in the tag
    exec_cmd_N of its lines, is read back by [exec_search_by_id]: for a
    number [n] from 0 to 2147483647, the search for its decimal text looks
    for the number [n], and gives on a well-formed list the first command
    that has the number [n] or this text as name. *)
Theorem exec_search_by_id_decimal s l (n : Z) :
  registry s l → 0 ≤ n ≤ 2147483647 →
  exec_search_number (string_of_int n) = n
  ∧ exec_search_by_id (string_of_int n) s
    = Some (List.find (number_or_name n (string_of_int n) s) l).
Proof.
  intros R Hn.
  assert (exec_search_number (string_of_int n) = n) as Hnum.
  { unfold exec_search_number. rewrite strtol_string_of_int; [done|].
    unfold LONG_MAX. lia. }
  split; [done|].
  rewrite (exec_search_by_id_number_or_name _ _ _ R) by lia.
  by rewrite Hnum, wrap_int_small by lia.
Qed.

Lemma exec_search_by_id_decimal_witness :
  exec_search_number (string_of_int 1) = 1
  ∧ exec_search_by_id (string_of_int 1) state_named
    = Some (List.find (number_or_name 1 (string_of_int 1) state_named)
              [1%positive; 2%positive]).
Proof.
  apply (exec_search_by_id_decimal state_named [1%positive; 2%positive] 1
           registry_state_named).
  lia.
Defined.

End Decimal.

(** ** The order of the list *)

Section Order.

Implicit Types (s : t_exec) (l : list addr).

(** X1.  [exec_add] puts the new command at the end of the list, so that the
    list is in the order of the creations: on a well-formed list [l] and a
    block [a] given by [malloc], the list walked from [exec_cmds] is [l]
    followed by [a], the list walked from [last_exec_cmd] is [a] followed
    by [l] reversed.  The new command has no name, no hook, no output, the
    return code -1 and the start time of the clock. *)
Theorem exec_add_appends now a garbage s l :
  registry s l → heap s !! a = None →
  ∃ s' c,
    exec_add now (Some (a, garbage)) s = Some (Some a, s')
    ∧ forward s' = Some (l ++ [a])
    ∧ backward s' = Some (a :: rev l)
    ∧ last_exec_cmd s' = Some a
    ∧ heap s' !! a = Some c
    ∧ name c = None ∧ hook c = None ∧ out c = None ∧ err c = None
    ∧ return_code c = -1 ∧ start_time c = now ∧ end_time c = 0.
Proof.
  intros R Hfresh.
  destruct (exec_add_registry now a garbage _ _ R Hfresh) as (s' & Hadd & R').
  assert (∃ c, heap s' !! a = Some c
               ∧ name c = None ∧ hook c = None ∧ out c = None ∧ err c = None
               ∧ return_code c = -1 ∧ start_time c = now ∧ end_time c = 0)
    as (c & Hc & Hfields).
  { unfold exec_add in Hadd.
    apply bind_Some in Hadd as (n & _ & Hadd).
    apply bind_Some in Hadd as (h & _ & [= <-]).
    eexists. split; [apply lookup_insert_eq|]. done. }
  exists s', c. split; [done|]. split; [by apply registry_forward|].
  split.
  { rewrite (registry_backward _ _ R'), rev_app_distr. done. }
  split; [|done].
  rewrite (reg_last _ _ R'), length_app. simpl.
  replace (length l + 1)%nat with (S (length l)) by lia.
  simpl. by rewrite list_lookup_middle.
Qed.

Lemma exec_add_appends_witness :
  ∃ s' c,
    exec_add 20 (Some (9%positive, blank)) state_reuse
    = Some (Some 9%positive, s')
    ∧ forward s'
      = Some ([1%positive; 3%positive; 2%positive; 4%positive]
              ++ [9%positive])
    ∧ backward s'
      = Some (9%positive
              :: rev [1%positive; 3%positive; 2%positive; 4%positive])
    ∧ last_exec_cmd s' = Some 9%positive
    ∧ heap s' !! 9%positive = Some c
    ∧ name c = None ∧ hook c = None ∧ out c = None ∧ err c = None
    ∧ return_code c = -1 ∧ start_time c = 20 ∧ end_time c = 0.
Proof.
  apply (exec_add_appends 20 9%positive blank state_reuse
           [1%positive; 3%positive; 2%positive; 4%positive]
           registry_state_reuse).
  vm_compute. reflexivity.
Defined.

(** X2.  [exec_free] takes the command out of the list and keeps the others in
    their order: on a well-formed list [l] whose node at position [k] is
    [a], the list walked from [exec_cmds] is [l] without its element at
    position [k], the list walked from [last_exec_cmd] is the same
    reversed, the numbers of the list are those of [l] without the one at
    position [k], and [a] is not allocated any more. *)
Theorem exec_free_removes s l k a :
  registry s l → l !! k = Some a →
  ∃ ev s' ns,
    exec_free (Some a) s = Some (ev, s')
    ∧ forward s' = Some (delete k l)
    ∧ backward s' = Some (rev (delete k l))
    ∧ numbers s = Some ns
    ∧ numbers s' = Some (delete k ns)
    ∧ heap s' !! a = None.
Proof.
  intros R Hk.
  destruct (exec_free_numbers _ _ _ _ R Hk) as (ev & s' & Hfree & R' & Hn).
  exists ev, s', (number_at s <$> l). split; [done|].
  split; [by apply registry_forward|].
  split; [by apply registry_backward|].
  split; [by apply numbers_registry|].
  split; [by rewrite (numbers_registry _ _ R'), Hn|].
  by destruct (exec_free_frame _ _ _ _ Hfree) as (_ & _ & _ & ? & _).
Qed.

Lemma exec_free_removes_witness :
  ∃ ev s' ns,
    exec_free (Some 3%positive) state_reuse = Some (ev, s')
    ∧ forward s'
      = Some (delete 1%nat [1%positive; 3%positive; 2%positive; 4%positive])
    ∧ backward s'
      = Some (rev (delete 1%nat
                     [1%positive; 3%positive; 2%positive; 4%positive]))
    ∧ numbers state_reuse = Some ns
    ∧ numbers s' = Some (delete 1%nat ns)
    ∧ heap s' !! 3%positive = None.
Proof.
  apply (exec_free_removes state_reuse
           [1%positive; 3%positive; 2%positive; 4%positive] 1%nat 3%positive
           registry_state_reuse).
  reflexivity.
Defined.

End Order.
